(** * Focus-Guardian: the perception-to-presentation pipeline

    A shallow embedding of the TypeScript sources

      - [types.ts]                       (module [Types])
      - [services/geminiService.ts]      (module [GeminiService])
      - the application component [App]  (modules [App], [Session],
                                          [Audio], [Format], [Mounting])
      - the component [WebcamMonitor]    (module [WebcamMonitor])
      - the component [StatusOverlay]    (module [StatusOverlay])

    with the JavaScript numbers and strings they rest on (modules
    [JsNumber] and [JsString]), the notions the properties are stated
    against (modules [Reference], [ClientNotions], [SamplerNotions]) and
    sample data (module [Samples]), followed by the properties of the
    pipeline: retry and fallback of the classification client, the
    debounce of the raw classification stream, the session counters and
    the focus score, the ducked volume, the in-flight guard of the
    sampler, the session history, the background sound and the display of
    durations.

    JavaScript numbers are IEEE 754 binary64 values.  Quantities on which the
    program does real arithmetic (volumes, the focus score) are modelled by
    Rocq's primitive [float], which is the same format with the same
    round-to-nearest-even operations.  Counters that only ever hold small
    integers and are only incremented (the session counters, the retry
    counter, time stamps) are modelled by [Z]; binary64 represents every
    integer of magnitude below 2^53 exactly, far beyond what a session that
    samples once every four seconds can reach. *)

From Stdlib Require Import ZArith List String Ascii Bool Lia.
From Stdlib Require Import PrimFloat FloatOps SpecFloat Uint63.
From Stdlib Require DecimalString DecimalZ DecimalPos.
Import ListNotations.

Local Open Scope Z_scope.
#[local] Set Warnings "-inexact-float".

(* ===================================================================== *)
(** ** JavaScript numbers                                                  *)
(* ===================================================================== *)

Module JsNumber.

(** The number holding the integer [z] (exact for [|z| < 2^53], which is
    all this development converts). *)
Definition of_Z (z : Z) : float :=
  if z <? 0 then PrimFloat.opp (PrimFloat.of_uint63 (Uint63.of_Z (- z)))
  else PrimFloat.of_uint63 (Uint63.of_Z z).

(** [Math.round]: the integral number closest to [x], a tie going to the
    one closer to +infinity; NaN, the infinities and the zeros are returned
    as they are, and a result of zero keeps the sign of [x].  The value of
    a finite float is [m * 2^e], so with [e < 0] the rounded integer is
    [floor ((2 * m + 2^-e) / 2^(1-e))], computed here exactly. *)
Definition Math_round (x : float) : float :=
  match Prim2SF x with
  | S754_finite s m e =>
      if 0 <=? e then x
      else
        let sm := if s then Z.neg m else Z.pos m in
        let n := (2 * sm + 2 ^ (- e)) / 2 ^ (1 - e) in
        if n =? 0 then (if s then (-0)%float else 0%float) else of_Z n
  | _ => x
  end.

End JsNumber.

(* ===================================================================== *)
(** ** types.ts                                                            *)
(* ===================================================================== *)

Module Types.

Inductive StudyStatus : Type :=
| IDLE
| STUDYING
| DISTRACTED
| ABSENT.

Definition StudyStatus_eqb (a b : StudyStatus) : bool :=
  match a, b with
  | IDLE, IDLE | STUDYING, STUDYING
  | DISTRACTED, DISTRACTED | ABSENT, ABSENT => true
  | _, _ => false
  end.

Record AnalysisResult : Type := mkAnalysisResult {
  status : StudyStatus;
  reason : string;
  confidence : float
}.

Record StatusCounts : Type := mkStatusCounts {
  studying : Z;
  distracted : Z;
  absent : Z;
  total : Z
}.

(** [id] is [Date.now().toString()]; the model keeps the number. The
    object spread [{ ...statsRef.current }] copies all four counters. *)
Record StudySession : Type := mkStudySession {
  id : Z;
  startTime : Z;
  endTime : Z;
  duration : Z;
  focusScore : float;
  statusCounts : StatusCounts
}.

End Types.

(* ===================================================================== *)
(** ** JavaScript strings                                                  *)
(* ===================================================================== *)

Module JsString.
Local Open Scope string_scope.

(** [dropPrefix p s] is [Some rest] when [s = p ++ rest]. *)
Fixpoint dropPrefix (p s : string) : option string :=
  match p with
  | EmptyString => Some s
  | String a p' =>
      match s with
      | EmptyString => None
      | String b s' => if Ascii.eqb a b then dropPrefix p' s' else None
      end
  end.

(** [String.prototype.startsWith]. *)
Definition startsWith (p s : string) : bool :=
  match dropPrefix p s with Some _ => true | None => false end.

(** [String.prototype.includes]: [p] occurs somewhere in [s]. *)
Fixpoint includes (p s : string) : bool :=
  startsWith p s ||
  match s with
  | EmptyString => false
  | String _ s' => includes p s'
  end.

Fixpoint rev_acc (s acc : string) : string :=
  match s with
  | EmptyString => acc
  | String a s' => rev_acc s' (String a acc)
  end.

Definition rev (s : string) : string := rev_acc s EmptyString.

(** The characters [trim] removes are the WhiteSpace and LineTerminator
    code points of ECMAScript. A string of the model is the UTF-8 encoding
    of the JavaScript string, so those of the ASCII range are one byte
    (U+0009 to U+000D and U+0020) and the others two or three bytes. *)
Definition isWhiteSpace (a : ascii) : bool :=
  let n := N_of_ascii a in
  (N.leb 9 n && N.leb n 13) || N.eqb n 32.

(** U+00A0, the bytes C2 A0. *)
Definition isWhiteSpace2 (a b : ascii) : bool :=
  N.eqb (N_of_ascii a) 194 && N.eqb (N_of_ascii b) 160.

(** U+1680 (E1 9A 80), U+2000 to U+200A (E2 80 80 to E2 80 8A), U+2028,
    U+2029 and U+202F (E2 80 A8, E2 80 A9, E2 80 AF), U+205F (E2 81 9F),
    U+3000 (E3 80 80) and U+FEFF (EF BB BF). *)
Definition isWhiteSpace3 (a b c : ascii) : bool :=
  let a := N_of_ascii a in
  let b := N_of_ascii b in
  let c := N_of_ascii c in
  (N.eqb a 225 && N.eqb b 154 && N.eqb c 128)
  || (N.eqb a 226 && N.eqb b 128 &&
      ((N.leb 128 c && N.leb c 138) || N.eqb c 168 || N.eqb c 169 || N.eqb c 175))
  || (N.eqb a 226 && N.eqb b 129 && N.eqb c 159)
  || (N.eqb a 227 && N.eqb b 128 && N.eqb c 128)
  || (N.eqb a 239 && N.eqb b 187 && N.eqb c 191).

(** [String.prototype.trimStart]. *)
Fixpoint trimStart (s : string) : string :=
  match s with
  | EmptyString => EmptyString
  | String a s1 =>
      if isWhiteSpace a then trimStart s1
      else
        match s1 with
        | EmptyString => s
        | String b s2 =>
            if isWhiteSpace2 a b then trimStart s2
            else
              match s2 with
              | EmptyString => s
              | String c s3 => if isWhiteSpace3 a b c then trimStart s3 else s
              end
        end
  end.

(** [trimEnd] seen from the end of the string: on the reversed string the
    bytes of a character come last byte first. *)
Fixpoint trimEndRev (s : string) : string :=
  match s with
  | EmptyString => EmptyString
  | String c s1 =>
      if isWhiteSpace c then trimEndRev s1
      else
        match s1 with
        | EmptyString => s
        | String b s2 =>
            if isWhiteSpace2 b c then trimEndRev s2
            else
              match s2 with
              | EmptyString => s
              | String a s3 => if isWhiteSpace3 a b c then trimEndRev s3 else s
              end
        end
  end.

(** [String.prototype.trimEnd]. *)
Definition trimEnd (s : string) : string := rev (trimEndRev (rev s)).

(** [String.prototype.trim]. *)
Definition trim (s : string) : string := trimEnd (trimStart s).

(** The regular expressions of the client: literals, sequence and
    alternation, matched from a given position with backtracking, in the
    order the alternatives are written. *)
Inductive Regex : Type :=
| Lit (l : string)
| Seq (a b : Regex)
| Alt (a b : Regex).

Fixpoint matchAt {A : Type} (r : Regex) (s : string)
    (k : string -> option A) : option A :=
  match r with
  | Lit l =>
      match dropPrefix l s with
      | Some rest => k rest
      | None => None
      end
  | Seq a b => matchAt a s (fun rest => matchAt b rest k)
  | Alt a b =>
      match matchAt a s k with
      | Some x => Some x
      | None => matchAt b s k
      end
  end.

(** [s.replace(/^r/, "")]: without the [g] flag and anchored at the start,
    the only candidate match is at position 0. *)
Definition replaceAtStart (r : Regex) (s : string) : string :=
  match matchAt r s Some with
  | Some rest => rest
  | None => s
  end.

(** [s.replace(/l$/, "")] for a literal [l]: without the [m] flag [$]
    matches only at the end of the string. *)
Definition replaceAtEnd (l s : string) : string :=
  match dropPrefix (rev l) (rev s) with
  | Some rest => rev rest
  | None => s
  end.

End JsString.

(* ===================================================================== *)
(** ** services/geminiService.ts                                           *)
(* ===================================================================== *)

Module GeminiService.
Import Types JsString.
Local Open Scope string_scope.
Local Open Scope Z_scope.

(** What [error?.message] holds when it is truthy. The thrown value is
    typed [any], so the message need not be a string. For a value that is
    no string, [includes p] is what the call [errorMessage.includes(p)]
    comes to: [None] when it throws a [TypeError] because the value has no
    such method (a number, [true], a plain object), [Some b] when it
    returns a truthy ([b = true]) or falsy value (an array has the
    method). *)
Inductive Message : Type :=
| Text (text : string)
| NotText (includes : string -> option bool).

(** A thrown value, as the [catch] block reads it: [error?.status] and
    [error?.code] (a number, if any), and [error?.message], which is
    [None] when it is [undefined], [null] or another falsy value, also
    when the thrown value itself is [null] or [undefined]. *)
Record JsError : Type := mkJsError {
  err_status : option Z;
  err_code : option Z;
  err_message : option Message
}.

(** [new Error(msg)] and the [SyntaxError] of [JSON.parse]: a message and
    neither [status] nor [code]. *)
Definition Error (msg : string) : JsError := mkJsError None None (Some (Text msg)).

(** The [TypeError] of calling [includes] on a value that has no such
    method; the wording is the engine's. *)
Definition TypeError : JsError := Error "errorMessage.includes is not a function".

(** A value as [JSON.parse] yields it. The cast [as AnalysisResult] checks
    nothing, so the value is handed on whether it is an object with the
    three fields of [AnalysisResult] at their declared types or any other
    JSON value, which is kept as its text. *)
Inductive JsValue : Type :=
| WellTyped (result : AnalysisResult)
| IllTyped (json : string).

(** How one call of [ai.models.generateContent] settles: the promise
    resolves with a response whose [text] is a string or [undefined], or
    it rejects. An exception raised in the [try] block while the response
    is read is caught like a rejection with that exception. *)
Inductive Outcome : Type :=
| Resolves (text : option string)
| Rejects (error : JsError).

(** What the client does to the outside world, in order. *)
Inductive Event : Type :=
| GenerateContent (data : string)
| Wait (ms : Z)
| ConsoleWarn (delay attempt : Z)
| ConsoleError (error : JsError).

Definition isCall (e : Event) : bool :=
  match e with GenerateContent _ => true | _ => false end.

Definition callCount (log : list Event) : nat :=
  List.length (filter isCall log).

(** Calls made and delays slept, read off a log. *)
Definition callsOf (log : list Event) : list string :=
  flat_map (fun e => match e with GenerateContent d => [d] | _ => [] end) log.

Definition delaysOf (log : list Event) : list Z :=
  flat_map (fun e => match e with Wait ms => [ms] | _ => [] end) log.

(** Computations that log events and either return or throw. *)
Inductive Completion (A : Type) : Type :=
| Returns (a : A)
| Throws (error : JsError).
Arguments Returns {A} a.
Arguments Throws {A} error.

Definition M (A : Type) : Type := list Event -> Completion A * list Event.

Definition ret {A} (a : A) : M A := fun log => (Returns a, log).

Definition bind {A B} (c : M A) (k : A -> M B) : M B :=
  fun log =>
    match c log with
    | (Returns a, log') => k a log'
    | (Throws e, log') => (Throws e, log')
    end.

Definition throw {A} (e : JsError) : M A := fun log => (Throws e, log).

Definition tryCatch {A} (body : M A) (handler : JsError -> M A) : M A :=
  fun log =>
    match body log with
    | (Returns a, log') => (Returns a, log')
    | (Throws e, log') => handler e log'
    end.

Definition emit (e : Event) : M unit := fun log => (Returns tt, (log ++ [e])%list).

Notation "x <- c ;; k" := (bind c (fun x => k))
  (at level 61, c at next level, right associativity).
Notation "c ;;; k" := (bind c (fun _ => k))
  (at level 61, right associativity).

Definition MAX_RETRIES : Z := 3.

(** [/^data:image\/(png|jpeg|jpg);base64,/] *)
Definition dataUriPrefix : Regex :=
  Seq (Lit "data:image/")
      (Seq (Alt (Lit "png") (Alt (Lit "jpeg") (Lit "jpg")))
           (Lit ";base64,")).

Definition cleanBase64 (base64Image : string) : string :=
  replaceAtStart dataUriPrefix base64Image.

(** The fence clean-up applied to a non-empty reply before parsing. *)
Definition cleanText (text : string) : string :=
  let text := trim text in
  if startsWith "```json" text then
    replaceAtEnd "```" (replaceAtStart (Lit "```json") text)
  else if startsWith "```" text then
    replaceAtEnd "```" (replaceAtStart (Lit "```") text)
  else text.

(** [error?.status || error?.code]: the status unless it is missing or 0. *)
Definition errorCode (error : JsError) : option Z :=
  match err_status error with
  | Some c => if c =? 0 then err_code error else Some c
  | None => err_code error
  end.

(** [error?.message || ""]. *)
Definition errorMessage (error : JsError) : Message :=
  match err_message error with
  | Some message => message
  | None => Text ""
  end.

(** [errorMessage.includes(p)]; [None] when the call throws. *)
Definition errorMessageIncludes (p : string) (error : JsError) : option bool :=
  match errorMessage error with
  | Text text => Some (includes p text)
  | NotText includes => includes p
  end.

(** The test [errorCode === 503 || errorMessage.includes("overloaded") ||
    errorMessage.includes("UNAVAILABLE")], evaluated from left to right as
    far as needed; [None] when a call of [includes] throws. *)
Definition isOverloaded (error : JsError) : option bool :=
  if match errorCode error with Some c => c =? 503 | None => false end
  then Some true
  else
    match errorMessageIncludes "overloaded" error with
    | None => None
    | Some true => Some true
    | Some false => errorMessageIncludes "UNAVAILABLE" error
    end.

Definition fallback (reason : string) : AnalysisResult :=
  mkAnalysisResult IDLE reason 0%float.

(** How one turn of the [while] loop ends. *)
Inductive Turn : Type :=
| Return (result : JsValue)
| Continue (attempt : Z).

Section Client.

(** The two collaborators outside the repository. [classifier k data] is
    how the [k]-th call (from 0) of [generateContent] settles when sent
    [data]. [JSON_parse] is [JSON.parse]; [inr msg] is a [SyntaxError]
    with message [msg], whose wording is the engine's. *)
Variable classifier : nat -> string -> Outcome.
Variable JSON_parse : string -> JsValue + string.

Definition generateContent (data : string) : M Outcome :=
  fun log => (Returns (classifier (callCount log) data),
              (log ++ [GenerateContent data])%list).

(** The body of [try]. *)
Definition tryBlock (cleanBase64 : string) : M Turn :=
  response <- generateContent cleanBase64 ;;
  match response with
  | Rejects error => throw error
  | Resolves text =>
      match text with
      | None | Some "" => throw (Error "No response from AI")
      | Some text =>
          match JSON_parse (cleanText text) with
          | inl result => ret (Return result)
          | inr msg => throw (Error msg)
          end
      end
  end.

(** The body of [catch (error)]. An exception raised while the overload
    test is evaluated leaves the [catch] block, and with it
    [analyzeFrame]. *)
Definition catchBlock (attempt : Z) (error : JsError) : M Turn :=
  match isOverloaded error with
  | None => throw TypeError
  | Some isOverloaded =>
      if isOverloaded && (attempt <? MAX_RETRIES - 1) then
        let attempt := attempt + 1 in
        let delay := 1000 * 2 ^ (attempt - 1) in
        emit (ConsoleWarn delay attempt) ;;;
        emit (Wait delay) ;;;
        ret (Continue attempt)
      else
        emit (ConsoleError error) ;;;
        ret (Return (WellTyped (fallback (if isOverloaded
                                          then "Server busy, retrying..."
                                          else "Analysis failed"))))
  end.

(** [while (attempt < MAX_RETRIES) { try ... catch ... }] followed by the
    final [return]. [fuel] bounds the number of turns; [None] means the
    bound was hit before the loop ended. *)
Fixpoint whileLoop (fuel : nat) (cleanBase64 : string) (attempt : Z)
    : M (option JsValue) :=
  match fuel with
  | O => ret None
  | S fuel' =>
      if attempt <? MAX_RETRIES then
        turn <- tryCatch (tryBlock cleanBase64) (catchBlock attempt) ;;
        match turn with
        | Return result => ret (Some result)
        | Continue attempt' => whileLoop fuel' cleanBase64 attempt'
        end
      else ret (Some (WellTyped (fallback "Service unavailable")))
  end.

Definition analyzeFrameFuel (fuel : nat) (base64Image : string)
    : M (option JsValue) :=
  let cleanBase64 := cleanBase64 base64Image in
  let attempt := 0 in
  whileLoop fuel cleanBase64 attempt.

(** [analyzeFrame]: the loop never needs more than [MAX_RETRIES] turns
    (lemma [whileLoop_fuel] below). *)
Definition analyzeFrame (base64Image : string) : M (option JsValue) :=
  analyzeFrameFuel (Z.to_nat MAX_RETRIES) base64Image.

End Client.

End GeminiService.

(* ===================================================================== *)
(** ** The application component: session, debounce, ducking               *)
(* ===================================================================== *)

Module App.
Import Types.

(** The state and the refs of [App] that the pipeline reads and writes.
    The audio back ends, the playlist and the picture-in-picture window are
    presentation and are left out. *)
Record State : Type := mkState {
  isMonitoring : bool;
  isMonitoringRef : bool;
  currentResult : AnalysisResult;
  sessions : list StudySession;
  startTime : option Z;
  elapsedTime : Z;
  sensitivity : Z;
  musicVolume : float;
  statsRef : StatusCounts;
  consecutiveBadChecksRef : Z
}.

Definition idleResult : AnalysisResult :=
  mkAnalysisResult IDLE "" 0%float.

Definition zeroStats : StatusCounts := mkStatusCounts 0 0 0 0.

(** The values of the [useState] and [useRef] initialisers. *)
Definition initial : State :=
  {| isMonitoring := false;
     isMonitoringRef := false;
     currentResult := idleResult;
     sessions := [];
     startTime := None;
     elapsedTime := 0;
     sensitivity := 2;
     musicVolume := 0.5%float;
     statsRef := zeroStats;
     consecutiveBadChecksRef := 0 |}.

Definition isBad (s : StudyStatus) : bool :=
  match s with
  | DISTRACTED | ABSENT => true
  | _ => false
  end.

(** [getTargetVolume]: duck to 20% while the displayed status is
    DISTRACTED or ABSENT. *)
Definition getTargetVolume (st : State) : float :=
  let target := musicVolume st in
  if isBad (status (currentResult st))
  then (musicVolume st * 0.2)%float
  else target.

(** The three-way [if / else if] chain on the raw status. *)
Definition recordStats (s : StudyStatus) (c : StatusCounts) : StatusCounts :=
  let c := mkStatusCounts (studying c) (distracted c) (absent c) (total c + 1) in
  match s with
  | STUDYING => mkStatusCounts (studying c + 1) (distracted c) (absent c) (total c)
  | DISTRACTED => mkStatusCounts (studying c) (distracted c + 1) (absent c) (total c)
  | ABSENT => mkStatusCounts (studying c) (distracted c) (absent c + 1) (total c)
  | IDLE => c
  end.

Definition setCurrentResult (r : AnalysisResult) (st : State) : State :=
  {| isMonitoring := isMonitoring st;
     isMonitoringRef := isMonitoringRef st;
     currentResult := r;
     sessions := sessions st;
     startTime := startTime st;
     elapsedTime := elapsedTime st;
     sensitivity := sensitivity st;
     musicVolume := musicVolume st;
     statsRef := statsRef st;
     consecutiveBadChecksRef := consecutiveBadChecksRef st |}.

Definition setStats (c : StatusCounts) (st : State) : State :=
  {| isMonitoring := isMonitoring st;
     isMonitoringRef := isMonitoringRef st;
     currentResult := currentResult st;
     sessions := sessions st;
     startTime := startTime st;
     elapsedTime := elapsedTime st;
     sensitivity := sensitivity st;
     musicVolume := musicVolume st;
     statsRef := c;
     consecutiveBadChecksRef := consecutiveBadChecksRef st |}.

Definition setConsecutiveBad (n : Z) (st : State) : State :=
  {| isMonitoring := isMonitoring st;
     isMonitoringRef := isMonitoringRef st;
     currentResult := currentResult st;
     sessions := sessions st;
     startTime := startTime st;
     elapsedTime := elapsedTime st;
     sensitivity := sensitivity st;
     musicVolume := musicVolume st;
     statsRef := statsRef st;
     consecutiveBadChecksRef := n |}.

(** [handleStatusChange] is a [useCallback] closure over [sensitivity]: the
    threshold is the value captured when the callback was created, so it is
    an argument here; everything else is read from refs at call time. *)
Definition handleStatusChange
    (sensitivity : Z) (result : AnalysisResult) (st : State) : State :=
  if negb (isMonitoringRef st) then st
  else
    let st := setStats (recordStats (status result) (statsRef st)) st in
    if isBad (status result) then
      let st := setConsecutiveBad (consecutiveBadChecksRef st + 1) st in
      if sensitivity <=? consecutiveBadChecksRef st
      then setCurrentResult result st
      else st
    else
      let st := setConsecutiveBad 0 st in
      setCurrentResult result st.

(** The score computed in the STOP branch of [toggleMonitoring]. *)
Definition computeFocusScore (c : StatusCounts) : float :=
  let totalChecks := total c in
  if 0 <? totalChecks
  then JsNumber.Math_round
         ((JsNumber.of_Z (studying c) / JsNumber.of_Z totalChecks) * 100)%float
  else 0%float.

(** [toggleMonitoring]. [now], [nowId] and [nowStart] are the values of the
    successive [Date.now()] calls of the STOP branch; the START branch
    reads the clock once ([now]). [startTime || Date.now()] and the
    [startTime ? ... : 0] test treat a start time of 0 like [null]. *)
Definition toggleMonitoring (now nowId nowStart : Z) (st : State) : State :=
  if isMonitoring st then
    let endTime := now in
    let started :=
      match startTime st with
      | Some t => if t =? 0 then None else Some t
      | None => None
      end in
    let duration :=
      match started with
      | Some t => (endTime - t) / 1000
      | None => 0
      end in
    let focusScore := computeFocusScore (statsRef st) in
    let newSession :=
      {| id := nowId;
         Types.startTime := match started with Some t => t | None => nowStart end;
         endTime := endTime;
         duration := duration;
         focusScore := focusScore;
         statusCounts := statsRef st |} in
    {| isMonitoring := false;
       isMonitoringRef := false;
       currentResult := idleResult;
       sessions := newSession :: sessions st;
       startTime := None;
       elapsedTime := 0;
       sensitivity := sensitivity st;
       musicVolume := musicVolume st;
       statsRef := statsRef st;
       consecutiveBadChecksRef := 0 |}
  else
    {| isMonitoring := true;
       isMonitoringRef := true;
       currentResult := currentResult st;
       sessions := sessions st;
       startTime := Some now;
       elapsedTime := 0;
       sensitivity := sensitivity st;
       musicVolume := musicVolume st;
       statsRef := zeroStats;
       consecutiveBadChecksRef := 0 |}.

(** Ingesting a run of raw results with the same captured threshold. *)
Definition ingest (sensitivity : Z) (rs : list AnalysisResult) (st : State) : State :=
  fold_left (fun s r => handleStatusChange sensitivity r s) rs st.

End App.

(* ===================================================================== *)
(** ** The component WebcamMonitor: the sampler                            *)
(* ===================================================================== *)

Module WebcamMonitor.
Import Types.
Local Open Scope string_scope.
Local Open Scope Z_scope.

Definition CAPTURE_INTERVAL_MS : Z := 4000.

(** One mounted instance of the component. JavaScript runs each callback
    to its next [await] without interleaving, so the instance is a state
    machine whose steps are those callbacks. [inFlight] lists the frames
    of the [analyzeFrame] calls that were started and have not settled;
    the other fields are the props, the DOM facts the capture reads, and
    the component's own state and ref. The callback handed to
    [onStatusChange] belongs to [App]; here it is an action. *)
Record State : Type := mkState {
  isMonitoring : bool;
  streamError : bool;
  videoRef : bool;
  canvasRef : bool;
  readyState : Z;
  videoWidth : Z;
  hasContext : bool;
  isProcessing : bool;
  isProcessingRef : bool;
  inFlight : list string
}.

Definition initial : State :=
  {| isMonitoring := false;
     streamError := false;
     videoRef := false;
     canvasRef := false;
     readyState := 0;
     videoWidth := 0;
     hasContext := false;
     isProcessing := false;
     isProcessingRef := false;
     inFlight := [] |}.

(** What the [catch] block of [captureAndAnalyze] catches: an exception
    of drawing the video or reading the canvas, or the rejection of
    [analyzeFrame]. *)
Inductive Caught : Type :=
| CaptureFailed
| CallRejected (error : GeminiService.JsError).

(** What a step does outside the instance. *)
Inductive Action : Type :=
| AnalyzeFrame (base64Image : string)
| OnStatusChange (result : AnalysisResult)
| ConsoleLog (msg : string)
| ConsoleError (msg : string) (error : Caught).

Definition setProcessing (b : bool) (st : State) : State :=
  {| isMonitoring := isMonitoring st;
     streamError := streamError st;
     videoRef := videoRef st;
     canvasRef := canvasRef st;
     readyState := readyState st;
     videoWidth := videoWidth st;
     hasContext := hasContext st;
     isProcessing := b;
     isProcessingRef := b;
     inFlight := inFlight st |}.

Definition setInFlight (l : list string) (st : State) : State :=
  {| isMonitoring := isMonitoring st;
     streamError := streamError st;
     videoRef := videoRef st;
     canvasRef := canvasRef st;
     readyState := readyState st;
     videoWidth := videoWidth st;
     hasContext := hasContext st;
     isProcessing := isProcessing st;
     isProcessingRef := isProcessingRef st;
     inFlight := l |}.

(** The [finally] block. *)
Definition finallyBlock (st : State) : State := setProcessing false st.

(** [captureAndAnalyze] up to its [await]. [frame] is what drawing the
    video and [canvas.toDataURL] produce: [Some] data URL, or [None] when
    one of them throws. *)
Definition captureAndAnalyze (frame : option string) (st : State)
    : State * list Action :=
  if negb (videoRef st) || negb (canvasRef st) || isProcessingRef st
  then (st, [])
  else if (readyState st <? 2) || (videoWidth st =? 0)
  then (finallyBlock st, [])
  else
    let st := setProcessing true st in
    if hasContext st then
      match frame with
      | Some base64Image =>
          (setInFlight (inFlight st ++ [base64Image])%list st,
           [AnalyzeFrame base64Image])
      | None => (finallyBlock st, [ConsoleError "Capture error:" CaptureFailed])
      end
    else (finallyBlock st, []).

(** [captureAndAnalyze] from its [await] on, once [analyzeFrame] has
    resolved with [result], taken at the type [analyzeFrame] declares for
    it; the component hands it on without looking into it. *)
Definition resume (result : AnalysisResult) (st : State)
    : State * list Action :=
  match inFlight st with
  | [] => (st, [])
  | _ :: rest => (finallyBlock (setInFlight rest st), [OnStatusChange result])
  end.

(** [captureAndAnalyze] from its [await] on, once [analyzeFrame] has
    rejected with [error]: the [catch] block logs it, nothing is handed to
    [onStatusChange], and the [finally] block runs. *)
Definition resumeRejected (error : GeminiService.JsError) (st : State)
    : State * list Action :=
  match inFlight st with
  | [] => (st, [])
  | _ :: rest =>
      (finallyBlock (setInFlight rest st),
       [ConsoleError "Capture error:" (CallRejected error)])
  end.

(** The imperative handle. *)
Definition triggerAnalysis (frame : option string) (st : State)
    : State * list Action :=
  if isMonitoring st && negb (isProcessingRef st) then
    let '(st', acts) := captureAndAnalyze frame st in
    (st', ConsoleLog "Triggering manual analysis..." :: acts)
  else (st, []).

(** The callbacks that can run on an instance. The warm-up timeout and the
    interval exist only while [isMonitoring && !streamError]. [Render]
    and [Video] are the surroundings changing: new props or a new stream
    error, and the camera and canvas becoming (un)available. *)
Inductive Event : Type :=
| TimerFires (frame : option string)
| TriggerAnalysis (frame : option string)
| AnalyzeFrameResolves (result : AnalysisResult)
| AnalyzeFrameRejects (error : GeminiService.JsError)
| Render (isMonitoring streamError : bool)
| Video (videoRef canvasRef : bool) (readyState videoWidth : Z)
        (hasContext : bool).

Definition step (ev : Event) (st : State) : State * list Action :=
  match ev with
  | TimerFires frame =>
      if isMonitoring st && negb (streamError st)
      then captureAndAnalyze frame st
      else (st, [])
  | TriggerAnalysis frame => triggerAnalysis frame st
  | AnalyzeFrameResolves result => resume result st
  | AnalyzeFrameRejects error => resumeRejected error st
  | Render m e =>
      ({| isMonitoring := m;
          streamError := e;
          videoRef := videoRef st;
          canvasRef := canvasRef st;
          readyState := readyState st;
          videoWidth := videoWidth st;
          hasContext := hasContext st;
          isProcessing := isProcessing st;
          isProcessingRef := isProcessingRef st;
          inFlight := inFlight st |}, [])
  | Video v c r w h =>
      ({| isMonitoring := isMonitoring st;
          streamError := streamError st;
          videoRef := v;
          canvasRef := c;
          readyState := r;
          videoWidth := w;
          hasContext := h;
          isProcessing := isProcessing st;
          isProcessingRef := isProcessingRef st;
          inFlight := inFlight st |}, [])
  end.

(** The state after a sequence of callbacks. *)
Definition run (evs : list Event) (st : State) : State :=
  fold_left (fun s ev => fst (step ev s)) evs st.

Definition startsCall (acts : list Action) : bool :=
  existsb (fun a => match a with AnalyzeFrame _ => true | _ => false end) acts.

End WebcamMonitor.

(* ===================================================================== *)
(** ** The monitor in the tree of the application component               *)
(* ===================================================================== *)

Module Mounting.
Import Types.
Local Open Scope string_scope.

(** [App] renders [WebcamMonitor] in the main view while [pipWindow] is
    [null], and through a portal into the picture-in-picture window
    otherwise. These are two places of the tree, so whenever [pipWindow]
    changes React unmounts the instance and mounts a new one, whose state
    and refs, [isProcessingRef] among them, are fresh. Unmounting clears
    the timers of the old instance; a call it has in flight goes on, and
    when it settles the rest of its [captureAndAnalyze] runs. *)
Record Monitors : Type := mkMonitors {
  mounted : WebcamMonitor.State;
  unmounted : list WebcamMonitor.State
}.

Definition initial : Monitors :=
  {| mounted := WebcamMonitor.initial; unmounted := [] |}.

(** The new instance gets the props of the old one. *)
Definition remount (m : Monitors) : Monitors :=
  {| mounted :=
       fst (WebcamMonitor.step
              (WebcamMonitor.Render (WebcamMonitor.isMonitoring (mounted m)) false)
              WebcamMonitor.initial);
     unmounted := mounted m :: unmounted m |}.

Definition settles (ev : WebcamMonitor.Event) : bool :=
  match ev with
  | WebcamMonitor.AnalyzeFrameResolves _
  | WebcamMonitor.AnalyzeFrameRejects _ => true
  | _ => false
  end.

Fixpoint replaceNth {A : Type} (i : nat) (x : A) (l : list A) : list A :=
  match l, i with
  | [], _ => []
  | _ :: l', O => x :: l'
  | y :: l', S i' => y :: replaceNth i' x l'
  end.

(** A callback of the mounted instance, a change of [pipWindow], or the
    settling of a call of the [i]-th unmounted instance. *)
Inductive Event : Type :=
| OnMounted (ev : WebcamMonitor.Event)
| SetPipWindow
| OnUnmounted (i : nat) (ev : WebcamMonitor.Event).

Definition step (ev : Event) (m : Monitors)
    : Monitors * list WebcamMonitor.Action :=
  match ev with
  | OnMounted e =>
      let '(st, acts) := WebcamMonitor.step e (mounted m) in
      (mkMonitors st (unmounted m), acts)
  | SetPipWindow => (remount m, [])
  | OnUnmounted i e =>
      match nth_error (unmounted m) i with
      | Some st =>
          if settles e then
            let '(st', acts) := WebcamMonitor.step e st in
            (mkMonitors (mounted m) (replaceNth i st' (unmounted m)), acts)
          else (m, [])
      | None => (m, [])
      end
  end.

Definition run (evs : list Event) (m : Monitors) : Monitors :=
  fold_left (fun m ev => fst (step ev m)) evs m.

(** The calls in flight, of whichever instance. *)
Definition inFlight (m : Monitors) : list string :=
  (WebcamMonitor.inFlight (mounted m)
   ++ flat_map WebcamMonitor.inFlight (unmounted m))%list.

End Mounting.

(* ===================================================================== *)
(** ** Reference notions the properties are stated against                 *)
(* ===================================================================== *)

Module Reference.
Import Types.

(** The number of results at the head of a list that are DISTRACTED or
    ABSENT. *)
Fixpoint leadingBad (rs : list AnalysisResult) : Z :=
  match rs with
  | [] => 0
  | r :: rs' => if App.isBad (status r) then 1 + leadingBad rs' else 0
  end.

(** The number of consecutive DISTRACTED/ABSENT results at the end of a
    run: those since the last other result, or since the start. *)
Definition consecutiveBad (rs : list AnalysisResult) : Z :=
  leadingBad (rev rs).

(** How many results of a run carry the status [s]. *)
Definition countStatus (s : StudyStatus) (rs : list AnalysisResult) : Z :=
  Z.of_nat (List.length (filter (fun r => StudyStatus_eqb (status r) s) rs)).

(** 1 when the result [r] carries the status [s], else 0. *)
Definition bump (s : StudyStatus) (r : AnalysisResult) : Z :=
  if StudyStatus_eqb (status r) s then 1 else 0.

(** A run made of DISTRACTED/ABSENT results only. *)
Definition allBad (rs : list AnalysisResult) : Prop :=
  Forall (fun r => App.isBad (status r) = true) rs.

(** The nearest integers to [100 * studying / total] over the rationals,
    for [total > 0]: a tie rounded up, as [Math.round] does, rounded to
    the even neighbour, and rounded down. *)
Definition roundHalfUp (studying total : Z) : Z :=
  (200 * studying + total) / (2 * total).

Definition roundHalfDown (studying total : Z) : Z :=
  - ((total - 200 * studying) / (2 * total)).

Definition roundHalfEven (studying total : Z) : Z :=
  let up := roundHalfUp studying total in
  let down := roundHalfDown studying total in
  if Z.even up then up else down.

(** The score of every session of at most [n] checks, with the number of
    STUDYING checks and the number of checks it is the score of. *)
Definition scoresUpTo (n : nat) : list (Z * Z * float) :=
  flat_map (fun t =>
    map (fun s => (Z.of_nat s, Z.of_nat t,
                   App.computeFocusScore
                     (mkStatusCounts (Z.of_nat s) 0 0 (Z.of_nat t))))
        (seq 0 (S t)))
    (seq 1 n).

(** The guard of the sampler: the ref is set exactly while one call is in
    flight, and no more than one ever is. *)
Definition guarded (st : WebcamMonitor.State) : Prop :=
  (WebcamMonitor.isProcessingRef st = false /\ WebcamMonitor.inFlight st = [])
  \/ (WebcamMonitor.isProcessingRef st = true /\
      exists frame, WebcamMonitor.inFlight st = [frame]).

(** What the [try] block of the [k]-th call comes to when sent [data]:
    the parsed value it returns, or the error it throws. *)
Definition attemptResult
    (classifier : nat -> string -> GeminiService.Outcome)
    (JSON_parse : string -> GeminiService.JsValue + string)
    (k : nat) (data : string) : GeminiService.JsValue + GeminiService.JsError :=
  match classifier k data with
  | GeminiService.Rejects error => inr error
  | GeminiService.Resolves None => inr (GeminiService.Error "No response from AI")
  | GeminiService.Resolves (Some EmptyString) =>
      inr (GeminiService.Error "No response from AI")
  | GeminiService.Resolves (Some text) =>
      match JSON_parse (GeminiService.cleanText text) with
      | inl result => inl result
      | inr msg => inr (GeminiService.Error msg)
      end
  end.

(** The synthetic result the [catch] block returns for an error on which
    the overload test gives [isOverloaded]. *)
Definition syntheticResult (isOverloaded : bool) : AnalysisResult :=
  GeminiService.fallback
    (if isOverloaded
     then "Server busy, retrying..."
     else "Analysis failed").

(** The overload test can be evaluated on the error of every attempt that
    ends in one: no thrown value carries a message on which [includes]
    cannot be called. *)
Definition readableErrors
    (classifier : nat -> string -> GeminiService.Outcome)
    (JSON_parse : string -> GeminiService.JsValue + string)
    (data : string) : Prop :=
  forall k error,
    attemptResult classifier JSON_parse k data = inr error ->
    GeminiService.isOverloaded error <> None.

End Reference.

(* ===================================================================== *)
(** ** Sample data for the concrete runs                                   *)
(* ===================================================================== *)

Module Samples.
Import Types.
Local Open Scope string_scope.

Definition studyingResult : AnalysisResult :=
  mkAnalysisResult STUDYING "Great focus, keep going!" 0.9%float.

Definition distractedResult : AnalysisResult :=
  mkAnalysisResult DISTRACTED "Put the phone down." 0.8%float.

Definition absentResult : AnalysisResult :=
  mkAnalysisResult ABSENT "Nobody at the desk." 0.95%float.

(** A session that has just been started from the initial state. *)
Definition started : App.State := App.toggleMonitoring 1000 1000 1000 App.initial.

(** A session stopped after two results, and a third arriving late. *)
Definition stopped : App.State :=
  App.toggleMonitoring 9000 9000 9000
    (App.ingest 2 [studyingResult; distractedResult] started).

(** A session in which a warning is displayed: two DISTRACTED results in
    a row at the default threshold of 2. *)
Definition warned : App.State :=
  App.ingest 2 [distractedResult; distractedResult] started.

(** Forty raw results of which twenty-three are STUDYING. *)
Definition run23of40 : list AnalysisResult :=
  repeat studyingResult 23 ++ repeat distractedResult 17.

(** Two hundred raw results of which one is STUDYING. *)
Definition run1of200 : list AnalysisResult :=
  studyingResult :: repeat absentResult 199.

(** An overload rejection of the provider, and a permanent one. *)
Definition overloaded : GeminiService.JsError :=
  GeminiService.mkJsError (Some 503) None
    (Some (GeminiService.Text "The model is overloaded.")).

Definition badRequest : GeminiService.JsError :=
  GeminiService.mkJsError (Some 400) None
    (Some (GeminiService.Text "Invalid argument.")).

(** A thrown value whose message is a number, as in
    [throw { message: 429 }]. *)
Definition numericMessage : GeminiService.JsError :=
  GeminiService.mkJsError None None
    (Some (GeminiService.NotText (fun _ => None))).

Definition alwaysOverloaded : nat -> string -> GeminiService.Outcome :=
  fun _ _ => GeminiService.Rejects overloaded.

Definition alwaysBadRequest : nat -> string -> GeminiService.Outcome :=
  fun _ _ => GeminiService.Rejects badRequest.

(** A provider that is overloaded once and then replies. *)
Definition overloadedThenReply : nat -> string -> GeminiService.Outcome :=
  fun k _ =>
    match k with
    | O => GeminiService.Rejects overloaded
    | _ => GeminiService.Resolves (Some "{status:STUDYING}")
    end.

(** A stand-in for [JSON.parse] that knows two replies: a result (written
    without its quotation marks) and the empty array. *)
Definition parseSample (text : string) : GeminiService.JsValue + string :=
  if String.eqb text "{status:STUDYING}"
  then inl (GeminiService.WellTyped studyingResult)
  else if String.eqb text "[]"
  then inl (GeminiService.IllTyped "[]")
  else inr "Unexpected token".

End Samples.

(* ===================================================================== *)
(** ** The application component as a machine                              *)
(* ===================================================================== *)

Module Session.
Import Types App.

Definition setSensitivity (n : Z) (st : State) : State :=
  {| isMonitoring := isMonitoring st;
     isMonitoringRef := isMonitoringRef st;
     currentResult := currentResult st;
     sessions := sessions st;
     startTime := startTime st;
     elapsedTime := elapsedTime st;
     sensitivity := n;
     musicVolume := musicVolume st;
     statsRef := statsRef st;
     consecutiveBadChecksRef := consecutiveBadChecksRef st |}.

Definition setMusicVolume (v : float) (st : State) : State :=
  {| isMonitoring := isMonitoring st;
     isMonitoringRef := isMonitoringRef st;
     currentResult := currentResult st;
     sessions := sessions st;
     startTime := startTime st;
     elapsedTime := elapsedTime st;
     sensitivity := sensitivity st;
     musicVolume := v;
     statsRef := statsRef st;
     consecutiveBadChecksRef := consecutiveBadChecksRef st |}.

Definition setElapsedTime (n : Z) (st : State) : State :=
  {| isMonitoring := isMonitoring st;
     isMonitoringRef := isMonitoringRef st;
     currentResult := currentResult st;
     sessions := sessions st;
     startTime := startTime st;
     elapsedTime := n;
     sensitivity := sensitivity st;
     musicVolume := musicVolume st;
     statsRef := statsRef st;
     consecutiveBadChecksRef := consecutiveBadChecksRef st |}.

(** The callback of the one-second interval of the timer effect, which
    exists while [isMonitoring && startTime]. *)
Definition timerTick (now : Z) (st : State) : State :=
  match startTime st with
  | Some t =>
      if isMonitoring st && negb (t =? 0)
      then setElapsedTime ((now - t) / 1000) st
      else st
  | None => st
  end.

(** What can happen to the component. [StatusChange s r] is a call of
    [onStatusChange] through a callback that captured the threshold [s].
    The sensitivity slider is rendered only while not monitoring. *)
Inductive Event : Type :=
| ToggleMonitoring (now nowId nowStart : Z)
| StatusChange (sensitivity : Z) (result : AnalysisResult)
| TimerTick (now : Z)
| SetSensitivity (n : Z)
| SetMusicVolume (v : float).

Definition step (ev : Event) (st : State) : State :=
  match ev with
  | ToggleMonitoring now nowId nowStart => toggleMonitoring now nowId nowStart st
  | StatusChange s result => handleStatusChange s result st
  | TimerTick now => timerTick now st
  | SetSensitivity n => if isMonitoring st then st else setSensitivity n st
  | SetMusicVolume v => setMusicVolume v st
  end.

Definition run (evs : list Event) (st : State) : State :=
  fold_left (fun s ev => step ev s) evs st.

(** The number of sessions a sequence of events brings to an end. *)
Fixpoint completed (evs : list Event) (st : State) : nat :=
  match evs with
  | [] => 0
  | ev :: evs' =>
      (match ev with
       | ToggleMonitoring _ _ _ => if isMonitoring st then 1 else 0
       | _ => 0
       end + completed evs' (step ev st))%nat
  end.

(** What every state of the component satisfies. *)
Definition consistent (st : State) : Prop :=
  isMonitoringRef st = isMonitoring st /\
  (isMonitoring st = false ->
     currentResult st = idleResult /\ consecutiveBadChecksRef st = 0 /\
     startTime st = None /\ elapsedTime st = 0) /\
  (isMonitoring st = true -> startTime st <> None) /\
  0 <= consecutiveBadChecksRef st <= total (statsRef st) /\
  0 <= studying (statsRef st) /\ 0 <= distracted (statsRef st) /\
  0 <= absent (statsRef st) /\
  studying (statsRef st) + distracted (statsRef st) + absent (statsRef st)
    <= total (statsRef st).

(** What every record of the history satisfies. *)
Definition recordOk (session : StudySession) : Prop :=
  focusScore session = computeFocusScore (statusCounts session) /\
  0 <= studying (statusCounts session) /\
  0 <= distracted (statusCounts session) /\
  0 <= absent (statusCounts session) /\
  studying (statusCounts session) + distracted (statusCounts session)
    + absent (statusCounts session) <= total (statusCounts session).

End Session.

(* ===================================================================== *)
(** ** The component StatusOverlay                                         *)
(* ===================================================================== *)

Module StatusOverlay.
Import Types.
Local Open Scope string_scope.

(** What the component renders: nothing, the reward card or the warning
    card, each card with its message. *)
Inductive Overlay : Type :=
| Nothing
| Reward (message : string)
| Warning (message : string).

(** [reason || fallback]. *)
Definition orElse (reason fallback : string) : string :=
  match reason with
  | EmptyString => fallback
  | _ => reason
  end.

Definition StatusOverlay (result : AnalysisResult) : Overlay :=
  match status result with
  | IDLE => Nothing
  | STUDYING => Reward (orElse (reason result) "保持这个状态，你做得很好！")
  | DISTRACTED | ABSENT =>
      Warning (orElse (reason result) "放下手机，回到学习中！")
  end.

Definition isWarning (o : Overlay) : bool :=
  match o with Warning _ => true | _ => false end.

End StatusOverlay.

(* ===================================================================== *)
(** ** Notions for the traces of the client                                *)
(* ===================================================================== *)

Module ClientNotions.
Import Types JsString GeminiService.
Local Open Scope string_scope.
Local Open Scope Z_scope.

(** The delays of [n] successive retries, the first of which raises the
    attempt counter from [attempt]. *)
Fixpoint delaysFrom (attempt : Z) (n : nat) : list Z :=
  match n with
  | O => []
  | S n' => 1000 * 2 ^ (attempt + 1 - 1) :: delaysFrom (attempt + 1) n'
  end.

(** The calls and the sleeps of a log, in the order they were made. *)
Definition isCallOrWait (e : Event) : bool :=
  match e with
  | GenerateContent _ | Wait _ => true
  | _ => false
  end.

Definition schedule (log : list Event) : list Event := filter isCallOrWait log.

(** [n] successive retries with [data], the first of which raises the
    attempt counter from [attempt]: each is a sleep followed by a call. *)
Fixpoint retriesFrom (data : string) (attempt : Z) (n : nat) : list Event :=
  match n with
  | O => []
  | S n' =>
      Wait (1000 * 2 ^ (attempt + 1 - 1)) :: GenerateContent data
        :: retriesFrom data (attempt + 1) n'
  end.

(** A string made of white space characters only, of one, two or three
    bytes each. *)
Fixpoint allWhiteSpace (s : string) : bool :=
  match s with
  | EmptyString => true
  | String a s1 =>
      if isWhiteSpace a then allWhiteSpace s1
      else
        match s1 with
        | EmptyString => false
        | String b s2 =>
            if isWhiteSpace2 a b then allWhiteSpace s2
            else
              match s2 with
              | EmptyString => false
              | String c s3 => isWhiteSpace3 a b c && allWhiteSpace s3
              end
        end
  end.

(** [s] has [p] as a substring. *)
Definition hasSubstring (p s : string) : Prop :=
  exists before after, s = before ++ p ++ after.

(** Every attempt before the [k]-th ends in an overload error. *)
Definition overloadedBefore
    (classifier : nat -> string -> Outcome)
    (JSON_parse : string -> JsValue + string)
    (data : string) (k : nat) : Prop :=
  forall j, (j < k)%nat ->
    exists error,
      Reference.attemptResult classifier JSON_parse j data = inr error /\
      isOverloaded error = Some true.

End ClientNotions.

(* ===================================================================== *)
(** ** Notions for the runs of the sampler                                 *)
(* ===================================================================== *)

Module SamplerNotions.
Import Types WebcamMonitor.
Local Open Scope Z_scope.

(** Everything [captureAndAnalyze] tests before it calls [analyzeFrame]. *)
Definition canCapture (st : State) : bool :=
  videoRef st && canvasRef st && negb (isProcessingRef st)
  && (2 <=? readyState st) && negb (videoWidth st =? 0) && hasContext st.

(** All the actions of a sequence of callbacks, in order. *)
Fixpoint actionsOf (evs : list Event) (st : State) : list Action :=
  match evs with
  | [] => []
  | ev :: evs' => (snd (step ev st) ++ actionsOf evs' (fst (step ev st)))%list
  end.

Definition isAnalyzeFrame (a : Action) : bool :=
  match a with AnalyzeFrame _ => true | _ => false end.

Definition isOnStatusChange (a : Action) : bool :=
  match a with OnStatusChange _ => true | _ => false end.

(** Calls started and results delivered in a list of actions. *)
Definition started (acts : list Action) : nat :=
  List.length (filter isAnalyzeFrame acts).

Definition delivered (acts : list Action) : nat :=
  List.length (filter isOnStatusChange acts).

Definition isRejection (a : Action) : bool :=
  match a with ConsoleError _ (CallRejected _) => true | _ => false end.

(** Calls whose rejection was caught. *)
Definition rejected (acts : list Action) : nat :=
  List.length (filter isRejection acts).

End SamplerNotions.

(* ===================================================================== *)
(** ** The background sound: NoiseGenerator, playlist and audio effects    *)
(* ===================================================================== *)

Module Audio.
Import Types.
Local Open Scope string_scope.
Local Open Scope Z_scope.

Inductive NoiseType : Type := brown | white | pink.

Definition NoiseType_eqb (a b : NoiseType) : bool :=
  match a, b with
  | brown, brown | white, white | pink, pink => true
  | _, _ => false
  end.

(** [this.currentType === type], where the argument may be [undefined]
    (the call site passes [track.noiseType!]). *)
Definition sameType (a b : option NoiseType) : bool :=
  match a, b with
  | Some x, Some y => NoiseType_eqb x y
  | None, None => true
  | _, _ => false
  end.

(** A gain node: the value last set directly and the value the gain is
    heading for ([setTargetAtTime]). *)
Record GainNode : Type := mkGainNode {
  gainValue : float;
  gainTarget : float
}.

(** The class [NoiseGenerator], with the part of the audio graph it drives.
    [ctx] tells whether the [AudioContext] has been created (its suspended
    state is left out). Buffer sources are told apart by their number of
    creation; [sounding] lists the sources that were started and have not
    been stopped. The contents of the noise buffers (random samples) are
    left out. *)
Record NoiseGenerator : Type := mkNoiseGenerator {
  ctx : bool;
  gainNode : option GainNode;
  source : option nat;
  isPlaying : bool;
  currentType : option NoiseType;
  sounding : list nat;
  created : nat
}.

(** [new NoiseGenerator()]. *)
Definition newNoiseGenerator : NoiseGenerator :=
  {| ctx := false;
     gainNode := None;
     source := None;
     isPlaying := false;
     currentType := Some brown;
     sounding := [];
     created := 0 |}.

(** [stop()]: stop and drop the source, if any. *)
Definition stop (g : NoiseGenerator) : NoiseGenerator :=
  match source g with
  | Some id =>
      {| ctx := ctx g;
         gainNode := gainNode g;
         source := None;
         isPlaying := false;
         currentType := currentType g;
         sounding := filter (fun x => negb (Nat.eqb x id)) (sounding g);
         created := created g |}
  | None =>
      {| ctx := ctx g;
         gainNode := gainNode g;
         source := None;
         isPlaying := false;
         currentType := currentType g;
         sounding := sounding g;
         created := created g |}
  end.

(** [play(type, volume)]. *)
Definition play (type : option NoiseType) (volume : float) (g : NoiseGenerator)
    : NoiseGenerator :=
  if isPlaying g && sameType (currentType g) type then g
  else
    let g := stop g in
    {| ctx := true;
       gainNode := Some (mkGainNode volume volume);
       source := Some (created g);
       isPlaying := true;
       currentType := type;
       sounding := (sounding g ++ [created g])%list;
       created := S (created g) |}.

(** [setVolume(volume)]. [smooth] tells whether [setTargetAtTime] works;
    when it throws, the value is set at once. *)
Definition setVolume (smooth : bool) (volume : float) (g : NoiseGenerator)
    : NoiseGenerator :=
  match gainNode g with
  | Some node =>
      if ctx g then
        {| ctx := ctx g;
           gainNode := Some (if smooth
                             then mkGainNode (gainValue node) volume
                             else mkGainNode volume volume);
           source := source g;
           isPlaying := isPlaying g;
           currentType := currentType g;
           sounding := sounding g;
           created := created g |}
      else g
  | None => g
  end.

(** The calls made on a generator. *)
Inductive Call : Type :=
| Play (type : option NoiseType) (volume : float)
| Stop
| SetVolume (smooth : bool) (volume : float).

Definition call (c : Call) (g : NoiseGenerator) : NoiseGenerator :=
  match c with
  | Play type volume => play type volume g
  | Stop => stop g
  | SetVolume smooth volume => setVolume smooth volume g
  end.

Definition calls (cs : list Call) (g : NoiseGenerator) : NoiseGenerator :=
  fold_left (fun g c => call c g) cs g.

Inductive TrackType : Type := generator | audio.

Record Track : Type := mkTrack {
  name : string;
  type : TrackType;
  url : option string;
  noiseType : option NoiseType
}.

Definition PLAYLIST : list Track :=
  [ mkTrack "Brown Noise (深度专注)" generator None (Some brown);
    mkTrack "Pink Noise (舒缓雨声)" generator None (Some pink);
    mkTrack "White Noise (隔绝噪音)" generator None (Some white) ].

(** The [<audio>] element behind [audioRef], as far as the effects use it:
    its volume and whether playback is on ([pause()] turns it off, a
    [play()] whose promise resolves turns it on). *)
Record AudioElement : Type := mkAudioElement {
  volume : float;
  playing : bool
}.

(** The sound-related state of [App] besides what [App.State] holds. *)
Record Player : Type := mkPlayer {
  noiseGenRef : NoiseGenerator;
  audioRef : option AudioElement;
  isMusicPlaying : bool;
  currentTrackIndex : Z;
  audioError : option string
}.

Definition initialPlayer : Player :=
  {| noiseGenRef := newNoiseGenerator;
     audioRef := None;
     isMusicPlaying := false;
     currentTrackIndex := 0;
     audioError := None |}.

Definition setTrackIndex (i : Z) (p : Player) : Player :=
  {| noiseGenRef := noiseGenRef p;
     audioRef := audioRef p;
     isMusicPlaying := isMusicPlaying p;
     currentTrackIndex := i;
     audioError := audioError p |}.

(** [nextTrack] and [prevTrack] for a playlist of [n] tracks; [%] is the
    remainder of JavaScript, which has the sign of the dividend. *)
Definition nextIndex (n prev : Z) : Z := Z.rem (prev + 1) n.
Definition prevIndex (n prev : Z) : Z := Z.rem (prev - 1 + n) n.

Definition nextTrack (p : Player) : Player :=
  setTrackIndex (nextIndex (Z.of_nat (List.length PLAYLIST)) (currentTrackIndex p)) p.

Definition prevTrack (p : Player) : Player :=
  setTrackIndex (prevIndex (Z.of_nat (List.length PLAYLIST)) (currentTrackIndex p)) p.

(** [PLAYLIST[i]]: [undefined] outside the list. *)
Definition trackAt (i : Z) : option Track :=
  if i <? 0 then None else nth_error PLAYLIST (Z.to_nat i).

(** The body of the playback control effect once [track] has been read.
    [playRejects] tells whether the promise of [audio.play()] is rejected,
    in which case the element does not play and the error is shown. *)
Definition playbackOn (track : Track) (playRejects smooth : bool)
    (app : App.State) (p : Player) : Player :=
  let shouldPlay := App.isMonitoring app && isMusicPlaying p in
  let targetVolume := App.getTargetVolume app in
  match type track with
  | generator =>
      let paused :=
        match audioRef p with
        | Some a => Some (mkAudioElement (volume a) false)
        | None => None
        end in
      {| noiseGenRef :=
           if shouldPlay
           then setVolume smooth targetVolume
                  (play (noiseType track) targetVolume (noiseGenRef p))
           else stop (noiseGenRef p);
         audioRef := paused;
         isMusicPlaying := isMusicPlaying p;
         currentTrackIndex := currentTrackIndex p;
         audioError := None |}
  | audio =>
      match audioRef p with
      | Some a =>
          {| noiseGenRef := stop (noiseGenRef p);
             audioRef :=
               Some (mkAudioElement targetVolume
                       (if shouldPlay then negb playRejects else false));
             isMusicPlaying := isMusicPlaying p;
             currentTrackIndex := currentTrackIndex p;
             audioError :=
               if shouldPlay && playRejects
               then Some "无法播放音频文件。请确认文件是否存在。"
               else None |}
      | None =>
          {| noiseGenRef := stop (noiseGenRef p);
             audioRef := None;
             isMusicPlaying := isMusicPlaying p;
             currentTrackIndex := currentTrackIndex p;
             audioError := None |}
      end
  end.

(** The playback control effect; [None] when [PLAYLIST[currentTrackIndex]]
    is [undefined] and reading [track.type] throws. *)
Definition playbackEffect (playRejects smooth : bool)
    (app : App.State) (p : Player) : option Player :=
  match trackAt (currentTrackIndex p) with
  | Some track => Some (playbackOn track playRejects smooth app p)
  | None => None
  end.

(** The body of the volume-only effect once [track] has been read. *)
Definition volumeOn (track : Track) (smooth : bool)
    (app : App.State) (p : Player) : Player :=
  let targetVolume := App.getTargetVolume app in
  match type track with
  | generator =>
      {| noiseGenRef := setVolume smooth targetVolume (noiseGenRef p);
         audioRef := audioRef p;
         isMusicPlaying := isMusicPlaying p;
         currentTrackIndex := currentTrackIndex p;
         audioError := audioError p |}
  | audio =>
      match audioRef p with
      | Some a =>
          {| noiseGenRef := noiseGenRef p;
             audioRef := Some (mkAudioElement targetVolume (playing a));
             isMusicPlaying := isMusicPlaying p;
             currentTrackIndex := currentTrackIndex p;
             audioError := audioError p |}
      | None => p
      end
  end.

Definition volumeEffect (smooth : bool) (app : App.State) (p : Player)
    : option Player :=
  match trackAt (currentTrackIndex p) with
  | Some track => Some (volumeOn track smooth app p)
  | None => None
  end.

(** [toggleMonitoring] with what it does to the noise generator: the STOP
    branch ends with [noiseGenRef.current.stop()]. *)
Definition toggleMonitoring (now nowId nowStart : Z)
    (app : App.State) (p : Player) : App.State * Player :=
  (App.toggleMonitoring now nowId nowStart app,
   if App.isMonitoring app
   then {| noiseGenRef := stop (noiseGenRef p);
           audioRef := audioRef p;
           isMusicPlaying := isMusicPlaying p;
           currentTrackIndex := currentTrackIndex p;
           audioError := audioError p |}
   else p).

(** The generator tracks its one source: what sounds is the source it
    holds, and it says it is playing exactly when it holds one. *)
Definition wellFormed (g : NoiseGenerator) : Prop :=
  sounding g = match source g with Some id => [id] | None => [] end /\
  (isPlaying g = true <-> source g <> None) /\
  (forall id, source g = Some id -> (id < created g)%nat) /\
  (source g <> None -> ctx g = true /\ gainNode g <> None).

(** Moves along the playlist. *)
Inductive Move : Type := Next | Prev.

Definition move (m : Move) (p : Player) : Player :=
  match m with Next => nextTrack p | Prev => prevTrack p end.

Definition moves (ms : list Move) (p : Player) : Player :=
  fold_left (fun p m => move m p) ms p.

(** Whether any sound source is on. *)
Definition noiseOn (p : Player) : bool :=
  match sounding (noiseGenRef p) with [] => false | _ => true end.

Definition audioOn (p : Player) : bool :=
  match audioRef p with Some a => playing a | None => false end.

(** The first track of the playlist. *)
Definition brownTrack : Track :=
  mkTrack "Brown Noise (深度专注)" generator None (Some brown).

(** The music switched on, before any effect has run. *)
Definition musicOn : Player :=
  {| noiseGenRef := newNoiseGenerator;
     audioRef := None;
     isMusicPlaying := true;
     currentTrackIndex := 0;
     audioError := None |}.

(** The player once the playback control effect has run in a started
    session with the music on: the brown noise sounds. *)
Definition brownNoisePlaying : Player :=
  playbackOn brownTrack false true Samples.started musicOn.

End Audio.

(* ===================================================================== *)
(** ** The display of durations                                            *)
(* ===================================================================== *)

Module Format.
Local Open Scope string_scope.
Local Open Scope Z_scope.

(** [String(n)] for a number holding an integer: its decimal digits, after
    a minus sign when it is negative. *)
Definition toString (n : Z) : string :=
  DecimalString.NilZero.string_of_int (Z.to_int n).

Fixpoint repeatChar (n : nat) (c : ascii) : string :=
  match n with
  | O => EmptyString
  | S n' => String c (repeatChar n' c)
  end.

(** [s.padStart(n, c)] for a one-character pad. *)
Definition padStart (n : nat) (c : ascii) (s : string) : string :=
  repeatChar (n - String.length s) c ++ s.

(** [formatTime] on a whole number of seconds. [Math.floor] of a quotient
    is the floor division of [Z]; [%] is the remainder that has the sign
    of the dividend. *)
Definition formatTime (seconds : Z) : string :=
  let h := seconds / 3600 in
  let m := Z.rem seconds 3600 / 60 in
  let s := Z.rem seconds 60 in
  (if 0 <? h then toString h ++ ":" else "")
  ++ padStart 2 "0" (toString m) ++ ":" ++ padStart 2 "0" (toString s).

End Format.

(* ===================================================================== *)
(** * Properties                                                           *)
(* ===================================================================== *)

(** ** The debounce aggregator and the session counters *)

Section Aggregator.
Import Types App Reference.

Lemma ingest_nil s st : ingest s [] st = st.
Proof. reflexivity. Qed.

Lemma ingest_snoc s rs r st :
  ingest s (rs ++ [r]) st = handleStatusChange s r (ingest s rs st).
Proof. unfold ingest. now rewrite fold_left_app. Qed.

Lemma consecutiveBad_snoc rs r :
  consecutiveBad (rs ++ [r]) =
  if isBad (status r) then 1 + consecutiveBad rs else 0.
Proof. unfold consecutiveBad. now rewrite rev_unit. Qed.

Lemma consecutiveBad_nonneg rs : 0 <= consecutiveBad rs.
Proof.
  unfold consecutiveBad. induction (rev rs) as [|r l IH]; cbn [leadingBad].
  - lia.
  - destruct (isBad (status r)); lia.
Qed.

Lemma countStatus_snoc s rs r :
  countStatus s (rs ++ [r]) =
  countStatus s rs + (if StudyStatus_eqb (status r) s then 1 else 0).
Proof.
  unfold countStatus. rewrite filter_app, length_app. simpl.
  destruct (StudyStatus_eqb (status r) s); simpl; lia.
Qed.

(** One active ingestion, field by field. *)
Lemma handleStatusChange_active s r st :
  isMonitoringRef st = true ->
  let st' := handleStatusChange s r st in
  isMonitoringRef st' = true /\
  statsRef st' = recordStats (status r) (statsRef st) /\
  consecutiveBadChecksRef st' =
    (if isBad (status r) then consecutiveBadChecksRef st + 1 else 0) /\
  currentResult st' =
    (if isBad (status r)
     then if s <=? consecutiveBadChecksRef st + 1 then r else currentResult st
     else r).
Proof.
  intros Hm. unfold handleStatusChange. rewrite Hm. simpl.
  destruct (isBad (status r)); simpl.
  - destruct (s <=? consecutiveBadChecksRef st + 1); simpl; auto.
  - auto.
Qed.

Lemma handleStatusChange_inactive s r st :
  isMonitoringRef st = false -> handleStatusChange s r st = st.
Proof. intros H. unfold handleStatusChange. now rewrite H. Qed.

Lemma toggleMonitoring_start now nowId nowStart st :
  isMonitoring st = false ->
  let st0 := toggleMonitoring now nowId nowStart st in
  isMonitoringRef st0 = true /\ isMonitoring st0 = true /\
  statsRef st0 = zeroStats /\ consecutiveBadChecksRef st0 = 0 /\
  currentResult st0 = currentResult st.
Proof. intros H. unfold toggleMonitoring. rewrite H. simpl. auto. Qed.

Lemma toggleMonitoring_stop now nowId nowStart st :
  isMonitoring st = true ->
  let st1 := toggleMonitoring now nowId nowStart st in
  isMonitoringRef st1 = false /\ isMonitoring st1 = false /\
  statsRef st1 = statsRef st /\ consecutiveBadChecksRef st1 = 0 /\
  currentResult st1 = idleResult /\
  exists session, sessions st1 = session :: sessions st /\
    focusScore session = computeFocusScore (statsRef st) /\
    statusCounts session = statsRef st.
Proof.
  intros H. unfold toggleMonitoring. rewrite H. simpl.
  repeat split; eauto.
Qed.

(** What holds after a run ingested in an active session whose counters
    were zero when it began. *)
Lemma ingest_active s rs : forall st,
  isMonitoringRef st = true ->
  consecutiveBadChecksRef st = 0 ->
  statsRef st = zeroStats ->
  let st' := ingest s rs st in
  isMonitoringRef st' = true /\
  consecutiveBadChecksRef st' = consecutiveBad rs /\
  total (statsRef st') = Z.of_nat (List.length rs) /\
  studying (statsRef st') = countStatus STUDYING rs /\
  distracted (statsRef st') = countStatus DISTRACTED rs /\
  absent (statsRef st') = countStatus ABSENT rs.
Proof.
  induction rs as [|r rs IH] using rev_ind; intros st Hm Hc Hs.
  - simpl. rewrite Hs. repeat split; auto.
  - cbv zeta. rewrite ingest_snoc.
    destruct (IH st Hm Hc Hs) as (Hm' & Hc' & Ht & Hst & Hd & Ha).
    destruct (handleStatusChange_active s r (ingest s rs st) Hm')
      as (Hm2 & Hs2 & Hc2 & _).
    rewrite Hs2, Hc2, Hm2, consecutiveBad_snoc, !countStatus_snoc.
    rewrite length_app, Nat2Z.inj_add. simpl Z.of_nat.
    rewrite <- Hc', <- Ht, <- Hst, <- Hd, <- Ha.
    destruct (status r);
      cbn [isBad recordStats total studying distracted absent StudyStatus_eqb];
      repeat split; try reflexivity; lia.
Qed.

Lemma countStatus_total rs :
  Z.of_nat (List.length rs) =
  countStatus STUDYING rs + countStatus DISTRACTED rs +
  countStatus ABSENT rs + countStatus IDLE rs.
Proof.
  induction rs as [|r rs IH] using rev_ind.
  - reflexivity.
  - rewrite !countStatus_snoc, length_app, Nat2Z.inj_add. simpl Z.of_nat.
    destruct (status r); cbn [StudyStatus_eqb]; lia.
Qed.

End Aggregator.

Section AggregatorClaims.
Import Types App Reference Samples.

(** The scenario of the specification: sensitivity 2 and the raw run
    STUDYING, DISTRACTED, DISTRACTED, STUDYING. *)
Example scenario_stable_statuses :
  map (fun n => status (currentResult
         (ingest 2 (firstn n [studyingResult; distractedResult;
                              distractedResult; studyingResult]) started)))
      [1; 2; 3; 4]%nat
  = [STUDYING; STUDYING; DISTRACTED; STUDYING].
Proof. reflexivity. Qed.

Example scenario_session :
  let st := ingest 2 [studyingResult; distractedResult;
                      distractedResult; studyingResult] started in
  statsRef st = mkStatusCounts 2 2 0 4 /\
  computeFocusScore (statsRef st) = 50%float.
Proof. split; reflexivity. Qed.

(** C1. For a threshold [s] between 1 and 5, in a session started by
    [toggleMonitoring] and after any run [rs] of ingested raw results:
    the counter of consecutive bad checks is the number of
    DISTRACTED/ABSENT results since the last other result or the start;
    ingesting one more DISTRACTED/ABSENT result [r] leaves the displayed
    result as it was while that number is below [s] and sets it to [r]
    once it is at least [s]; ingesting a STUDYING or IDLE result sets the
    displayed result to it at once and resets the counter to 0; so the
    displayed result only changes to a DISTRACTED/ABSENT one when at least
    [s] consecutive such results have just been ingested. *)
Theorem debounce_threshold
    (s now nowId nowStart : Z) (idle : State)
    (rs : list AnalysisResult) (r : AnalysisResult) :
  1 <= s <= 5 ->
  isMonitoring idle = false ->
  let st := ingest s rs (toggleMonitoring now nowId nowStart idle) in
  let st' := handleStatusChange s r st in
  consecutiveBadChecksRef st = consecutiveBad rs /\
  (isBad (status r) = true ->
     consecutiveBadChecksRef st' = consecutiveBad (rs ++ [r]) /\
     (consecutiveBad (rs ++ [r]) < s -> currentResult st' = currentResult st) /\
     (s <= consecutiveBad (rs ++ [r]) -> currentResult st' = r)) /\
  (isBad (status r) = false ->
     currentResult st' = r /\ consecutiveBadChecksRef st' = 0) /\
  (isBad (status (currentResult st')) = true ->
     currentResult st' <> currentResult st ->
     s <= consecutiveBad (rs ++ [r])).
Proof.
  intros _ Hidle st st'.
  destruct (toggleMonitoring_start now nowId nowStart idle Hidle)
    as (Hm & _ & Hs & Hc & _).
  destruct (ingest_active s rs _ Hm Hc Hs) as (Hm' & Hc' & _).
  fold st in Hm', Hc'.
  destruct (handleStatusChange_active s r st Hm') as (_ & _ & Hc2 & Hr2).
  fold st' in Hc2, Hr2.
  rewrite consecutiveBad_snoc, <- Hc'.
  split; [reflexivity|].
  destruct (isBad (status r)) eqn:Hbad.
  - destruct (Z.leb_spec s (consecutiveBadChecksRef st + 1)) as [Hle|Hlt].
    + repeat split; try congruence; lia.
    + repeat split; try congruence; lia.
  - repeat split; congruence.
Qed.

Lemma debounce_threshold_witness :
  (1 <= 2 <= 5 /\ isMonitoring initial = false) /\
  let st := ingest 2 [studyingResult; distractedResult]
              (toggleMonitoring 1000 1000 1000 initial) in
  let st' := handleStatusChange 2 distractedResult st in
  consecutiveBadChecksRef st =
    consecutiveBad [studyingResult; distractedResult] /\
  (isBad (status distractedResult) = true ->
     consecutiveBadChecksRef st' =
       consecutiveBad ([studyingResult; distractedResult] ++ [distractedResult]) /\
     (consecutiveBad ([studyingResult; distractedResult] ++ [distractedResult]) < 2 ->
        currentResult st' = currentResult st) /\
     (2 <= consecutiveBad ([studyingResult; distractedResult] ++ [distractedResult]) ->
        currentResult st' = distractedResult)) /\
  (isBad (status distractedResult) = false ->
     currentResult st' = distractedResult /\ consecutiveBadChecksRef st' = 0) /\
  (isBad (status (currentResult st')) = true ->
     currentResult st' <> currentResult st ->
     2 <= consecutiveBad ([studyingResult; distractedResult] ++ [distractedResult])).
Proof.
  split.
  - split; [lia | reflexivity].
  - apply (debounce_threshold 2 1000 1000 1000 initial
             [studyingResult; distractedResult] distractedResult);
      [lia | reflexivity].
Defined.

End AggregatorClaims.

Section PastThreshold.
Import Types App Reference Samples.

(** C10. In an active session whose counter of consecutive bad checks has
    reached the threshold [s], every further DISTRACTED/ABSENT result is
    displayed at once: after any run of such results the displayed result
    is the last one ingested, and the counter has kept growing by one per
    result (it is not reset on reaching the threshold), so it stays at or
    above [s]. With a run of length one this is a direct switch between
    DISTRACTED and ABSENT on a single raw result. *)
Theorem past_threshold_no_redebounce
    (s : Z) (st : State) (rs : list AnalysisResult) (r : AnalysisResult) :
  isMonitoringRef st = true ->
  s <= consecutiveBadChecksRef st ->
  allBad (rs ++ [r]) ->
  let st' := ingest s (rs ++ [r]) st in
  currentResult st' = r /\
  consecutiveBadChecksRef st' =
    consecutiveBadChecksRef st + Z.of_nat (List.length (rs ++ [r])) /\
  s <= consecutiveBadChecksRef st'.
Proof.
  intros Hm Hs. revert r.
  induction rs as [|x rs IH] using rev_ind; intros r Hall st'.
  - subst st'. simpl app. unfold ingest. simpl fold_left.
    apply Forall_inv in Hall.
    destruct (handleStatusChange_active s r st Hm) as (_ & _ & Hc & Hr).
    rewrite Hall in Hc, Hr.
    destruct (Z.leb_spec s (consecutiveBadChecksRef st + 1)); [|lia].
    rewrite Hc, Hr. simpl List.length. repeat split; lia.
  - subst st'. rewrite ingest_snoc.
    apply Forall_app in Hall. destruct Hall as [Hrs Hr].
    apply Forall_inv in Hr.
    destruct (IH x Hrs) as (_ & Hc1 & Hs1).
    assert (Hm1 : isMonitoringRef (ingest s (rs ++ [x]) st) = true).
    { clear - Hm. generalize (rs ++ [x]). intros l. revert st Hm.
      induction l as [|y l IHl]; intros st Hm; [exact Hm|].
      simpl. apply IHl.
      now destruct (handleStatusChange_active s y st Hm). }
    destruct (handleStatusChange_active s r _ Hm1) as (_ & _ & Hc & Hres).
    rewrite Hr in Hc, Hres.
    destruct (Z.leb_spec s (consecutiveBadChecksRef (ingest s (rs ++ [x]) st) + 1));
      [|lia].
    rewrite Hc, Hres, Hc1, !length_app. simpl List.length.
    repeat split; lia.
Qed.

Lemma past_threshold_no_redebounce_witness :
  let st := ingest 2 [distractedResult; distractedResult] started in
  (isMonitoringRef st = true /\
   2 <= consecutiveBadChecksRef st /\
   status (currentResult st) = DISTRACTED /\
   allBad ([] ++ [absentResult])) /\
  (currentResult (ingest 2 ([] ++ [absentResult]) st) = absentResult /\
   consecutiveBadChecksRef (ingest 2 ([] ++ [absentResult]) st) =
     consecutiveBadChecksRef st + Z.of_nat (List.length ([] ++ [absentResult])) /\
   2 <= consecutiveBadChecksRef (ingest 2 ([] ++ [absentResult]) st)).
Proof.
  intros st. split.
  - repeat split; try reflexivity.
    repeat constructor.
  - apply (past_threshold_no_redebounce 2 st [] absentResult).
    + reflexivity.
    + now apply Z.leb_le.
    + repeat constructor.
Defined.

End PastThreshold.

Section SessionCounters.
Import Types App Reference Samples.

(** C3. In a session started by [toggleMonitoring], after any run [rs] of
    ingested raw results, ingesting one more result [r] adds exactly 1 to
    [total]; it adds 1 to the bucket of [r]'s status when that status is
    STUDYING, DISTRACTED or ABSENT and leaves the other buckets alone, an
    IDLE result touching no bucket; and before and after the ingestion
    [total] is the sum of the three buckets and the number of IDLE results
    ingested so far. *)
Theorem session_counters
    (s now nowId nowStart : Z) (idle : State)
    (rs : list AnalysisResult) (r : AnalysisResult) :
  isMonitoring idle = false ->
  let st := ingest s rs (toggleMonitoring now nowId nowStart idle) in
  let c := statsRef st in
  let c' := statsRef (handleStatusChange s r st) in
  total c' = total c + 1 /\
  studying c' = studying c + bump STUDYING r /\
  distracted c' = distracted c + bump DISTRACTED r /\
  absent c' = absent c + bump ABSENT r /\
  total c = studying c + distracted c + absent c + countStatus IDLE rs /\
  total c' = studying c' + distracted c' + absent c'
             + countStatus IDLE (rs ++ [r]).
Proof.
  intros Hidle st c c'.
  destruct (toggleMonitoring_start now nowId nowStart idle Hidle)
    as (Hm & _ & Hs & Hc & _).
  destruct (ingest_active s rs _ Hm Hc Hs) as (Hm' & _ & Ht & Hst & Hd & Ha).
  fold st in Hm', Ht, Hst, Hd, Ha. fold c in Ht, Hst, Hd, Ha.
  destruct (handleStatusChange_active s r st Hm') as (_ & Hs2 & _).
  subst c'. rewrite Hs2. fold c.
  pose proof (countStatus_total rs) as Hsum.
  rewrite countStatus_snoc. unfold bump.
  destruct (status r);
    cbn [recordStats total studying distracted absent StudyStatus_eqb];
    repeat split; lia.
Qed.

Lemma session_counters_witness :
  isMonitoring initial = false /\
  let st := ingest 2 [studyingResult; idleResult]
              (toggleMonitoring 1000 1000 1000 initial) in
  let c := statsRef st in
  let c' := statsRef (handleStatusChange 2 absentResult st) in
  total c' = total c + 1 /\
  studying c' = studying c + bump STUDYING absentResult /\
  distracted c' = distracted c + bump DISTRACTED absentResult /\
  absent c' = absent c + bump ABSENT absentResult /\
  total c = studying c + distracted c + absent c
            + countStatus IDLE [studyingResult; idleResult] /\
  total c' = studying c' + distracted c' + absent c'
             + countStatus IDLE ([studyingResult; idleResult] ++ [absentResult]).
Proof.
  split; [reflexivity|].
  apply (session_counters 2 1000 1000 1000 initial
           [studyingResult; idleResult] absentResult).
  reflexivity.
Defined.

End SessionCounters.

Section StaleResults.
Import Types App Reference Samples.

(** C7. A raw result handed to [handleStatusChange] while the session is
    not active (the ref [isMonitoringRef] is false, as it is from the
    moment monitoring is stopped) is ignored: the whole state is returned
    as it was, in particular the four session counters, the counter of
    consecutive bad checks and the displayed result. *)
Theorem inactive_ingestion_ignored
    (s : Z) (r : AnalysisResult) (st : State) :
  isMonitoringRef st = false ->
  let st' := handleStatusChange s r st in
  st' = st /\
  statsRef st' = statsRef st /\
  consecutiveBadChecksRef st' = consecutiveBadChecksRef st /\
  currentResult st' = currentResult st.
Proof.
  intros H st'. subst st'. rewrite (handleStatusChange_inactive s r st H). auto.
Qed.

(** The late arrival: results delivered after the session was stopped. *)
Lemma results_after_stop_dropped
    (s now nowId nowStart : Z) (st : State) (rs : list AnalysisResult) :
  isMonitoring st = true ->
  let stopped := toggleMonitoring now nowId nowStart st in
  ingest s rs stopped = stopped.
Proof.
  intros H stopped.
  destruct (toggleMonitoring_stop now nowId nowStart st H) as (Hm & _).
  fold stopped in Hm. clearbody stopped.
  induction rs as [|r rs IH]; [reflexivity|].
  unfold ingest in *. simpl.
  now rewrite (handleStatusChange_inactive s r stopped Hm).
Qed.

Lemma inactive_ingestion_ignored_witness :
  isMonitoringRef stopped = false /\
  let st' := handleStatusChange 2 distractedResult stopped in
  st' = stopped /\
  statsRef st' = statsRef stopped /\
  consecutiveBadChecksRef st' = consecutiveBadChecksRef stopped /\
  currentResult st' = currentResult stopped.
Proof.
  split; [reflexivity|].
  apply (inactive_ingestion_ignored 2 distractedResult stopped).
  reflexivity.
Defined.

End StaleResults.

(** ** The ducked volume *)

Section Ducking.
Import Types App Samples.

(** C8. Whatever the base volume, the target volume is the base volume
    times 0.2 (the binary64 product) while the displayed status is
    DISTRACTED or ABSENT, and the base volume itself while it is STUDYING
    or IDLE. With the base volume 0.5 of the initial state and the
    displayed statuses STUDYING, DISTRACTED, STUDYING (the raw run with
    threshold 1), the target volumes are 0.5, 0.1, 0.5. *)
Theorem target_volume_ducking (st : State) :
  getTargetVolume st =
    match status (currentResult st) with
    | DISTRACTED | ABSENT => (musicVolume st * 0.2)%float
    | STUDYING | IDLE => musicVolume st
    end
  /\
  (let displayed n :=
     ingest 1 (firstn n [studyingResult; distractedResult; studyingResult])
            started in
   musicVolume started = 0.5%float /\
   map (fun n => status (currentResult (displayed n))) [1; 2; 3]%nat
     = [STUDYING; DISTRACTED; STUDYING] /\
   map (fun n => getTargetVolume (displayed n)) [1; 2; 3]%nat
     = [0.5; 0.1; 0.5]%float).
Proof.
  split.
  - unfold getTargetVolume. destruct (status (currentResult st)); reflexivity.
  - repeat split; reflexivity.
Qed.

End Ducking.

(** ** The focus score *)

Section FocusScore.
Import Types App Reference Samples.

(** With no check recorded the score is 0. *)
Lemma computeFocusScore_no_checks (c : StatusCounts) :
  total c <= 0 -> computeFocusScore c = 0%float.
Proof.
  intros H. unfold computeFocusScore.
  destruct (Z.ltb_spec 0 (total c)); [lia | reflexivity].
Qed.

(** For sessions of up to 300 checks the score is an integral number
    between 0 and 100, and it is the rational score rounded half up or
    one less than it. *)
Lemma computeFocusScore_checked_range :
  forallb (fun '(s, t, score) =>
             let up := roundHalfUp s t in
             (PrimFloat.eqb score (JsNumber.of_Z up)
              || PrimFloat.eqb score (JsNumber.of_Z (up - 1)))
             && PrimFloat.leb 0 score && PrimFloat.leb score 100)
          (scoresUpTo 300) = true.
Proof. vm_compute. reflexivity. Qed.

(** Up to 200 checks, the sessions whose score is not the rational score
    rounded half up: each is an exact tie, and the score is the lower
    neighbour. *)
Lemma computeFocusScore_ties_up_to_200 :
  filter (fun '(s, t, score) =>
            negb (PrimFloat.eqb score (JsNumber.of_Z (roundHalfUp s t))))
         (scoresUpTo 200)
  = [(23, 40, 57%float); (46, 80, 57%float); (69, 120, 57%float);
     (92, 160, 57%float); (29, 200, 14%float); (57, 200, 28%float);
     (113, 200, 56%float); (115, 200, 57%float)].
Proof. vm_compute. reflexivity. Qed.

(** C4. The score computed on stopping a session is
    [Math.round((studying / total) * 100)] on binary64 numbers. For 23
    STUDYING checks out of 40 the quotient times 100 is
    57.49999999999999, so the score is 57, while 100 * 23 / 40 = 57.5
    rounds to 58 (a tie rounded up, or to the even neighbour). No
    tie-breaking rule rescues the formula: for 1 check out of 200 the
    score is 1, where a tie rounded down gives 0. *)
Theorem focus_score_off_by_one_at_ties :
  let session := hd (mkStudySession 0 0 0 0 0%float zeroStats)
                    (sessions (toggleMonitoring 170000 170000 170000
                                 (ingest 2 run23of40 started))) in
  statusCounts session = mkStatusCounts 23 17 0 40 /\
  focusScore session = 57%float /\
  ((JsNumber.of_Z 23 / JsNumber.of_Z 40) * 100 = 57.49999999999999)%float /\
  roundHalfUp 23 40 = 58 /\
  roundHalfEven 23 40 = 58 /\
  computeFocusScore (statsRef (ingest 2 run1of200 started)) = 1%float /\
  roundHalfDown 1 200 = 0.
Proof. vm_compute. repeat split; reflexivity. Qed.

End FocusScore.

(** ** The classification client *)

Section ClientLemmas.
Import Types JsString GeminiService Reference.
Local Open Scope string_scope.
Local Open Scope Z_scope.

Variable classifier : nat -> string -> Outcome.
Variable JSON_parse : string -> JsValue + string.

Lemma callsOf_app l1 l2 : callsOf (l1 ++ l2) = (callsOf l1 ++ callsOf l2)%list.
Proof. unfold callsOf. now rewrite flat_map_app. Qed.

Lemma delaysOf_app l1 l2 : delaysOf (l1 ++ l2) = (delaysOf l1 ++ delaysOf l2)%list.
Proof. unfold delaysOf. now rewrite flat_map_app. Qed.

(** The [try] block makes one call and returns or throws what
    [attemptResult] says. *)
Lemma tryBlock_spec data log :
  tryBlock classifier JSON_parse data log =
  (match attemptResult classifier JSON_parse (callCount log) data with
   | inl result => Returns (Return result)
   | inr error => Throws error
   end, (log ++ [GenerateContent data])%list).
Proof.
  unfold tryBlock, attemptResult, bind, generateContent.
  destruct (classifier (callCount log) data) as [[[|a text]|]|error];
    try reflexivity.
  destruct (JSON_parse (cleanText (String a text))); reflexivity.
Qed.

(** One turn of the loop. *)
Lemma turn_spec data attempt log :
  tryCatch (tryBlock classifier JSON_parse data) (catchBlock attempt) log =
  match attemptResult classifier JSON_parse (callCount log) data with
  | inl result => (Returns (Return result), (log ++ [GenerateContent data])%list)
  | inr error =>
      match isOverloaded error with
      | None => (Throws TypeError, (log ++ [GenerateContent data])%list)
      | Some o =>
          if o && (attempt <? MAX_RETRIES - 1) then
            (Returns (Continue (attempt + 1)),
             (log ++ [GenerateContent data;
                      ConsoleWarn (1000 * 2 ^ (attempt + 1 - 1)) (attempt + 1);
                      Wait (1000 * 2 ^ (attempt + 1 - 1))])%list)
          else
            (Returns (Return (WellTyped (syntheticResult o))),
             (log ++ [GenerateContent data; ConsoleError error])%list)
      end
  end.
Proof.
  unfold tryCatch. rewrite tryBlock_spec.
  destruct (attemptResult classifier JSON_parse (callCount log) data)
    as [result|error]; [reflexivity|].
  unfold catchBlock, syntheticResult.
  destruct (isOverloaded error) as [o|]; [|reflexivity].
  destruct (o && (attempt <? MAX_RETRIES - 1));
    unfold bind, emit, ret; cbn; rewrite <- !app_assoc; reflexivity.
Qed.

(** How a started loop ends. It makes at least one call, each with the
    same data, and then one of three things happens: it returns the parsed
    reply of one of its calls; it returns the synthetic result for the
    error of one of its calls; or, the overload test having thrown on the
    error of one of its calls, it throws. It never reaches the [return]
    after the loop. *)
Lemma whileLoop_spec data : forall fuel attempt log,
  0 <= attempt < MAX_RETRIES ->
  (Z.to_nat (MAX_RETRIES - attempt) <= fuel)%nat ->
  exists outcome log' n,
    whileLoop classifier JSON_parse fuel data attempt log = (outcome, log') /\
    callsOf log' = (callsOf log ++ repeat data (S n))%list /\
    ((exists k result,
        attemptResult classifier JSON_parse k data = inl result /\
        outcome = Returns (Some result)) \/
     (exists k error o,
        attemptResult classifier JSON_parse k data = inr error /\
        isOverloaded error = Some o /\
        outcome = Returns (Some (WellTyped (syntheticResult o)))) \/
     (exists k error,
        attemptResult classifier JSON_parse k data = inr error /\
        isOverloaded error = None /\
        outcome = Throws TypeError)).
Proof.
  unfold MAX_RETRIES.
  induction fuel as [|fuel IH]; intros attempt log Ha Hf; [lia|].
  cbn [whileLoop]. unfold MAX_RETRIES.
  destruct (Z.ltb_spec attempt 3) as [_|]; [|lia].
  unfold bind at 1. rewrite turn_spec.
  destruct (attemptResult classifier JSON_parse (callCount log) data)
    as [result|error] eqn:Hk.
  - exists (Returns (Some result)), (log ++ [GenerateContent data])%list, 0%nat.
    split; [reflexivity|]. split; [now rewrite callsOf_app|].
    left. now exists (callCount log), result.
  - destruct (isOverloaded error) as [o|] eqn:Hov.
    + unfold MAX_RETRIES.
      destruct (o && (attempt <? 3 - 1)) eqn:Hretry.
      * apply andb_true_iff in Hretry. destruct Hretry as [_ Hlt].
        apply Z.ltb_lt in Hlt.
        destruct (IH (attempt + 1)
                    (log ++ [GenerateContent data;
                             ConsoleWarn (1000 * 2 ^ (attempt + 1 - 1)) (attempt + 1);
                             Wait (1000 * 2 ^ (attempt + 1 - 1))])%list)
          as (outcome & log' & n & Hrun & Hcalls & Hshape); [lia | lia |].
        exists outcome, log', (S n). split; [exact Hrun|]. split; [|exact Hshape].
        rewrite Hcalls, callsOf_app. cbn [callsOf flat_map app repeat].
        rewrite <- app_assoc. reflexivity.
      * exists (Returns (Some (WellTyped (syntheticResult o)))),
               (log ++ [GenerateContent data; ConsoleError error])%list, 0%nat.
        split; [reflexivity|]. split; [now rewrite callsOf_app|].
        right. left. now exists (callCount log), error, o.
    + exists (Throws TypeError), (log ++ [GenerateContent data])%list, 0%nat.
      split; [reflexivity|]. split; [now rewrite callsOf_app|].
      right. right. now exists (callCount log), error.
Qed.

(** Fuel beyond the bound changes nothing. *)
Lemma whileLoop_fuel data fuel attempt log :
  0 <= attempt < MAX_RETRIES ->
  (Z.to_nat (MAX_RETRIES - attempt) <= fuel)%nat ->
  whileLoop classifier JSON_parse fuel data attempt log =
  whileLoop classifier JSON_parse (Z.to_nat (MAX_RETRIES - attempt)) data attempt log.
Proof.
  unfold MAX_RETRIES. revert attempt log.
  induction fuel as [|fuel IH]; intros attempt log Ha Hf; [lia|].
  replace (Z.to_nat (3 - attempt)) with (S (Z.to_nat (3 - (attempt + 1)))) by lia.
  cbn [whileLoop]. unfold MAX_RETRIES.
  destruct (Z.ltb_spec attempt 3) as [_|]; [|lia].
  unfold bind. rewrite turn_spec.
  destruct (attemptResult classifier JSON_parse (callCount log) data)
    as [result|error]; [reflexivity|].
  destruct (isOverloaded error) as [o|]; [|reflexivity].
  unfold MAX_RETRIES.
  destruct (o && (attempt <? 3 - 1)) eqn:Hretry; [|reflexivity].
  apply andb_true_iff in Hretry. destruct Hretry as [_ Hlt].
  apply Z.ltb_lt in Hlt. apply IH; lia.
Qed.

(** With errors the overload test can read, the loop returns. *)
Lemma whileLoop_returns data fuel attempt log :
  readableErrors classifier JSON_parse data ->
  0 <= attempt < MAX_RETRIES ->
  (Z.to_nat (MAX_RETRIES - attempt) <= fuel)%nat ->
  exists result log',
    whileLoop classifier JSON_parse fuel data attempt log
      = (Returns (Some result), log') /\
    ((exists k, attemptResult classifier JSON_parse k data = inl result) \/
     (exists k error o,
        attemptResult classifier JSON_parse k data = inr error /\
        isOverloaded error = Some o /\
        result = WellTyped (syntheticResult o))).
Proof.
  intros Hread Ha Hf.
  destruct (whileLoop_spec data fuel attempt log Ha Hf)
    as (outcome & log' & n & Hrun & _ &
        [(k & result & Hk & ->) | [(k & error & o & Hk & Ho & ->)
                                  | (k & error & Hk & Ho & _)]]).
  - exists result, log'. split; [exact Hrun|]. left. now exists k.
  - exists (WellTyped (syntheticResult o)), log'. split; [exact Hrun|].
    right. now exists k, error, o.
  - exfalso. exact (Hread k error Hk Ho).
Qed.

End ClientLemmas.

Section ClientClaims.
Import Types JsString GeminiService Reference Samples.
Local Open Scope string_scope.
Local Open Scope Z_scope.

(** A reply that parses to a value that is no [AnalysisResult] (here the
    empty array) is returned as it is; and a thrown value whose message is
    a number makes the [catch] block, and with it [analyzeFrame], raise a
    [TypeError]. *)
Lemma unchecked_reply_and_raise :
  analyzeFrame (fun _ _ => Resolves (Some "[]")) parseSample
    "data:image/jpeg;base64,AAAA" []
    = (Returns (Some (IllTyped "[]")), [GenerateContent "AAAA"]) /\
  (forall result, IllTyped "[]" <> WellTyped result) /\
  analyzeFrame (fun _ _ => Rejects numericMessage) parseSample
    "data:image/jpeg;base64,AAAA" []
    = (Throws TypeError, [GenerateContent "AAAA"]).
Proof. repeat split. discriminate. Qed.

(** C6, amended. When no attempt ends in a thrown value on whose message
    [includes] cannot be called: whatever the image string, however each
    call of the classifier settles and whatever was logged before,
    [analyzeFrame] returns and does not throw, and no bound on the loop
    larger than [MAX_RETRIES] changes what it returns. It returns the
    value [JSON.parse] gave for the reply of one of the calls, unchecked;
    or, when a call ended in an error (a rejection, an empty reply or a
    reply that does not parse), the synthetic result for that error:
    status IDLE, confidence 0 and as its reason "Server busy, retrying..."
    for an overload error and "Analysis failed" for any other. *)
Theorem analyzeFrame_never_raises
    (classifier : nat -> string -> Outcome)
    (JSON_parse : string -> JsValue + string)
    (base64Image : string) (log : list Event) :
  readableErrors classifier JSON_parse (cleanBase64 base64Image) ->
  exists result log',
    analyzeFrame classifier JSON_parse base64Image log
      = (Returns (Some result), log') /\
    (forall fuel, (Z.to_nat MAX_RETRIES <= fuel)%nat ->
       analyzeFrameFuel classifier JSON_parse fuel base64Image log
         = (Returns (Some result), log')) /\
    ((exists k, attemptResult classifier JSON_parse k (cleanBase64 base64Image)
                = inl result) \/
     (exists k error synthetic,
        attemptResult classifier JSON_parse k (cleanBase64 base64Image)
          = inr error /\
        result = WellTyped synthetic /\
        status synthetic = IDLE /\
        confidence synthetic = 0%float /\
        ((isOverloaded error = Some true /\
          reason synthetic = "Server busy, retrying...") \/
         (isOverloaded error = Some false /\
          reason synthetic = "Analysis failed")))).
Proof.
  intros Hread.
  unfold analyzeFrame, analyzeFrameFuel.
  destruct (whileLoop_returns classifier JSON_parse (cleanBase64 base64Image)
              (Z.to_nat MAX_RETRIES) 0 log Hread)
    as (result & log' & Hrun & Hshape);
    [unfold MAX_RETRIES; lia | unfold MAX_RETRIES; lia |].
  exists result, log'. split; [exact Hrun|]. split.
  - intros fuel Hfuel.
    rewrite (whileLoop_fuel classifier JSON_parse _ fuel 0 log);
      [exact Hrun | unfold MAX_RETRIES; lia | unfold MAX_RETRIES in *; lia].
  - destruct Hshape as [Hok | (k & error & o & Hk & Ho & Hres)]; [now left|].
    right. exists k, error, (syntheticResult o).
    split; [exact Hk|]. split; [exact Hres|].
    split; [reflexivity|]. split; [reflexivity|].
    destruct o; [left | right]; split; try exact Ho; reflexivity.
Qed.

Lemma analyzeFrame_never_raises_witness :
  readableErrors overloadedThenReply parseSample
    (cleanBase64 "data:image/jpeg;base64,AAAA") /\
  exists result log',
    analyzeFrame overloadedThenReply parseSample "data:image/jpeg;base64,AAAA" []
      = (Returns (Some result), log') /\
    (forall fuel, (Z.to_nat MAX_RETRIES <= fuel)%nat ->
       analyzeFrameFuel overloadedThenReply parseSample fuel
         "data:image/jpeg;base64,AAAA" []
         = (Returns (Some result), log')) /\
    ((exists k, attemptResult overloadedThenReply parseSample k
                  (cleanBase64 "data:image/jpeg;base64,AAAA")
                = inl result) \/
     (exists k error synthetic,
        attemptResult overloadedThenReply parseSample k
          (cleanBase64 "data:image/jpeg;base64,AAAA")
          = inr error /\
        result = WellTyped synthetic /\
        status synthetic = IDLE /\
        confidence synthetic = 0%float /\
        ((isOverloaded error = Some true /\
          reason synthetic = "Server busy, retrying...") \/
         (isOverloaded error = Some false /\
          reason synthetic = "Analysis failed")))).
Proof.
  assert (H : readableErrors overloadedThenReply parseSample
                (cleanBase64 "data:image/jpeg;base64,AAAA")).
  { intros k error Hk. destruct k as [|k]; cbv in Hk.
    - injection Hk as <-. discriminate.
    - discriminate Hk. }
  split; [exact H|].
  exact (analyzeFrame_never_raises overloadedThenReply parseSample
           "data:image/jpeg;base64,AAAA" [] H).
Defined.

(** The scenario of the specification: a reply wrapped in a fence is
    parsed like the bare reply. *)
Example fenced_reply_parsed_alike :
  cleanText "```json{status:STUDYING}```" = "{status:STUDYING}" /\
  cleanText "  ```{status:STUDYING}```  " = "{status:STUDYING}" /\
  fst (analyzeFrame (fun _ _ => Resolves (Some "```json{status:STUDYING}```"))
         parseSample "data:image/jpeg;base64,AAAA" [])
  = fst (analyzeFrame (fun _ _ => Resolves (Some "{status:STUDYING}"))
           parseSample "data:image/jpeg;base64,AAAA" []).
Proof. repeat split; reflexivity. Qed.

(** Wherever the loop stands, a call whose error is not an overload ends
    the client at once: that one call, no delay, the "Analysis failed"
    result. *)
Lemma other_error_no_retry
    (classifier : nat -> string -> Outcome)
    (JSON_parse : string -> JsValue + string)
    (data : string) (fuel : nat) (attempt : Z) (log : list Event)
    (error : JsError) :
  attempt < MAX_RETRIES ->
  attemptResult classifier JSON_parse (callCount log) data = inr error ->
  isOverloaded error = Some false ->
  whileLoop classifier JSON_parse (S fuel) data attempt log =
    (Returns (Some (WellTyped (fallback "Analysis failed"))),
     (log ++ [GenerateContent data; ConsoleError error])%list).
Proof.
  intros Ha Hk Hov. cbn [whileLoop].
  destruct (Z.ltb_spec attempt MAX_RETRIES) as [_|]; [|lia].
  unfold bind. rewrite turn_spec, Hk, Hov. reflexivity.
Qed.





End ClientClaims.

Section DataUri.
Import Types JsString GeminiService Reference Samples.
Local Open Scope string_scope.

Lemma dropPrefix_app p q : forall s,
  dropPrefix (p ++ q) s =
  match dropPrefix p s with
  | Some rest => dropPrefix q rest
  | None => None
  end.
Proof.
  induction p as [|a p IH]; intros s; [reflexivity|].
  simpl. destruct s as [|b s]; [reflexivity|].
  destruct (Ascii.eqb a b); [apply IH | reflexivity].
Qed.

Lemma dropPrefix_append p : forall rest, dropPrefix p (p ++ rest) = Some rest.
Proof.
  induction p as [|a p IH]; intros rest; [reflexivity|].
  simpl. now rewrite Ascii.eqb_refl.
Qed.

Lemma dropPrefix_Some p : forall s rest,
  dropPrefix p s = Some rest -> s = p ++ rest.
Proof.
  induction p as [|a p IH]; intros s rest H; simpl in *.
  - congruence.
  - destruct s as [|b s]; [discriminate|].
    destruct (Ascii.eqb_spec a b); [|discriminate].
    subst. f_equal. now apply IH.
Qed.

(** The regular expression, alternative by alternative. *)
Lemma cleanBase64_cases img :
  cleanBase64 img =
  match dropPrefix "data:image/png;base64," img with
  | Some rest => rest
  | None =>
      match dropPrefix "data:image/jpeg;base64," img with
      | Some rest => rest
      | None =>
          match dropPrefix "data:image/jpg;base64," img with
          | Some rest => rest
          | None => img
          end
      end
  end.
Proof.
  unfold cleanBase64, replaceAtStart, dataUriPrefix.
  change "data:image/png;base64," with ("data:image/" ++ "png" ++ ";base64,").
  change "data:image/jpeg;base64," with ("data:image/" ++ "jpeg" ++ ";base64,").
  change "data:image/jpg;base64," with ("data:image/" ++ "jpg" ++ ";base64,").
  rewrite !dropPrefix_app. cbn [matchAt].
  destruct (dropPrefix "data:image/" img) as [s1|]; [|reflexivity].
  rewrite !dropPrefix_app.
  destruct (dropPrefix "png" s1) as [s2|] eqn:Hpng.
  - destruct (dropPrefix ";base64," s2) as [s3|] eqn:H3; [reflexivity|].
    destruct (dropPrefix "jpeg" s1) as [s4|] eqn:H4.
    + apply dropPrefix_Some in H4. subst s1. discriminate Hpng.
    + destruct (dropPrefix "jpg" s1) as [s5|] eqn:H5; [|reflexivity].
      apply dropPrefix_Some in H5. subst s1. discriminate Hpng.
  - destruct (dropPrefix "jpeg" s1) as [s4|];
      [destruct (dropPrefix ";base64," s4); [reflexivity|]|];
      (destruct (dropPrefix "jpg" s1) as [s5|];
       [destruct (dropPrefix ";base64," s5)|]; reflexivity).
Qed.

(** The claim as written fails on a data URI of another image type: the
    client sends the whole string, prefix included. *)
Lemma data_uri_webp_not_stripped :
  let img := "data:image/webp;base64,AAAA" in
  callsOf (snd (analyzeFrame alwaysBadRequest parseSample img [])) = [img] /\
  startsWith "data:image/webp;base64," img = true /\
  cleanBase64 img <> "AAAA".
Proof. repeat split. discriminate. Qed.

(** C9, amended. An image string that starts with one of the prefixes
    "data:image/png;base64,", "data:image/jpeg;base64," or
    "data:image/jpg;base64," is sent to the classifier without that
    prefix: every call of the client carries exactly the rest of the
    string, and there is at least one call. A string that starts with none
    of the three (another image type, or no data URI) is sent as it is. *)
Theorem data_uri_prefix_stripped
    (classifier : nat -> string -> Outcome)
    (JSON_parse : string -> JsValue + string)
    (mime rest : string) :
  mime = "png" \/ mime = "jpeg" \/ mime = "jpg" ->
  let img := "data:image/" ++ mime ++ ";base64," ++ rest in
  cleanBase64 img = rest /\
  (exists n,
     callsOf (snd (analyzeFrame classifier JSON_parse img []))
       = repeat rest (S n)) /\
  (forall other,
     startsWith "data:image/png;base64," other = false ->
     startsWith "data:image/jpeg;base64," other = false ->
     startsWith "data:image/jpg;base64," other = false ->
     cleanBase64 other = other).
Proof.
  intros Hmime img.
  assert (Hclean : cleanBase64 img = rest).
  { subst img. rewrite cleanBase64_cases.
    destruct Hmime as [-> | [-> | ->]].
    - change ("data:image/" ++ "png" ++ ";base64," ++ rest)
        with ("data:image/png;base64," ++ rest).
      now rewrite dropPrefix_append.
    - change ("data:image/" ++ "jpeg" ++ ";base64," ++ rest)
        with ("data:image/jpeg;base64," ++ rest).
      rewrite dropPrefix_append. reflexivity.
    - change ("data:image/" ++ "jpg" ++ ";base64," ++ rest)
        with ("data:image/jpg;base64," ++ rest).
      rewrite dropPrefix_append. reflexivity. }
  split; [exact Hclean|]. split.
  - unfold analyzeFrame, analyzeFrameFuel. rewrite Hclean.
    destruct (whileLoop_spec classifier JSON_parse rest
                (Z.to_nat MAX_RETRIES) 0%Z [])
      as (outcome & log' & n & Hrun & Hcalls & _);
      [unfold MAX_RETRIES; lia | unfold MAX_RETRIES; lia |].
    exists n. rewrite Hrun. exact Hcalls.
  - intros other H1 H2 H3. rewrite cleanBase64_cases.
    unfold startsWith in H1, H2, H3.
    destruct (dropPrefix "data:image/png;base64," other); [discriminate|].
    destruct (dropPrefix "data:image/jpeg;base64," other); [discriminate|].
    destruct (dropPrefix "data:image/jpg;base64," other); [discriminate|].
    reflexivity.
Qed.

Lemma data_uri_prefix_stripped_witness :
  ("jpeg" = "png" \/ "jpeg" = "jpeg" \/ "jpeg" = "jpg") /\
  let img := "data:image/" ++ "jpeg" ++ ";base64," ++ "AAAA" in
  cleanBase64 img = "AAAA" /\
  (exists n,
     callsOf (snd (analyzeFrame alwaysOverloaded parseSample img []))
       = repeat "AAAA" (S n)) /\
  (forall other,
     startsWith "data:image/png;base64," other = false ->
     startsWith "data:image/jpeg;base64," other = false ->
     startsWith "data:image/jpg;base64," other = false ->
     cleanBase64 other = other).
Proof.
  split.
  - right. left. reflexivity.
  - apply (data_uri_prefix_stripped alwaysOverloaded parseSample "jpeg" "AAAA").
    right. left. reflexivity.
Defined.

End DataUri.

(** ** The sampler *)

Section Sampler.
Import Types WebcamMonitor Reference.
Local Open Scope string_scope.
Local Open Scope Z_scope.

Lemma run_snoc evs ev st :
  run (evs ++ [ev]) st = fst (step ev (run evs st)).
Proof. unfold run. now rewrite fold_left_app. Qed.

Lemma guarded_initial : guarded initial.
Proof. left. split; reflexivity. Qed.

(** While a call is in flight a capture attempt stops at its first test. *)
Lemma captureAndAnalyze_in_flight frame st :
  isProcessingRef st = true -> captureAndAnalyze frame st = (st, []).
Proof.
  intros H. unfold captureAndAnalyze. rewrite H.
  now rewrite !orb_true_r.
Qed.

(** A capture attempt on a guarded instance keeps it guarded, and starts
    a call only when none is in flight. *)
Lemma captureAndAnalyze_guarded frame st :
  guarded st ->
  guarded (fst (captureAndAnalyze frame st)) /\
  (startsCall (snd (captureAndAnalyze frame st)) = true -> inFlight st = []).
Proof.
  intros [[Href Hfl] | [Href (f & Hfl)]].
  - split; [|auto].
    unfold captureAndAnalyze. rewrite Href.
    destruct (negb (videoRef st) || negb (canvasRef st) || false);
      [left; now split|].
    destruct ((readyState st <? 2) || (videoWidth st =? 0));
      [left; now split|].
    cbn [setProcessing hasContext].
    destruct (hasContext st); [|left; now split].
    destruct frame as [img|]; [|left; now split].
    right. split; [reflexivity|]. exists img.
    cbn [fst setInFlight setProcessing inFlight]. now rewrite Hfl.
  - rewrite (captureAndAnalyze_in_flight frame st Href). split.
    + right. split; [exact Href | now exists f].
    + discriminate.
Qed.

Lemma step_guarded ev st :
  guarded st ->
  guarded (fst (step ev st)) /\
  (startsCall (snd (step ev st)) = true -> inFlight st = []).
Proof.
  intros G. destruct ev as [frame|frame|result|error|m e|v c r w h]; cbn [step].
  - destruct (isMonitoring st && negb (streamError st)).
    + now apply captureAndAnalyze_guarded.
    + split; [exact G | discriminate].
  - unfold triggerAnalysis.
    destruct (isMonitoring st && negb (isProcessingRef st)).
    + destruct (captureAndAnalyze_guarded frame st G) as [G' S'].
      destruct (captureAndAnalyze frame st) as [st' acts].
      split; [exact G' | exact S'].
    + split; [exact G | discriminate].
  - split; [|unfold resume; destruct (inFlight st); discriminate].
    unfold resume.
    destruct G as [[Href Hfl] | [Href (f & Hfl)]]; rewrite Hfl.
    + left. now split.
    + left. split; reflexivity.
  - split; [|unfold resumeRejected; destruct (inFlight st); discriminate].
    unfold resumeRejected.
    destruct G as [[Href Hfl] | [Href (f & Hfl)]]; rewrite Hfl.
    + left. now split.
    + left. split; reflexivity.
  - split; [|discriminate]. exact G.
  - split; [|discriminate]. exact G.
Qed.

Lemma run_guarded evs : guarded (run evs initial).
Proof.
  induction evs as [|ev evs IH] using rev_ind.
  - exact guarded_initial.
  - rewrite run_snoc. now apply step_guarded.
Qed.

(** The claim as written fails when the picture-in-picture window is
    opened while a call is in flight: the monitor is mounted anew, the new
    instance has its own guard, and its first timer callback starts a
    second call while the first has not settled. *)
Lemma two_calls_in_flight_after_remount :
  let first := "data:image/jpeg;base64,AAAA" in
  let second := "data:image/jpeg;base64,BBBB" in
  let before :=
    Mounting.run
      [Mounting.OnMounted (Render true false);
       Mounting.OnMounted (Video true true 4 640 true);
       Mounting.OnMounted (TimerFires (Some first));
       Mounting.SetPipWindow;
       Mounting.OnMounted (Video true true 4 640 true)]
      Mounting.initial in
  let after := Mounting.step (Mounting.OnMounted (TimerFires (Some second))) before in
  Mounting.inFlight before = [first] /\
  snd after = [AnalyzeFrame second] /\
  Mounting.inFlight (fst after) = [second; first].
Proof. repeat split. Qed.

(** C5, amended. In every state one mounted instance of the monitor (whose
    ref [isProcessingRef] is the guard) reaches from its initial state, by
    any sequence of timer callbacks, manual triggers, settled calls,
    renders and camera changes: at most one [analyzeFrame] call of that
    instance is in flight; the next callback starts a call only if none is
    in flight; while one is in flight, a timer callback and a manual
    trigger both leave the state as it is and do nothing (no call, no
    log); and a manual trigger while monitoring is off does the same. *)
Theorem at_most_one_in_flight (evs : list Event) (ev : Event) :
  let st := run evs initial in
  (List.length (inFlight st) <= 1)%nat /\
  (List.length (inFlight (fst (step ev st))) <= 1)%nat /\
  (startsCall (snd (step ev st)) = true -> inFlight st = []) /\
  (inFlight st <> [] ->
     forall frame,
       step (TimerFires frame) st = (st, []) /\
       step (TriggerAnalysis frame) st = (st, [])) /\
  (isMonitoring st = false ->
     forall frame, step (TriggerAnalysis frame) st = (st, [])).
Proof.
  intros st.
  pose proof (run_guarded evs) as G. fold st in G.
  destruct (step_guarded ev st G) as [G' Hstart].
  assert (Hlen : forall s, guarded s -> (List.length (inFlight s) <= 1)%nat).
  { intros s [[_ ->] | [_ (f & ->)]]; simpl; lia. }
  repeat split; auto.
  - destruct G as [[_ Hfl] | [Href _]]; [contradiction|].
    cbn [step]. rewrite (captureAndAnalyze_in_flight frame st Href).
    now destruct (isMonitoring st && negb (streamError st)).
  - destruct G as [[_ Hfl] | [Href _]]; [contradiction|].
    cbn [step]. unfold triggerAnalysis. rewrite Href.
    now rewrite andb_false_r.
  - intros Hoff frame. cbn [step]. unfold triggerAnalysis. now rewrite Hoff.
Qed.

(** A manual trigger issued while a capture is in flight: the call started
    by the timer is still the only one. *)
Example manual_trigger_while_in_flight :
  let ready := [Render true false; Video true true 4 640 true] in
  let st := run (ready ++ [TimerFires (Some "data:image/jpeg;base64,AAAA")]) initial in
  inFlight st = ["data:image/jpeg;base64,AAAA"] /\
  step (TriggerAnalysis (Some "data:image/jpeg;base64,BBBB")) st = (st, []).
Proof. split; reflexivity. Qed.

End Sampler.

(** ** The application component over whole runs *)

Section SessionMachine.
Import Types App Reference Session.

(** What [handleStatusChange] never touches. *)
Lemma handleStatusChange_frame s r st :
  let st' := handleStatusChange s r st in
  isMonitoring st' = isMonitoring st /\
  isMonitoringRef st' = isMonitoringRef st /\
  sessions st' = sessions st /\
  startTime st' = startTime st /\
  elapsedTime st' = elapsedTime st /\
  sensitivity st' = sensitivity st /\
  musicVolume st' = musicVolume st.
Proof.
  cbv zeta. destruct (isMonitoringRef st) eqn:Hr.
  - unfold handleStatusChange. rewrite Hr. cbn [negb].
    destruct (isBad (status r)).
    + match goal with |- context [if ?c then _ else _] => destruct c end;
        repeat split; assumption.
    + repeat split; assumption.
  - rewrite (handleStatusChange_inactive s r st Hr). repeat split; assumption.
Qed.

Lemma run_snoc_session evs ev st :
  Session.run (evs ++ [ev]) st = Session.step ev (Session.run evs st).
Proof. unfold Session.run. now rewrite fold_left_app. Qed.

Lemma recordStats_sound s c :
  0 <= studying c -> 0 <= distracted c -> 0 <= absent c ->
  studying c + distracted c + absent c <= total c ->
  let c' := recordStats s c in
  0 <= studying c' /\ 0 <= distracted c' /\ 0 <= absent c' /\
  studying c' + distracted c' + absent c' <= total c' /\
  total c' = total c + 1.
Proof.
  intros H1 H2 H3 H4 c'. subst c'.
  destruct s; cbn [recordStats studying distracted absent total];
    repeat split; lia.
Qed.

Lemma step_consistent ev st : consistent st -> consistent (Session.step ev st).
Proof.
  intros C. pose proof C as (Href & Hidle & Hmon & Hc & Hs & Hd & Ha & Hsum).
  destruct ev as [now nowId nowStart | s r | now | n | v]; cbn [Session.step].
  - unfold consistent, toggleMonitoring. destruct (isMonitoring st);
      cbn [isMonitoring isMonitoringRef currentResult startTime elapsedTime
           statsRef consecutiveBadChecksRef zeroStats
           studying distracted absent total];
      repeat split; try lia; try discriminate.
  - destruct (handleStatusChange_frame s r st)
      as (Fm & Fr & _ & Ft & Fe & _).
    case_eq (isMonitoringRef st); intros Hr.
    + assert (Hm : isMonitoring st = true) by congruence.
      destruct (handleStatusChange_active s r st Hr) as (_ & Hst & Hcnt & _).
      destruct (recordStats_sound (status r) (statsRef st) Hs Hd Ha Hsum)
        as (Hs' & Hd' & Ha' & Hsum' & Htot).
      unfold consistent. rewrite Fm, Fr, Ft, Fe, Hst, Hcnt, Hm, Hr.
      rewrite Htot in *.
      repeat split; intros; try discriminate; try reflexivity; auto;
        destruct (isBad (status r)); lia.
    + rewrite (handleStatusChange_inactive s r st Hr). exact C.
  - unfold timerTick. destruct (startTime st) as [t|] eqn:Ht; [|exact C].
    destruct (isMonitoring st && negb (t =? 0)) eqn:Hb; [|exact C].
    apply andb_true_iff in Hb. destruct Hb as [Hm _].
    unfold consistent.
    cbn [setElapsedTime isMonitoring isMonitoringRef currentResult startTime
         elapsedTime statsRef consecutiveBadChecksRef].
    rewrite Hm in *.
    repeat split; intros; try discriminate; auto; try congruence; lia.
  - destruct (isMonitoring st); exact C.
  - exact C.
Qed.

Lemma run_consistent (evs : list Session.Event) :
  consistent (Session.run evs initial).
Proof.
  induction evs as [|ev evs IH] using rev_ind.
  - unfold consistent. cbn. repeat split; try lia; try discriminate.
  - rewrite run_snoc_session. now apply step_consistent.
Qed.

(** X1. Whatever happens to the component from its initial state (starts
    and stops, results delivered at any moment and with any captured
    threshold, timer ticks, slider moves): the ref [isMonitoringRef] agrees
    with the state [isMonitoring]; while not monitoring the displayed
    result is the idle one, the counter of bad checks is 0, there is no
    start time and the elapsed time is 0; while monitoring there is a start
    time; and the counters are never negative, with the three buckets
    summing to at most [total] and the bad-check counter at most [total]. *)
Theorem session_state_consistent (evs : list Session.Event) :
  consistent (Session.run evs initial).
Proof.
  induction evs as [|ev evs IH] using rev_ind.
  - unfold consistent. cbn. repeat split; try lia; try discriminate.
  - rewrite run_snoc_session. now apply step_consistent.
Qed.

Lemma step_sessions ev st :
  sessions (Session.step ev st) = sessions st \/
  exists now nowId nowStart session,
    ev = ToggleMonitoring now nowId nowStart /\ isMonitoring st = true /\
    sessions (Session.step ev st) = session :: sessions st /\
    focusScore session = computeFocusScore (statsRef st) /\
    statusCounts session = statsRef st.
Proof.
  destruct ev as [now nowId nowStart | s r | now | n | v]; cbn [Session.step].
  - destruct (isMonitoring st) eqn:Hm.
    + right. exists now, nowId, nowStart.
      destruct (toggleMonitoring_stop now nowId nowStart st Hm)
        as (_ & _ & _ & _ & _ & session & H1 & H2 & H3).
      exists session. auto.
    + left. unfold toggleMonitoring. now rewrite Hm.
  - left. now destruct (handleStatusChange_frame s r st) as (_ & _ & H & _).
  - left. unfold timerTick. destruct (startTime st); [|reflexivity].
    now destruct (isMonitoring st && negb (z =? 0)).
  - left. now destruct (isMonitoring st).
  - left. reflexivity.
Qed.

(** X2. Every record of the history, in every state the component reaches
    from its initial state, carries the score computed from its own
    counters, and those counters are non-negative with the three buckets
    summing to at most the total (so STUDYING checks never exceed the
    checks). *)
Theorem history_records_sound (evs : list Session.Event) :
  Forall recordOk (sessions (Session.run evs initial)).
Proof.
  induction evs as [|ev evs IH] using rev_ind.
  - constructor.
  - rewrite run_snoc_session.
    pose proof (run_consistent evs) as C.
    destruct (step_sessions ev (Session.run evs initial))
      as [Hsame | (now & nowId & nowStart & session & _ & _ & Hs & Hf & Hc)].
    + now rewrite Hsame.
    + rewrite Hs. constructor; [|exact IH].
      destruct C as (_ & _ & _ & _ & H1 & H2 & H3 & H4).
      unfold recordOk. rewrite Hf, Hc. repeat split; assumption.
Qed.

(** X3. The history only grows at its head: after any sequence of events
    from any state, the earlier history is still there, unchanged and in
    the same order, behind one new record for each session that the
    sequence brought to an end. *)
Theorem history_append_only (evs : list Session.Event) (st : State) :
  exists newer,
    sessions (Session.run evs st) = newer ++ sessions st /\
    List.length newer = completed evs st.
Proof.
  revert st. induction evs as [|ev evs IH]; intros st.
  - exists []. split; reflexivity.
  - cbn [Session.run fold_left completed].
    destruct (IH (Session.step ev st)) as (newer & Hn & Hl).
    fold (Session.run evs (Session.step ev st)).
    destruct (step_sessions ev st)
      as [Hsame | (now & nowId & nowStart & session & Hev & Hm & Hs & _)].
    + exists newer. split; [now rewrite Hn, Hsame|].
      rewrite Hl. destruct ev; try reflexivity.
      destruct (isMonitoring st) eqn:Hm; [|reflexivity].
      destruct (toggleMonitoring_stop now nowId nowStart st Hm)
        as (_ & _ & _ & _ & _ & session & H1 & _).
      cbn [Session.step] in Hsame. rewrite H1 in Hsame.
      exfalso. clear - Hsame.
      assert (H : List.length (session :: sessions st) = List.length (sessions st))
        by now rewrite Hsame.
      simpl in H. lia.
    + exists (newer ++ [session]). split.
      * rewrite Hn, Hs, <- app_assoc. reflexivity.
      * rewrite length_app, Hl, Hev, Hm. simpl. lia.
Qed.

End SessionMachine.

Section SessionRuns.
Import Types App Reference Session Samples.

Lemma ingest_frame s rs : forall st,
  let st' := ingest s rs st in
  isMonitoring st' = isMonitoring st /\
  isMonitoringRef st' = isMonitoringRef st /\
  sessions st' = sessions st /\
  startTime st' = startTime st /\
  musicVolume st' = musicVolume st.
Proof.
  induction rs as [|r rs IH]; intros st; [repeat split|].
  cbv zeta. unfold ingest. cbn [fold_left]. fold (ingest s rs (handleStatusChange s r st)).
  destruct (IH (handleStatusChange s r st)) as (H1 & H2 & H3 & H4 & H5).
  destruct (handleStatusChange_frame s r st) as (F1 & F2 & F3 & F4 & _ & _ & F7).
  repeat split; congruence.
Qed.

(** X4. A whole session: starting at a time [start] other than 0 from a
    state that is not monitoring, ingesting the raw results [rs] and
    stopping at time [stop] puts exactly one new record at the head of the
    history, in front of the earlier records. The record has the start
    and stop times, the duration [floor ((stop - start) / 1000)] in
    seconds, and as counters the numbers of STUDYING, DISTRACTED and ABSENT
    results of [rs] and the length of [rs]; its score is the score of those
    counters; and monitoring is off again. *)
Theorem session_record
    (s start startId startAlt stop stopId stopAlt : Z) (idle : State)
    (rs : list AnalysisResult) :
  isMonitoring idle = false ->
  start <> 0 ->
  let st := toggleMonitoring stop stopId stopAlt
              (ingest s rs (toggleMonitoring start startId startAlt idle)) in
  isMonitoring st = false /\ isMonitoringRef st = false /\
  exists session,
    sessions st = session :: sessions idle /\
    Types.startTime session = start /\
    endTime session = stop /\
    id session = stopId /\
    duration session = (stop - start) / 1000 /\
    1000 * duration session <= stop - start < 1000 * duration session + 1000 /\
    statusCounts session =
      mkStatusCounts (countStatus STUDYING rs) (countStatus DISTRACTED rs)
                     (countStatus ABSENT rs) (Z.of_nat (List.length rs)) /\
    focusScore session = computeFocusScore (statusCounts session).
Proof.
  intros Hidle Hstart st.
  destruct (toggleMonitoring_start start startId startAlt idle Hidle)
    as (Hr & Hm & Hs & Hc & _).
  set (st0 := toggleMonitoring start startId startAlt idle) in *.
  assert (Hsess0 : sessions st0 = sessions idle /\ startTime st0 = Some start).
  { subst st0. unfold toggleMonitoring. rewrite Hidle. split; reflexivity. }
  destruct Hsess0 as [Hsess0 Htime0].
  destruct (ingest_frame s rs st0) as (Fm & Fr & Fs & Ft & _).
  destruct (ingest_active s rs st0 Hr Hc Hs) as (_ & _ & Ht & Hst & Hd & Ha).
  set (st1 := ingest s rs st0) in *.
  assert (Hstats : statsRef st1 =
            mkStatusCounts (countStatus STUDYING rs) (countStatus DISTRACTED rs)
                           (countStatus ABSENT rs) (Z.of_nat (List.length rs))).
  { destruct (statsRef st1) as [a b c d]. cbn in Ht, Hst, Hd, Ha. congruence. }
  subst st. unfold toggleMonitoring. rewrite Fm, Hm.
  cbn [isMonitoring isMonitoringRef sessions].
  split; [reflexivity|]. split; [reflexivity|].
  eexists. split; [rewrite Fs, Hsess0; reflexivity|].
  rewrite Ft, Htime0.
  destruct (Z.eqb_spec start 0) as [|_]; [contradiction|].
  cbn [Types.startTime endTime id duration statusCounts focusScore].
  rewrite Hstats.
  repeat split; try reflexivity.
  - pose proof (Z.mul_div_le (stop - start) 1000). lia.
  - pose proof (Z.mul_succ_div_gt (stop - start) 1000). lia.
Qed.

Lemma session_record_witness :
  (isMonitoring initial = false /\ 1000 <> 0) /\
  let st := toggleMonitoring 9500 9500 9500
              (ingest 2 [studyingResult; distractedResult]
                 (toggleMonitoring 1000 1000 1000 initial)) in
  isMonitoring st = false /\ isMonitoringRef st = false /\
  exists session,
    sessions st = session :: sessions initial /\
    Types.startTime session = 1000 /\
    endTime session = 9500 /\
    id session = 9500 /\
    duration session = (9500 - 1000) / 1000 /\
    1000 * duration session <= 9500 - 1000 < 1000 * duration session + 1000 /\
    statusCounts session =
      mkStatusCounts (countStatus STUDYING [studyingResult; distractedResult])
                     (countStatus DISTRACTED [studyingResult; distractedResult])
                     (countStatus ABSENT [studyingResult; distractedResult])
                     (Z.of_nat (List.length [studyingResult; distractedResult])) /\
    focusScore session = computeFocusScore (statusCounts session).
Proof.
  split.
  - split; [reflexivity | lia].
  - apply (session_record 2 1000 1000 1000 9500 9500 9500 initial
             [studyingResult; distractedResult]); [reflexivity | lia].
Defined.

End SessionRuns.

(** ** From the raw stream to what the user sees and hears *)

Section Presentation.
Import Types App Reference Session Samples.
Import StatusOverlay.

Lemma overlay_warning_iff_bad (result : AnalysisResult) :
  isWarning (StatusOverlay result) = isBad (status result).
Proof. unfold StatusOverlay. destruct (status result); reflexivity. Qed.

(** The displayed result in a session with threshold at least 1 that began
    with a displayed status other than DISTRACTED/ABSENT. *)
Lemma displayed_bad_iff s rs : forall st,
  1 <= s ->
  isMonitoringRef st = true ->
  consecutiveBadChecksRef st = 0 ->
  statsRef st = zeroStats ->
  isBad (status (currentResult st)) = false ->
  let st' := ingest s rs st in
  (isBad (status (currentResult st')) = true <-> s <= consecutiveBad rs) /\
  (s <= consecutiveBad rs -> Some (currentResult st') = last (map Some rs) None).
Proof.
  induction rs as [|r rs IH] using rev_ind; intros st Hs Hm Hc Hz Hd.
  - cbv zeta. cbn [ingest fold_left]. change (consecutiveBad []) with 0.
    split; [split; [congruence | lia] | lia].
  - cbv zeta. rewrite ingest_snoc, consecutiveBad_snoc.
    destruct (IH st Hs Hm Hc Hz Hd) as (Hiff & _).
    destruct (ingest_active s rs st Hm Hc Hz) as (Hm' & Hc' & _).
    destruct (handleStatusChange_active s r (ingest s rs st) Hm')
      as (_ & _ & _ & Hr).
    rewrite Hr, Hc'. rewrite map_app. cbn [map]. rewrite last_last.
    pose proof (consecutiveBad_nonneg rs) as Hnn.
    destruct (isBad (status r)) eqn:Hbad.
    + destruct (Z.leb_spec s (consecutiveBad rs + 1)) as [Hle|Hlt].
      * split; [split; [lia | now intros _] | reflexivity].
      * split; [|lia]. rewrite Hiff. lia.
    + split; [split; [congruence | lia] | lia].
Qed.

(** X5. In a session with threshold [s] of at least 1, started from any
    state the component reaches while not monitoring, and after any run
    [rs] of ingested results: the displayed status is DISTRACTED or ABSENT
    exactly when the last [s] results (at least) were all DISTRACTED/ABSENT,
    and then the displayed result is the latest raw result; the warning
    card is shown exactly in that case; and the target volume is the base
    volume times 0.2 in that case and the base volume otherwise. *)
Theorem warning_iff_threshold
    (s start startId startAlt : Z) (evs : list Session.Event)
    (rs : list AnalysisResult) :
  1 <= s ->
  isMonitoring (Session.run evs initial) = false ->
  let idle := Session.run evs initial in
  let st := ingest s rs (toggleMonitoring start startId startAlt idle) in
  (isBad (status (currentResult st)) = true <-> s <= consecutiveBad rs) /\
  (s <= consecutiveBad rs -> Some (currentResult st) = last (map Some rs) None) /\
  (isWarning (StatusOverlay (currentResult st)) = true <-> s <= consecutiveBad rs) /\
  getTargetVolume st =
    (if s <=? consecutiveBad rs
     then (musicVolume idle * 0.2)%float else musicVolume idle).
Proof.
  intros Hs Hidle idle st.
  destruct (run_consistent evs) as (_ & Hi & _).
  destruct (Hi Hidle) as (Hres & _).
  destruct (toggleMonitoring_start start startId startAlt idle Hidle)
    as (Hr & _ & Hz & Hc & Hcur).
  assert (Hd : isBad (status (currentResult
                 (toggleMonitoring start startId startAlt idle))) = false).
  { rewrite Hcur. fold idle in Hres. now rewrite Hres. }
  destruct (displayed_bad_iff s rs _ Hs Hr Hc Hz Hd) as (Hiff & Hlast).
  fold st in Hiff, Hlast.
  destruct (ingest_frame s rs (toggleMonitoring start startId startAlt idle))
    as (_ & _ & _ & _ & Hv).
  fold st in Hv.
  assert (Hv0 : musicVolume (toggleMonitoring start startId startAlt idle)
                = musicVolume idle).
  { unfold toggleMonitoring. fold idle in Hidle. now rewrite Hidle. }
  repeat split; try tauto.
  - rewrite overlay_warning_iff_bad. tauto.
  - rewrite overlay_warning_iff_bad. tauto.
  - unfold getTargetVolume. rewrite Hv, Hv0.
    destruct (Z.leb_spec s (consecutiveBad rs)) as [Hle|Hlt].
    + now rewrite (proj2 Hiff Hle).
    + destruct (isBad (status (currentResult st))); [|reflexivity].
      pose proof (proj1 Hiff eq_refl). lia.
Qed.

Lemma warning_iff_threshold_witness :
  (1 <= 2 /\ isMonitoring (Session.run [] initial) = false) /\
  let idle := Session.run [] initial in
  let rs := [studyingResult; distractedResult; absentResult] in
  let st := ingest 2 rs (toggleMonitoring 1000 1000 1000 idle) in
  (isBad (status (currentResult st)) = true <-> 2 <= consecutiveBad rs) /\
  (2 <= consecutiveBad rs -> Some (currentResult st) = last (map Some rs) None) /\
  (isWarning (StatusOverlay (currentResult st)) = true <-> 2 <= consecutiveBad rs) /\
  getTargetVolume st =
    (if 2 <=? consecutiveBad rs
     then (musicVolume idle * 0.2)%float else musicVolume idle).
Proof.
  split.
  - split; [lia | reflexivity].
  - apply (warning_iff_threshold 2 1000 1000 1000 []
             [studyingResult; distractedResult; absentResult]);
      [lia | reflexivity].
Defined.

(** X6. With the strictest threshold (1, or anything below), nothing is
    debounced: in an active session the displayed result after every
    ingestion is the raw result just ingested. *)
Theorem strict_threshold_shows_raw
    (s start startId startAlt : Z) (idle : State)
    (rs : list AnalysisResult) (r : AnalysisResult) :
  s <= 1 ->
  isMonitoring idle = false ->
  currentResult
    (ingest s (rs ++ [r]) (toggleMonitoring start startId startAlt idle)) = r.
Proof.
  intros Hs Hidle.
  destruct (toggleMonitoring_start start startId startAlt idle Hidle)
    as (Hr & _ & Hz & Hc & _).
  destruct (ingest_active s rs _ Hr Hc Hz) as (Hm' & Hc' & _).
  rewrite ingest_snoc.
  destruct (handleStatusChange_active s r _ Hm') as (_ & _ & _ & Hres).
  rewrite Hres, Hc'.
  pose proof (consecutiveBad_nonneg rs).
  destruct (isBad (status r)); [|reflexivity].
  destruct (Z.leb_spec s (consecutiveBad rs + 1)); [reflexivity | lia].
Qed.

Lemma strict_threshold_shows_raw_witness :
  (1 <= 1 /\ isMonitoring initial = false) /\
  currentResult
    (ingest 1 ([studyingResult] ++ [distractedResult])
       (toggleMonitoring 1000 1000 1000 initial)) = distractedResult.
Proof.
  split.
  - split; [lia | reflexivity].
  - apply (strict_threshold_shows_raw 1 1000 1000 1000 initial
             [studyingResult] distractedResult); [lia | reflexivity].
Defined.

End Presentation.

(** ** The classification client over all classifiers *)

Section ClientRuns.
Import Types JsString GeminiService Reference ClientNotions Samples.
Local Open Scope string_scope.
Local Open Scope Z_scope.

Variable classifier : nat -> string -> Outcome.
Variable JSON_parse : string -> JsValue + string.

Lemma callCount_app l1 l2 : callCount (l1 ++ l2) = (callCount l1 + callCount l2)%nat.
Proof. unfold callCount. now rewrite filter_app, length_app. Qed.

Lemma schedule_app l1 l2 : schedule (l1 ++ l2) = (schedule l1 ++ schedule l2)%list.
Proof. unfold schedule. apply filter_app. Qed.

(** A turn that ends in an overload error before the last attempt: the
    loop goes round again after logging the warning and the delay. *)
Lemma whileLoop_retry data fuel attempt log error :
  attempt < MAX_RETRIES - 1 ->
  attemptResult classifier JSON_parse (callCount log) data = inr error ->
  isOverloaded error = Some true ->
  whileLoop classifier JSON_parse (S fuel) data attempt log =
  whileLoop classifier JSON_parse fuel data (attempt + 1)
    (log ++ [GenerateContent data;
             ConsoleWarn (1000 * 2 ^ (attempt + 1 - 1)) (attempt + 1);
             Wait (1000 * 2 ^ (attempt + 1 - 1))])%list.
Proof.
  intros Ha Hk Hov. cbn [whileLoop].
  destruct (Z.ltb_spec attempt MAX_RETRIES) as [_|H]; [|unfold MAX_RETRIES in *; lia].
  unfold bind. rewrite turn_spec, Hk, Hov.
  destruct (Z.ltb_spec attempt (MAX_RETRIES - 1)) as [_|]; [|lia].
  reflexivity.
Qed.

(** A turn whose reply parses ends the loop with that value. *)
Lemma whileLoop_success data fuel attempt log result :
  attempt < MAX_RETRIES ->
  attemptResult classifier JSON_parse (callCount log) data = inl result ->
  whileLoop classifier JSON_parse (S fuel) data attempt log =
    (Returns (Some result), (log ++ [GenerateContent data])%list).
Proof.
  intros Ha Hk. cbn [whileLoop].
  destruct (Z.ltb_spec attempt MAX_RETRIES) as [_|]; [|lia].
  unfold bind. now rewrite turn_spec, Hk.
Qed.

(** The calls and the delays of a started loop, however it ends: a call,
    then as many times a sleep followed by a call as there are retries,
    and nothing after the last call. *)
Lemma whileLoop_trace data : forall fuel attempt log,
  0 <= attempt < MAX_RETRIES ->
  (Z.to_nat (MAX_RETRIES - attempt) <= fuel)%nat ->
  exists outcome log' n,
    whileLoop classifier JSON_parse fuel data attempt log = (outcome, log') /\
    outcome <> Returns None /\
    (Z.of_nat n <= MAX_RETRIES - 1 - attempt) /\
    schedule log' =
      (schedule log ++ GenerateContent data :: retriesFrom data attempt n)%list /\
    callsOf log' = (callsOf log ++ repeat data (S n))%list /\
    delaysOf log' = (delaysOf log ++ delaysFrom attempt n)%list.
Proof.
  unfold MAX_RETRIES.
  induction fuel as [|fuel IH]; intros attempt log Ha Hf; [lia|].
  destruct (attemptResult classifier JSON_parse (callCount log) data)
    as [result|error] eqn:Hk.
  - rewrite (whileLoop_success data fuel attempt log result);
      [|unfold MAX_RETRIES; lia | exact Hk].
    exists (Returns (Some result)), (log ++ [GenerateContent data])%list, 0%nat.
    rewrite schedule_app, callsOf_app, delaysOf_app.
    cbn [callsOf delaysOf flat_map app repeat delaysFrom retriesFrom].
    rewrite app_nil_r.
    repeat split; try reflexivity; try discriminate; lia.
  - destruct (isOverloaded error) as [o|] eqn:Hov.
    + destruct (o && (attempt <? 3 - 1)) eqn:Hretry.
      * apply andb_true_iff in Hretry. destruct Hretry as [Ho Hlt].
        subst o. apply Z.ltb_lt in Hlt.
        rewrite (whileLoop_retry data fuel attempt log error);
          [|unfold MAX_RETRIES; lia | exact Hk | exact Hov].
        destruct (IH (attempt + 1)
                    (log ++ [GenerateContent data;
                             ConsoleWarn (1000 * 2 ^ (attempt + 1 - 1)) (attempt + 1);
                             Wait (1000 * 2 ^ (attempt + 1 - 1))])%list)
          as (outcome & log' & n & Hrun & Hout & Hn & Hsched & Hcalls & Hdelays);
          [lia | lia |].
        exists outcome, log', (S n). split; [exact Hrun|].
        split; [exact Hout|]. split; [lia|]. split; [|split].
        -- rewrite Hsched, schedule_app.
           cbn [schedule filter isCallOrWait app retriesFrom].
           rewrite <- app_assoc. reflexivity.
        -- rewrite Hcalls, callsOf_app. cbn [callsOf flat_map app repeat].
           rewrite <- app_assoc. reflexivity.
        -- rewrite Hdelays, delaysOf_app. cbn [delaysOf flat_map app delaysFrom].
           rewrite <- app_assoc. reflexivity.
      * cbn [whileLoop]. unfold MAX_RETRIES.
        destruct (Z.ltb_spec attempt 3) as [_|]; [|lia].
        unfold bind. rewrite turn_spec, Hk, Hov. unfold MAX_RETRIES. rewrite Hretry.
        exists (Returns (Some (WellTyped (syntheticResult o)))),
               (log ++ [GenerateContent data; ConsoleError error])%list, 0%nat.
        rewrite schedule_app, callsOf_app, delaysOf_app.
        cbn [schedule filter isCallOrWait callsOf delaysOf flat_map app repeat
             delaysFrom retriesFrom].
        rewrite !app_nil_r.
        repeat split; try reflexivity; try discriminate; lia.
    + cbn [whileLoop]. unfold MAX_RETRIES.
      destruct (Z.ltb_spec attempt 3) as [_|]; [|lia].
      unfold bind. rewrite turn_spec, Hk, Hov.
      exists (Throws TypeError), (log ++ [GenerateContent data])%list, 0%nat.
      rewrite schedule_app, callsOf_app, delaysOf_app.
      cbn [schedule filter isCallOrWait callsOf delaysOf flat_map app repeat
           delaysFrom retriesFrom].
      rewrite !app_nil_r.
      repeat split; try reflexivity; try discriminate; lia.
Qed.

(** X7. Whatever the classifier does and however [analyzeFrame] ends, its
    calls and sleeps are, in this order: a call; then, for each retry, a
    sleep followed by a call, at most two of them, the first sleep of
    1000 ms and the second of 2000 ms. So it makes at least one and at
    most three calls, each carrying the cleaned image data, sleeps only
    between two calls and never after the last, and a frame costs at most
    3000 ms of waiting. *)
Theorem retry_budget (base64Image : string) :
  let data := cleanBase64 base64Image in
  exists outcome log n,
    analyzeFrame classifier JSON_parse base64Image [] = (outcome, log) /\
    outcome <> Returns None /\
    (n <= 2)%nat /\
    schedule log =
      firstn (1 + 2 * n)
        [GenerateContent data; Wait 1000; GenerateContent data;
         Wait 2000; GenerateContent data] /\
    callsOf log = repeat data (S n) /\
    delaysOf log = firstn n [1000; 2000] /\
    fold_right Z.add 0 (delaysOf log) <= 3000.
Proof.
  intros data. subst data.
  unfold analyzeFrame, analyzeFrameFuel.
  destruct (whileLoop_trace (cleanBase64 base64Image) (Z.to_nat MAX_RETRIES) 0 [])
    as (outcome & log & n & Hrun & Hout & Hn & Hsched & Hcalls & Hdelays);
    [unfold MAX_RETRIES; lia | unfold MAX_RETRIES; lia |].
  unfold MAX_RETRIES in Hn.
  exists outcome, log, n. split; [exact Hrun|]. split; [exact Hout|].
  split; [lia|]. rewrite Hsched, Hdelays. split; [|split; [exact Hcalls|]].
  - destruct n as [|[|[|n]]]; [reflexivity | reflexivity | reflexivity | lia].
  - cbn [delaysOf flat_map app].
    destruct n as [|[|[|n]]]; [| | |lia]; cbn; split; (reflexivity || lia).
Qed.

End ClientRuns.

Section ClientOutcomes.
Import Types JsString GeminiService Reference ClientNotions Samples.
Local Open Scope string_scope.
Local Open Scope Z_scope.

Variable classifier : nat -> string -> Outcome.
Variable JSON_parse : string -> JsValue + string.

(** [k] overload errors in a row take the loop [k] turns further. *)
Lemma whileLoop_after_overloads data : forall (k fuel : nat) attempt log,
  0 <= attempt -> attempt + Z.of_nat k <= MAX_RETRIES - 1 ->
  (forall j, (j < k)%nat ->
     exists error,
       attemptResult classifier JSON_parse (callCount log + j) data = inr error /\
       isOverloaded error = Some true) ->
  exists log',
    whileLoop classifier JSON_parse (k + fuel) data attempt log =
    whileLoop classifier JSON_parse fuel data (attempt + Z.of_nat k) log' /\
    callCount log' = (callCount log + k)%nat /\
    callsOf log' = (callsOf log ++ repeat data k)%list /\
    delaysOf log' = (delaysOf log ++ delaysFrom attempt k)%list.
Proof.
  induction k as [|k IH]; intros fuel attempt log Ha Hk Hov.
  - exists log. rewrite Z.add_0_r, Nat.add_0_r, !app_nil_r. repeat split.
  - destruct (Hov 0%nat) as (error & He & Ho); [lia|].
    rewrite Nat.add_0_r in He.
    cbn [Nat.add]. rewrite (whileLoop_retry classifier JSON_parse data
                              (k + fuel) attempt log error); [|lia | exact He | exact Ho].
    set (log1 := (log ++ [GenerateContent data;
                          ConsoleWarn (1000 * 2 ^ (attempt + 1 - 1)) (attempt + 1);
                          Wait (1000 * 2 ^ (attempt + 1 - 1))])%list).
    assert (Hc1 : callCount log1 = S (callCount log)).
    { subst log1. rewrite callCount_app. cbn. lia. }
    destruct (IH fuel (attempt + 1) log1) as (log' & Hrun & Hc & Hcalls & Hdelays);
      [lia | lia | |].
    { intros j Hj. destruct (Hov (S j)) as (e & H1 & H2); [lia|].
      exists e. split; [|exact H2]. rewrite Hc1.
      replace (S (callCount log) + j)%nat with (callCount log + S j)%nat by lia.
      exact H1. }
    exists log'. split; [|split; [|split]].
    + rewrite Hrun. f_equal. lia.
    + rewrite Hc, Hc1. lia.
    + rewrite Hcalls. subst log1. rewrite callsOf_app.
      cbn [callsOf flat_map app repeat]. now rewrite <- app_assoc.
    + rewrite Hdelays. subst log1. rewrite delaysOf_app.
      cbn [delaysOf flat_map app delaysFrom]. now rewrite <- app_assoc.
Qed.

(** The state of [analyzeFrame] when its first [k] attempts were overload
    errors and a further attempt is due. *)
Lemma analyzeFrame_after_overloads (base64Image : string) (k : nat) :
  (k <= 2)%nat ->
  overloadedBefore classifier JSON_parse (cleanBase64 base64Image) k ->
  exists log fuel,
    analyzeFrame classifier JSON_parse base64Image [] =
    whileLoop classifier JSON_parse (S fuel) (cleanBase64 base64Image)
      (Z.of_nat k) log /\
    callCount log = k /\
    callsOf log = repeat (cleanBase64 base64Image) k /\
    delaysOf log = firstn k [1000; 2000].
Proof.
  intros Hk Hov. unfold analyzeFrame, analyzeFrameFuel.
  change (Z.to_nat MAX_RETRIES) with 3%nat.
  replace 3%nat with (k + S (2 - k))%nat by lia.
  destruct (whileLoop_after_overloads (cleanBase64 base64Image) k (S (2 - k)) 0 [])
    as (log & Hrun & Hc & Hcalls & Hdelays);
    [lia | unfold MAX_RETRIES; lia | exact Hov |].
  exists log, (2 - k)%nat. split; [exact Hrun|]. split; [exact Hc|].
  split; [exact Hcalls|]. rewrite Hdelays.
  destruct k as [|[|[|k]]]; [reflexivity | reflexivity | reflexivity | lia].
Qed.

(** X8. The first attempt that does not end in an overload error decides
    the result. When the attempts before the [k]-th (with [k] at most 2)
    all ended in overload errors: if the [k]-th reply parses, the client
    returns the parsed value; if the [k]-th attempt ends in an error that
    is not an overload, the client returns the "Analysis failed" result.
    Either way it has made [k + 1] calls and slept the first [k] of the
    delays 1000 ms, 2000 ms. *)
Theorem first_decisive_attempt (base64Image : string) (k : nat) :
  (k <= 2)%nat ->
  overloadedBefore classifier JSON_parse (cleanBase64 base64Image) k ->
  exists log,
    callsOf log = repeat (cleanBase64 base64Image) (S k) /\
    delaysOf log = firstn k [1000; 2000] /\
    match attemptResult classifier JSON_parse k (cleanBase64 base64Image) with
    | inl result =>
        analyzeFrame classifier JSON_parse base64Image []
          = (Returns (Some result), log)
    | inr error =>
        isOverloaded error = Some false ->
        analyzeFrame classifier JSON_parse base64Image []
          = (Returns (Some (WellTyped (fallback "Analysis failed"))), log)
    end.
Proof.
  intros Hk Hov.
  destruct (analyzeFrame_after_overloads base64Image k Hk Hov)
    as (log & fuel & Hrun & Hc & Hcalls & Hdelays).
  assert (Hrep : forall (x : string) n, (repeat x n ++ [x])%list = repeat x (S n)).
  { intros x n. induction n as [|n IH]; [reflexivity|]. cbn. now rewrite IH. }
  destruct (attemptResult classifier JSON_parse k (cleanBase64 base64Image))
    as [result|error] eqn:Hres.
  - exists (log ++ [GenerateContent (cleanBase64 base64Image)])%list.
    rewrite callsOf_app, delaysOf_app, Hcalls, Hdelays.
    cbn [callsOf delaysOf flat_map app]. rewrite app_nil_r, Hrep.
    repeat split.
    rewrite Hrun. apply whileLoop_success; [unfold MAX_RETRIES; lia|].
    now rewrite Hc.
  - exists (log ++ [GenerateContent (cleanBase64 base64Image); ConsoleError error])%list.
    rewrite callsOf_app, delaysOf_app, Hcalls, Hdelays.
    cbn [callsOf delaysOf flat_map app]. rewrite app_nil_r, Hrep.
    repeat split.
    intros Hno. rewrite Hrun.
    apply other_error_no_retry; [unfold MAX_RETRIES; lia | now rewrite Hc | exact Hno].
Qed.

(** X9. A reply with no text, or with the empty text, is never retried:
    when the attempts before the [k]-th all ended in overload errors and
    the [k]-th call resolves without text, the client returns the
    "Analysis failed" result after that call, with no further delay. *)
Theorem empty_reply_not_retried (base64Image : string) (k : nat) :
  (k <= 2)%nat ->
  overloadedBefore classifier JSON_parse (cleanBase64 base64Image) k ->
  classifier k (cleanBase64 base64Image) = Resolves None \/
  classifier k (cleanBase64 base64Image) = Resolves (Some "") ->
  exists log,
    analyzeFrame classifier JSON_parse base64Image []
      = (Returns (Some (WellTyped (fallback "Analysis failed"))), log) /\
    callsOf log = repeat (cleanBase64 base64Image) (S k) /\
    delaysOf log = firstn k [1000; 2000].
Proof.
  intros Hk Hov Hempty.
  destruct (analyzeFrame_after_overloads base64Image k Hk Hov)
    as (log & fuel & Hrun & Hc & Hcalls & Hdelays).
  assert (Hres : attemptResult classifier JSON_parse (callCount log)
                   (cleanBase64 base64Image) = inr (Error "No response from AI")).
  { rewrite Hc. unfold attemptResult. now destruct Hempty as [-> | ->]. }
  exists (log ++ [GenerateContent (cleanBase64 base64Image);
                  ConsoleError (Error "No response from AI")])%list.
  split; [|split].
  - rewrite Hrun.
    apply other_error_no_retry; [unfold MAX_RETRIES; lia | exact Hres | reflexivity].
  - rewrite callsOf_app, Hcalls. cbn [callsOf flat_map app].
    clear. induction k as [|k IH]; [reflexivity|]. cbn. now rewrite IH.
  - rewrite delaysOf_app, Hdelays. cbn [delaysOf flat_map app]. now rewrite app_nil_r.
Qed.

End ClientOutcomes.

Section ClientOutcomesWitnesses.
Import Types JsString GeminiService Reference ClientNotions Samples.
Local Open Scope string_scope.
Local Open Scope Z_scope.

Lemma first_decisive_attempt_witness :
  ((1 <= 2)%nat /\
   overloadedBefore overloadedThenReply parseSample
     (cleanBase64 "data:image/jpeg;base64,AAAA") 1) /\
  exists log,
    callsOf log = repeat (cleanBase64 "data:image/jpeg;base64,AAAA") 2 /\
    delaysOf log = firstn 1 [1000; 2000] /\
    match attemptResult overloadedThenReply parseSample 1
            (cleanBase64 "data:image/jpeg;base64,AAAA") with
    | inl result =>
        analyzeFrame overloadedThenReply parseSample
          "data:image/jpeg;base64,AAAA" []
          = (Returns (Some result), log)
    | inr error =>
        isOverloaded error = Some false ->
        analyzeFrame overloadedThenReply parseSample
          "data:image/jpeg;base64,AAAA" []
          = (Returns (Some (WellTyped (fallback "Analysis failed"))), log)
    end.
Proof.
  assert (H : overloadedBefore overloadedThenReply parseSample
                (cleanBase64 "data:image/jpeg;base64,AAAA") 1).
  { intros j Hj. assert (j = 0%nat) by lia. subst j.
    exists overloaded. split; reflexivity. }
  split; [split; [lia | exact H]|].
  exact (first_decisive_attempt overloadedThenReply parseSample
           "data:image/jpeg;base64,AAAA" 1 (le_S 1 1 (le_n 1)) H).
Defined.

Lemma empty_reply_not_retried_witness :
  ((0 <= 2)%nat /\
   overloadedBefore (fun _ _ => Resolves None) parseSample
     (cleanBase64 "data:image/jpeg;base64,AAAA") 0 /\
   ((fun (_ : nat) (_ : string) => Resolves None) 0%nat
      (cleanBase64 "data:image/jpeg;base64,AAAA") = Resolves None \/
    (fun (_ : nat) (_ : string) => Resolves None) 0%nat
      (cleanBase64 "data:image/jpeg;base64,AAAA") = Resolves (Some ""))) /\
  exists log,
    analyzeFrame (fun _ _ => Resolves None) parseSample
      "data:image/jpeg;base64,AAAA" []
      = (Returns (Some (WellTyped (fallback "Analysis failed"))), log) /\
    callsOf log = repeat (cleanBase64 "data:image/jpeg;base64,AAAA") 1 /\
    delaysOf log = firstn 0 [1000; 2000].
Proof.
  assert (H : overloadedBefore (fun _ _ => Resolves None) parseSample
                (cleanBase64 "data:image/jpeg;base64,AAAA") 0).
  { intros j Hj. lia. }
  split; [split; [lia | split; [exact H | now left]]|].
  exact (empty_reply_not_retried (fun _ _ => Resolves None) parseSample
           "data:image/jpeg;base64,AAAA" 0 (Nat.le_0_l 2) H (or_introl eq_refl)).
Defined.

End ClientOutcomesWitnesses.

(** ** Replies and errors as the client reads them *)

Section RepliesAndErrors.
Import Types JsString GeminiService Reference ClientNotions.
Local Open Scope string_scope.

Lemma append_nil_r (s : string) : s ++ "" = s.
Proof. induction s as [|a s IH]; [reflexivity|]. cbn. now rewrite IH. Qed.

Lemma append_assoc (a b c : string) : (a ++ b) ++ c = a ++ b ++ c.
Proof. induction a as [|x a IH]; [reflexivity|]. cbn. now rewrite IH. Qed.

Lemma rev_acc_spec s : forall acc, rev_acc s acc = rev s ++ acc.
Proof.
  unfold rev. induction s as [|a s IH]; intros acc; [reflexivity|].
  cbn [rev_acc]. rewrite IH, (IH (String a "")), append_assoc. reflexivity.
Qed.

Lemma rev_cons a s : rev (String a s) = rev s ++ String a "".
Proof. unfold rev at 1. cbn [rev_acc]. apply rev_acc_spec. Qed.

Lemma rev_append a b : rev (a ++ b) = rev b ++ rev a.
Proof.
  induction a as [|x a IH].
  - cbn. now rewrite append_nil_r.
  - cbn [append]. rewrite !rev_cons, IH, append_assoc. reflexivity.
Qed.

Lemma rev_involutive s : rev (rev s) = s.
Proof.
  induction s as [|a s IH]; [reflexivity|].
  rewrite rev_cons, rev_append, IH. reflexivity.
Qed.

(** The last byte of a white space character of several bytes is no white
    space of one byte, and the last two bytes of one of three bytes are no
    white space of two. *)
Lemma isWhiteSpace2_last a b :
  isWhiteSpace2 a b = true -> isWhiteSpace b = false.
Proof.
  unfold isWhiteSpace2, isWhiteSpace. intros H.
  apply andb_true_iff in H. destruct H as [_ H]. apply N.eqb_eq in H.
  rewrite H. reflexivity.
Qed.

Lemma isWhiteSpace3_bytes a b c :
  isWhiteSpace3 a b c = true ->
  (128 <= N_of_ascii c)%N /\ N_of_ascii b <> 194%N.
Proof.
  unfold isWhiteSpace3. cbv zeta. intros H.
  repeat (apply orb_true_iff in H; destruct H as [H | H]);
    repeat (apply andb_true_iff in H; destruct H as [H ?]);
    repeat match goal with
           | X : (_ || _) = true |- _ => apply orb_true_iff in X; destruct X
           | X : (_ && _) = true |- _ => apply andb_true_iff in X; destruct X
           | X : N.eqb _ _ = true |- _ => apply N.eqb_eq in X
           | X : N.leb _ _ = true |- _ => apply N.leb_le in X
           end; lia.
Qed.

Lemma isWhiteSpace3_last a b c :
  isWhiteSpace3 a b c = true ->
  isWhiteSpace c = false /\ isWhiteSpace2 b c = false.
Proof.
  intros H. destruct (isWhiteSpace3_bytes a b c H) as [Hc Hb].
  unfold isWhiteSpace2, isWhiteSpace. split.
  - apply orb_false_iff. split.
    + apply andb_false_iff. right. apply N.leb_gt. lia.
    + apply N.eqb_neq. lia.
  - apply andb_false_iff. left. now apply N.eqb_neq.
Qed.

(** White space in front of a text is removed by [trimStart], and white
    space behind it by [trimEnd]. *)
Lemma trimStart_white_bounded n : forall ws s,
  (String.length ws <= n)%nat ->
  allWhiteSpace ws = true -> trimStart (ws ++ s) = trimStart s.
Proof.
  induction n as [|n IH]; intros ws s Hn H.
  - destruct ws; [reflexivity | cbn in Hn; lia].
  - destruct ws as [|a ws]; [reflexivity|].
    cbn [allWhiteSpace] in H. cbn [append trimStart].
    destruct (isWhiteSpace a).
    + apply IH; [cbn in Hn; lia | exact H].
    + destruct ws as [|b ws]; [discriminate|]. cbn [append].
      destruct (isWhiteSpace2 a b).
      * apply IH; [cbn in Hn; lia | exact H].
      * destruct ws as [|c ws]; [discriminate|]. cbn [append].
        apply andb_true_iff in H. destruct H as [H3 H]. rewrite H3.
        apply IH; [cbn in Hn; lia | exact H].
Qed.

Lemma trimStart_white ws s :
  allWhiteSpace ws = true -> trimStart (ws ++ s) = trimStart s.
Proof. apply (trimStart_white_bounded (String.length ws)). lia. Qed.

Lemma trimEndRev_white_bounded n : forall ws s,
  (String.length ws <= n)%nat ->
  allWhiteSpace ws = true -> trimEndRev (rev ws ++ s) = trimEndRev s.
Proof.
  induction n as [|n IH]; intros ws s Hn H.
  - destruct ws; [reflexivity | cbn in Hn; lia].
  - destruct ws as [|a ws]; [reflexivity|].
    cbn [allWhiteSpace] in H. rewrite rev_cons, append_assoc.
    destruct (isWhiteSpace a) eqn:Ha.
    + rewrite IH; [|cbn in Hn; lia | exact H].
      cbn [append trimEndRev]. now rewrite Ha.
    + destruct ws as [|b ws]; [discriminate|].
      rewrite rev_cons, append_assoc.
      destruct (isWhiteSpace2 a b) eqn:Hab.
      * rewrite IH; [|cbn in Hn; lia | exact H].
        cbn [append trimEndRev].
        now rewrite (isWhiteSpace2_last a b Hab), Hab.
      * destruct ws as [|c ws]; [discriminate|].
        rewrite rev_cons, append_assoc.
        apply andb_true_iff in H. destruct H as [H3 H].
        rewrite IH; [|cbn in Hn; lia | exact H].
        cbn [append trimEndRev].
        destruct (isWhiteSpace3_last a b c H3) as [Hc Hbc].
        now rewrite Hc, Hbc, H3.
Qed.

Lemma trimEndRev_white ws s :
  allWhiteSpace ws = true -> trimEndRev (rev ws ++ s) = trimEndRev s.
Proof. apply (trimEndRev_white_bounded (String.length ws)). lia. Qed.

(** A backquote starts no white space character and ends none. *)
Lemma trimStart_backquote s : trimStart (String "`" s) = String "`" s.
Proof. destruct s as [|b [|c s]]; reflexivity. Qed.

Lemma trimEndRev_backquote s : trimEndRev (String "`" s) = String "`" s.
Proof.
  destruct s as [|b [|a s]]; cbn [trimEndRev]; try reflexivity.
  - change (isWhiteSpace "`") with false. cbv iota.
    unfold isWhiteSpace2. now rewrite andb_false_r.
  - change (isWhiteSpace "`") with false. cbv iota.
    replace (isWhiteSpace2 b "`") with false
      by (unfold isWhiteSpace2; now rewrite andb_false_r).
    destruct (isWhiteSpace3 a b "`") eqn:H3; [|reflexivity].
    apply isWhiteSpace3_bytes in H3. destruct H3 as [H3 _].
    cbn in H3. lia.
Qed.

(** Trimming removes the white space around a text that begins and ends
    with a backquote. *)
Lemma trim_fenced ws ws' inner :
  allWhiteSpace ws = true -> allWhiteSpace ws' = true ->
  trim (ws ++ ("`" ++ inner ++ "`") ++ ws') = "`" ++ inner ++ "`".
Proof.
  intros Hw Hw'. unfold trim, trimEnd.
  rewrite (trimStart_white ws _ Hw).
  change (("`" ++ inner ++ "`") ++ ws') with (String "`" ((inner ++ "`") ++ ws')).
  rewrite trimStart_backquote.
  rewrite rev_cons, rev_append, rev_append.
  rewrite !append_assoc.
  rewrite (trimEndRev_white ws' _ Hw').
  change (rev "`") with "`". cbn [append].
  rewrite trimEndRev_backquote.
  change (String "`" (rev inner ++ "`")) with ("`" ++ rev inner ++ "`").
  rewrite rev_append, rev_append, rev_involutive. reflexivity.
Qed.

Lemma replaceAtEnd_fence body : replaceAtEnd "```" (body ++ "```") = body.
Proof.
  unfold replaceAtEnd. rewrite rev_append.
  change (rev "```") with "```".
  rewrite dropPrefix_append. apply rev_involutive.
Qed.

Lemma startsWith_json_append body :
  startsWith "json" (body ++ "```") = true -> startsWith "json" body = true.
Proof.
  unfold startsWith.
  destruct body as [|a [|b [|c [|d rest]]]]; cbn [dropPrefix append];
    repeat match goal with
           | |- context [Ascii.eqb ?x ?y] =>
               is_var y; destruct (Ascii.eqb_spec x y); [subst y|]
           end;
    cbn; intros H; try discriminate H; reflexivity.
Qed.

(** X10. A reply wrapped in a code fence is cleaned to what stands between
    the fences, whatever white space surrounds the fences: this holds for
    the fence tagged [json], and for the bare fence when the text between
    the fences does not itself begin with "json". A reply that, once
    trimmed, does not begin with a fence is only trimmed (a closing fence
    alone is left in place). *)
Theorem fence_stripping (ws ws' body : string) :
  allWhiteSpace ws = true ->
  allWhiteSpace ws' = true ->
  cleanText (ws ++ "```json" ++ body ++ "```" ++ ws') = body /\
  (startsWith "json" body = false ->
   cleanText (ws ++ "```" ++ body ++ "```" ++ ws') = body) /\
  (forall text, startsWith "```" (trim text) = false ->
                cleanText text = trim text).
Proof.
  intros Hw Hw'. split; [|split].
  - unfold cleanText.
    replace (ws ++ "```json" ++ body ++ "```" ++ ws')
      with (ws ++ ("`" ++ ("``json" ++ body ++ "``") ++ "`") ++ ws').
    2:{ cbn. f_equal. f_equal. rewrite !append_assoc. reflexivity. }
    rewrite (trim_fenced ws ws' _ Hw Hw').
    change ("`" ++ ("``json" ++ body ++ "``") ++ "`")
      with ("```json" ++ (body ++ "``") ++ "`").
    rewrite append_assoc.
    change ((body ++ "``" ++ "`")) with (body ++ "```").
    unfold startsWith. rewrite dropPrefix_append.
    unfold replaceAtStart. cbn [matchAt]. rewrite dropPrefix_append.
    apply replaceAtEnd_fence.
  - intros Hnot. unfold cleanText.
    replace (ws ++ "```" ++ body ++ "```" ++ ws')
      with (ws ++ ("`" ++ ("``" ++ body ++ "``") ++ "`") ++ ws').
    2:{ cbn. f_equal. f_equal. rewrite !append_assoc. reflexivity. }
    rewrite (trim_fenced ws ws' _ Hw Hw').
    change ("`" ++ ("``" ++ body ++ "``") ++ "`")
      with ("```" ++ (body ++ "``") ++ "`").
    rewrite append_assoc.
    change ((body ++ "``" ++ "`")) with (body ++ "```").
    assert (Hj : startsWith "```json" ("```" ++ body ++ "```") = false).
    { change (startsWith "```json" ("```" ++ body ++ "```"))
        with (startsWith "json" (body ++ "```")).
      destruct (startsWith "json" (body ++ "```")) eqn:E; [|reflexivity].
      apply startsWith_json_append in E. congruence. }
    rewrite Hj.
    unfold startsWith at 1. rewrite dropPrefix_append.
    unfold replaceAtStart. cbn [matchAt]. rewrite dropPrefix_append.
    apply replaceAtEnd_fence.
  - intros text Hno. unfold cleanText.
    assert (Hj : startsWith "```json" (trim text) = false).
    { unfold startsWith in *.
      change "```json" with ("```" ++ "json"). rewrite dropPrefix_app.
      destruct (dropPrefix "```" (trim text)); [discriminate | reflexivity]. }
    now rewrite Hj, Hno.
Qed.

Lemma fence_stripping_witness :
  (allWhiteSpace " " = true /\ allWhiteSpace "  " = true) /\
  cleanText (" " ++ "```json" ++ "{status:STUDYING}" ++ "```" ++ "  ")
    = "{status:STUDYING}" /\
  (startsWith "json" "{status:STUDYING}" = false ->
   cleanText (" " ++ "```" ++ "{status:STUDYING}" ++ "```" ++ "  ")
     = "{status:STUDYING}") /\
  (forall text, startsWith "```" (trim text) = false ->
                cleanText text = trim text).
Proof.
  split; [split; reflexivity|].
  apply (fence_stripping " " "  " "{status:STUDYING}"); reflexivity.
Defined.

Lemma includes_spec p : forall s, includes p s = true <-> hasSubstring p s.
Proof.
  unfold hasSubstring.
  induction s as [|a s IH].
  - cbn [includes]. rewrite orb_false_r. unfold startsWith. split.
    + destruct (dropPrefix p "") as [rest|] eqn:E; [|discriminate].
      intros _. exists "", rest. now apply dropPrefix_Some in E.
    + intros (before & after & H).
      destruct before; [|discriminate].
      cbn in H. rewrite H, dropPrefix_append. reflexivity.
  - cbn [includes]. rewrite orb_true_iff, IH. unfold startsWith. split.
    + intros [H | (before & after & H)].
      * destruct (dropPrefix p (String a s)) as [rest|] eqn:E; [|discriminate].
        exists "", rest. now apply dropPrefix_Some in E.
      * exists (String a before), after. cbn. now rewrite H.
    + intros (before & after & H).
      destruct before as [|b before].
      * left. cbn in H. rewrite H, dropPrefix_append. reflexivity.
      * right. cbn in H. injection H as _ H. now exists before, after.
Qed.

(** A text with a non-breaking space (U+00A0) in front and an
    ideographic space (U+3000) behind is trimmed like one with blanks. *)
Example trim_unicode_white_space :
  let nbsp := String (ascii_of_N 194) (String (ascii_of_N 160) "") in
  let wide := String (ascii_of_N 227) (String (ascii_of_N 128)
                (String (ascii_of_N 128) "")) in
  trim (nbsp ++ " x y" ++ wide ++ " ") = "x y" /\
  cleanText (nbsp ++ "```json" ++ "{status:STUDYING}" ++ "```" ++ wide)
    = "{status:STUDYING}".
Proof. split; reflexivity. Qed.

(** X11. When the message of an error is a string, or is missing and so
    read as the empty string, the overload test never throws, and the
    error counts as an overload exactly when its status is 503, or its
    status is missing or 0 and its code is 503, or its message has
    "overloaded" or "UNAVAILABLE" (in these letter cases) as a substring.
    When the message is a truthy value that is no string, the status and
    the code count in the same way and are tested first; otherwise the
    test calls [includes] on the message with "overloaded" and then, if
    the answer is falsy, with "UNAVAILABLE": it throws exactly when the
    call it makes throws, and the error counts as an overload exactly when
    one of the calls answers truthy. *)
Theorem isOverloaded_iff (error : JsError) :
  let is503 :=
    err_status error = Some 503%Z \/
    ((err_status error = None \/ err_status error = Some 0%Z) /\
     err_code error = Some 503%Z) in
  match errorMessage error with
  | Text text =>
      (isOverloaded error = Some true <->
       is503 \/ hasSubstring "overloaded" text \/ hasSubstring "UNAVAILABLE" text) /\
      isOverloaded error <> None
  | NotText includes =>
      (isOverloaded error = Some true <->
       is503 \/ includes "overloaded" = Some true \/
       (includes "overloaded" = Some false /\ includes "UNAVAILABLE" = Some true)) /\
      (isOverloaded error = None <->
       ~ is503 /\
       (includes "overloaded" = None \/
        (includes "overloaded" = Some false /\ includes "UNAVAILABLE" = None)))
  end.
Proof.
  intros is503.
  assert (Hcode :
    match errorCode error with Some c => (c =? 503)%Z | None => false end = true <->
    is503).
  { subst is503. unfold errorCode.
    destruct (err_status error) as [c|].
    - destruct (Z.eqb_spec c 0) as [->|Hc].
      + destruct (err_code error) as [d|].
        * destruct (Z.eqb_spec d 503) as [->|Hd].
          -- split; auto.
          -- split; [discriminate|].
             intros [H | [_ H]]; [discriminate | congruence].
        * split; [discriminate|].
          intros [H | [_ H]]; discriminate.
      + destruct (Z.eqb_spec c 503) as [->|Hd].
        * split; auto.
        * split; [discriminate|].
          intros [H | [[H | H] _]]; congruence.
    - destruct (err_code error) as [d|].
      + destruct (Z.eqb_spec d 503) as [->|Hd].
        * split; auto.
        * split; [discriminate|].
          intros [H | [_ H]]; [discriminate | congruence].
      + split; [discriminate|].
        intros [H | [_ H]]; discriminate. }
  clearbody is503.
  unfold isOverloaded, errorMessageIncludes.
  destruct (match errorCode error with Some c => (c =? 503)%Z | None => false end).
  - assert (H503 : is503) by now apply Hcode.
    destruct (errorMessage error) as [text|inc]; intuition congruence.
  - assert (H503 : ~ is503) by (intros H; apply Hcode in H; discriminate).
    clear Hcode.
    destruct (errorMessage error) as [text|inc].
    + pose proof (includes_spec "overloaded" text) as H1.
      pose proof (includes_spec "UNAVAILABLE" text) as H2.
      destruct (includes "overloaded" text);
        destruct (includes "UNAVAILABLE" text); intuition congruence.
    + destruct (inc "overloaded") as [[|]|];
        destruct (inc "UNAVAILABLE") as [[|]|]; intuition congruence.
Qed.

End RepliesAndErrors.

(** ** The sampler over whole runs *)

Section SamplerRuns.
Import Types WebcamMonitor Reference SamplerNotions.
Local Open Scope string_scope.
Local Open Scope Z_scope.

Lemma captureAndAnalyze_starts frame st :
  snd (captureAndAnalyze frame st) =
  match frame with
  | Some base64Image =>
      if canCapture st then [AnalyzeFrame base64Image] else []
  | None =>
      if canCapture st then [ConsoleError "Capture error:" CaptureFailed] else []
  end.
Proof.
  unfold captureAndAnalyze, canCapture.
  rewrite (Z.leb_antisym (readyState st) 2).
  destruct (videoRef st), (canvasRef st), (isProcessingRef st);
    cbn [negb orb andb]; try (now destruct frame).
  destruct (readyState st <? 2); cbn [negb orb andb];
    try (now destruct frame).
  destruct (videoWidth st =? 0); cbn [negb orb andb];
    try (now destruct frame).
  cbn [setProcessing hasContext].
  destruct (hasContext st); now destruct frame.
Qed.

(** X12. A callback starts a classification call in exactly one
    situation: it is a timer callback while monitoring without stream
    error, or a manual trigger while monitoring; the video and canvas
    elements are there; no call is in flight; the video has data and a
    non-zero width; the canvas gives a drawing context; and the frame was
    captured. It then starts exactly one call, with that frame. Settled
    calls, renders and camera changes never start one. *)
Theorem call_starts_exactly_when (ev : Event) (st : State) :
  filter isAnalyzeFrame (snd (step ev st)) =
  match ev with
  | TimerFires (Some frame) =>
      if isMonitoring st && negb (streamError st) && canCapture st
      then [AnalyzeFrame frame] else []
  | TriggerAnalysis (Some frame) =>
      if isMonitoring st && canCapture st then [AnalyzeFrame frame] else []
  | _ => []
  end.
Proof.
  destruct ev as [frame|frame|result|error|m e|v c r w h]; cbn [step snd filter];
    try reflexivity.
  - destruct (isMonitoring st && negb (streamError st)); cbn [andb];
      [|now destruct frame].
    rewrite (captureAndAnalyze_starts frame st).
    destruct frame; destruct (canCapture st); reflexivity.
  - unfold triggerAnalysis.
    destruct (isMonitoring st) eqn:Hm; cbn [andb]; [|now destruct frame].
    destruct (isProcessingRef st) eqn:Hp; cbn [negb].
    + assert (Hc : canCapture st = false).
      { unfold canCapture. rewrite Hp. cbn [negb].
        now rewrite andb_false_r. }
      rewrite Hc. now destruct frame.
    + pose proof (captureAndAnalyze_starts frame st) as Hs.
      destruct (captureAndAnalyze frame st) as [st' acts]. cbn [snd] in *.
      rewrite Hs. cbn [filter isAnalyzeFrame].
      destruct frame; destruct (canCapture st); reflexivity.
  - unfold resume. now destruct (inFlight st).
  - unfold resumeRejected. now destruct (inFlight st).
Qed.

Lemma actionsOf_app evs1 evs2 st :
  actionsOf (evs1 ++ evs2) st =
  (actionsOf evs1 st ++ actionsOf evs2 (run evs1 st))%list.
Proof.
  revert st. induction evs1 as [|ev evs1 IH]; intros st; [reflexivity|].
  cbn [app actionsOf run fold_left]. rewrite IH, app_assoc. reflexivity.
Qed.

(** One step: calls started, results delivered, rejections caught and
    calls in flight. *)
Lemma captureAndAnalyze_balance frame st :
  isProcessing st = isProcessingRef st ->
  (started (snd (captureAndAnalyze frame st)) + List.length (inFlight st) =
   delivered (snd (captureAndAnalyze frame st))
   + rejected (snd (captureAndAnalyze frame st))
   + List.length (inFlight (fst (captureAndAnalyze frame st))))%nat /\
  isProcessing (fst (captureAndAnalyze frame st))
  = isProcessingRef (fst (captureAndAnalyze frame st)).
Proof.
  intros Hp. unfold captureAndAnalyze.
  destruct (negb (videoRef st) || negb (canvasRef st) || isProcessingRef st);
    [split; [reflexivity | exact Hp]|].
  destruct ((readyState st <? 2) || (videoWidth st =? 0));
    [split; reflexivity|].
  cbn [setProcessing hasContext].
  destruct (hasContext st); [|split; reflexivity].
  destruct frame; (split; [|reflexivity]).
  - cbn [fst snd setInFlight setProcessing inFlight].
    rewrite length_app. unfold started, delivered, rejected. simpl. lia.
  - reflexivity.
Qed.

Lemma step_balance ev st :
  isProcessing st = isProcessingRef st ->
  (started (snd (step ev st)) + List.length (inFlight st) =
   delivered (snd (step ev st)) + rejected (snd (step ev st))
   + List.length (inFlight (fst (step ev st))))%nat /\
  isProcessing (fst (step ev st)) = isProcessingRef (fst (step ev st)).
Proof.
  intros Hp.
  destruct ev as [frame|frame|result|error|m e|v c r w h]; cbn [step].
  - destruct (isMonitoring st && negb (streamError st));
      [|split; [reflexivity | exact Hp]].
    now apply captureAndAnalyze_balance.
  - unfold triggerAnalysis.
    destruct (isMonitoring st && negb (isProcessingRef st));
      [|split; [reflexivity | exact Hp]].
    pose proof (captureAndAnalyze_balance frame st Hp) as H.
    destruct (captureAndAnalyze frame st) as [st' acts].
    cbn [fst snd] in *. exact H.
  - unfold resume. destruct (inFlight st) as [|f rest] eqn:Hfl.
    + split; [cbn [fst snd]; rewrite Hfl; reflexivity | exact Hp].
    + split; [|reflexivity].
      cbn [fst snd finallyBlock setProcessing setInFlight inFlight].
      unfold started, delivered, rejected. simpl. lia.
  - unfold resumeRejected. destruct (inFlight st) as [|f rest] eqn:Hfl.
    + split; [cbn [fst snd]; rewrite Hfl; reflexivity | exact Hp].
    + split; [|reflexivity].
      cbn [fst snd finallyBlock setProcessing setInFlight inFlight].
      unfold started, delivered, rejected. simpl. lia.
  - split; [reflexivity | exact Hp].
  - split; [reflexivity | exact Hp].
Qed.

(** X13. Every call the sampler starts ends in one of two ways, and no
    result is delivered without a call: after any sequence of callbacks
    from the initial state, the calls started are as many as the results
    handed to [onStatusChange], plus the rejections caught and logged
    (for which nothing is handed on), plus the calls in flight (at most
    one). The processing indicator agrees with the guard, and the guard is
    set exactly while a call is in flight, so neither a capture that fails
    or is skipped nor a call that is rejected leaves the sampler
    blocked. *)
Theorem calls_and_results_balance (evs : list Event) :
  let st := run evs initial in
  let acts := actionsOf evs initial in
  (started acts = delivered acts + rejected acts + List.length (inFlight st))%nat /\
  (List.length (inFlight st) <= 1)%nat /\
  isProcessing st = isProcessingRef st /\
  (isProcessingRef st = true <-> inFlight st <> []).
Proof.
  induction evs as [|ev evs IH] using rev_ind.
  - cbn. repeat split; try lia; try discriminate. congruence.
  - cbv zeta in *. destruct IH as (Hbal & Hlen & Hp & Hiff).
    rewrite run_snoc, actionsOf_app.
    pose proof (run_guarded evs) as G.
    destruct (step_balance ev (run evs initial) Hp) as (Hstep & Hp').
    destruct (step_guarded ev (run evs initial) G) as [G' _].
    cbn [actionsOf]. rewrite app_nil_r.
    unfold started, delivered, rejected in *. rewrite !filter_app, !length_app.
    split; [lia|]. split; [|split; [exact Hp'|]].
    + destruct G' as [[_ ->] | [_ (f & ->)]]; simpl; lia.
    + destruct G' as [[H1 H2] | [H1 (f & H2)]]; rewrite H1, H2;
        split; congruence.
Qed.

(** A call that is rejected: nothing is handed on, and the guard is
    released all the same. *)
Example rejected_call_frees_sampler :
  let evs := [Render true false; Video true true 4 640 true;
              TimerFires (Some "data:image/jpeg;base64,AAAA")] in
  let st := run evs initial in
  let after := step (AnalyzeFrameRejects GeminiService.TypeError) st in
  inFlight st = ["data:image/jpeg;base64,AAAA"] /\
  snd after = [ConsoleError "Capture error:" (CallRejected GeminiService.TypeError)] /\
  inFlight (fst after) = [] /\ isProcessingRef (fst after) = false.
Proof. repeat split. Qed.


End SamplerRuns.

(** ** The background sound *)

Section Sound.
Import Types Audio.
Local Open Scope Z_scope.

Lemma wellFormed_new : wellFormed newNoiseGenerator.
Proof.
  unfold wellFormed. cbn. repeat split; try discriminate; try congruence.
Qed.

Lemma stop_spec g :
  wellFormed g ->
  wellFormed (stop g) /\ sounding (stop g) = [] /\ source (stop g) = None /\
  isPlaying (stop g) = false /\ gainNode (stop g) = gainNode g /\
  ctx (stop g) = ctx g /\ created (stop g) = created g.
Proof.
  intros (Hs & Hp & Hc & Hn). unfold stop.
  destruct (source g) as [id|] eqn:Hsrc.
  - assert (Hnil : filter (fun x => negb (Nat.eqb x id)) (sounding g) = []).
    { rewrite Hs. cbn. now rewrite Nat.eqb_refl. }
    unfold wellFormed. cbn. rewrite Hnil.
    repeat split; try discriminate; try congruence.
  - unfold wellFormed. cbn. rewrite Hs.
    repeat split; try discriminate; try congruence.
Qed.

Lemma play_spec type v g :
  wellFormed g ->
  let g' := play type v g in
  wellFormed g' /\ isPlaying g' = true /\
  (exists id, sounding g' = [id]) /\
  (isPlaying g && sameType (currentType g) type = true -> g' = g) /\
  (isPlaying g && sameType (currentType g) type = false ->
   currentType g' = type /\ gainNode g' = Some (mkGainNode v v) /\
   source g' = Some (created g) /\ created g' = S (created g)).
Proof.
  intros W g'. subst g'. unfold play.
  destruct (isPlaying g && sameType (currentType g) type) eqn:Hsame.
  - apply andb_true_iff in Hsame. destruct Hsame as [Hp _].
    split; [exact W|]. split; [exact Hp|].
    destruct W as (Hs & Hiff & _ & _).
    apply Hiff in Hp. destruct (source g) as [id|]; [|congruence].
    split; [now exists id|]. split; [reflexivity | discriminate].
  - destruct (stop_spec g W) as (_ & Hnil & _ & _ & _ & _ & Hcr).
    unfold wellFormed. cbn. rewrite Hnil, Hcr. cbn.
    repeat split; try discriminate; try congruence; eauto.
    intros id H. injection H as <-. lia.
Qed.

Lemma setVolume_spec smooth v g :
  wellFormed g ->
  let g' := setVolume smooth v g in
  wellFormed g' /\ sounding g' = sounding g /\ source g' = source g /\
  isPlaying g' = isPlaying g /\ currentType g' = currentType g /\
  created g' = created g /\
  (source g <> None ->
   exists node, gainNode g' = Some node /\ gainTarget node = v).
Proof.
  intros W g'. subst g'. unfold setVolume.
  pose proof W as (Hs & Hp & Hc & Hn).
  case_eq (gainNode g); [intros node Hg | intros Hg].
  - case_eq (ctx g); intros Hctx.
    + unfold wellFormed. cbn [sounding source isPlaying created ctx gainNode
                              currentType].
      repeat split; try (apply Hp); try (apply Hc); try assumption;
        try discriminate.
      intros _. destruct smooth; eexists; split; reflexivity.
    + split; [exact W|]. repeat split.
      intros H. destruct (Hn H) as [Hx _]. congruence.
  - split; [exact W|]. repeat split.
    intros H. destruct (Hn H) as [_ Hx]. congruence.
Qed.

Lemma call_wellFormed c g : wellFormed g -> wellFormed (call c g).
Proof.
  intros W. destruct c as [type v| |smooth v]; cbn [call].
  - now destruct (play_spec type v g W).
  - now destruct (stop_spec g W).
  - now destruct (setVolume_spec smooth v g W).
Qed.

(** X15. Whatever sequence of [play], [stop] and [setVolume] calls a
    noise generator receives, at most one of its buffer sources sounds at
    any time: what sounds is exactly the source the generator holds, and
    the generator reports playing exactly when it holds one. In
    particular changing the noise type stops the old source before the new
    one starts. *)
Theorem noise_single_source (cs : list Call) :
  let g := calls cs newNoiseGenerator in
  (List.length (sounding g) <= 1)%nat /\
  sounding g = match source g with Some id => [id] | None => [] end /\
  (isPlaying g = true <-> sounding g <> []).
Proof.
  assert (W : wellFormed (calls cs newNoiseGenerator)).
  { unfold calls. generalize wellFormed_new. generalize newNoiseGenerator.
    induction cs as [|c cs IH]; intros g W; [exact W|].
    cbn [fold_left]. apply IH. now apply call_wellFormed. }
  cbv zeta. destruct W as (Hs & Hp & _ & _).
  rewrite Hs. split; [|split; [reflexivity|]].
  - destruct (source (calls cs newNoiseGenerator)); simpl; lia.
  - rewrite Hp. destruct (source (calls cs newNoiseGenerator));
      split; congruence.
Qed.

(** X16. A call of [play] with the type that is already playing changes
    nothing: the source keeps sounding without a restart, whatever volume
    is passed (the volume is then applied by [setVolume] alone). Any other
    call of [play] leaves exactly one source sounding, a new one, at the
    volume passed. *)
Theorem play_restarts_only_on_change
    (cs : list Call) (type : option NoiseType) (v : float) :
  let g := calls cs newNoiseGenerator in
  let g' := play type v g in
  (isPlaying g = true -> currentType g = type -> g' = g) /\
  (isPlaying g = false \/ currentType g <> type ->
   sounding g' = [created g] /\ ~ In (created g) (sounding g) /\
   gainNode g' = Some (mkGainNode v v) /\ currentType g' = type /\
   isPlaying g' = true).
Proof.
  assert (W : wellFormed (calls cs newNoiseGenerator)).
  { unfold calls. generalize wellFormed_new. generalize newNoiseGenerator.
    induction cs as [|c cs IH]; intros g W; [exact W|].
    cbn [fold_left]. apply IH. now apply call_wellFormed. }
  cbv zeta. set (g := calls cs newNoiseGenerator) in *.
  assert (Hsame : forall a b, sameType a b = true <-> a = b).
  { intros [[]|] [[]|]; cbn; split; congruence. }
  destruct (play_spec type v g W) as (W' & Hp' & _ & Hkeep & Hnew).
  split.
  - intros Hp Ht. apply Hkeep. rewrite Hp. cbn. now apply Hsame.
  - intros Hor.
    assert (Hb : isPlaying g && sameType (currentType g) type = false).
    { destruct Hor as [-> | Hne]; [reflexivity|].
      destruct (sameType (currentType g) type) eqn:E.
      - apply Hsame in E. contradiction.
      - apply andb_false_r. }
    destruct (Hnew Hb) as (Ht & Hg & Hsrc & Hcr).
    destruct W' as (Hs' & _ & _ & _). rewrite Hsrc in Hs'.
    repeat split; try assumption.
    destruct W as (Hs & _ & Hc & _). rewrite Hs.
    destruct (source g) as [id|] eqn:E; [|intros []].
    intros [H | []]. specialize (Hc id eq_refl). lia.
Qed.

End Sound.

Section Playback.
Import Types Audio.
Local Open Scope Z_scope.

Lemma noiseOn_iff p :
  wellFormed (noiseGenRef p) ->
  (noiseOn p = true <-> source (noiseGenRef p) <> None) /\
  noiseOn p = isPlaying (noiseGenRef p).
Proof.
  intros (Hs & Hp & _ & _). unfold noiseOn. rewrite Hs.
  destruct (source (noiseGenRef p)) as [id|] eqn:E.
  - split; [split; congruence|].
    symmetry. apply Hp. discriminate.
  - split; [split; congruence|].
    destruct (isPlaying (noiseGenRef p)); [|reflexivity].
    exfalso. now apply (proj1 Hp).
Qed.

(** X17. After the playback control effect has run on a track: the two
    sound sources are never on together, and a source is on only while
    monitoring with the music switched on. On a generator track the noise
    is on exactly in that case, at a gain heading for the target volume,
    and the audio element is off. On a file track the noise is off, and
    the element, when there is one, has the target volume and plays
    exactly in that case unless [play()] is rejected, which is the one way
    an error gets displayed. *)
Theorem playback_effect_outcome
    (track : Track) (playRejects smooth : bool)
    (app : App.State) (p : Player) :
  wellFormed (noiseGenRef p) ->
  let shouldPlay := App.isMonitoring app && isMusicPlaying p in
  let p' := playbackOn track playRejects smooth app p in
  wellFormed (noiseGenRef p') /\
  noiseOn p' && audioOn p' = false /\
  (noiseOn p' || audioOn p' = true -> shouldPlay = true) /\
  match type track with
  | generator =>
      noiseOn p' = shouldPlay /\ audioOn p' = false /\
      audioError p' = None /\
      (shouldPlay = true ->
       currentType (noiseGenRef p') = noiseType track /\
       exists node, gainNode (noiseGenRef p') = Some node /\
                    gainTarget node = App.getTargetVolume app)
  | audio =>
      noiseOn p' = false /\
      audioOn p' = (match audioRef p with
                    | Some _ => shouldPlay && negb playRejects
                    | None => false
                    end) /\
      (forall a, audioRef p' = Some a -> volume a = App.getTargetVolume app) /\
      (audioError p' <> None <->
       audioRef p <> None /\ shouldPlay = true /\ playRejects = true)
  end.
Proof.
  intros W shouldPlay p'. subst p'. unfold playbackOn. fold shouldPlay.
  destruct (type track).
  - destruct shouldPlay eqn:Hsp.
    + destruct (play_spec (noiseType track) (App.getTargetVolume app)
                  (noiseGenRef p) W) as (W1 & Hp1 & (id & Hs1) & Hkeep & Hnew).
      destruct (setVolume_spec smooth (App.getTargetVolume app) _ W1)
        as (W2 & Hs2 & Hsrc2 & Hp2 & Ht2 & _ & Hg2).
      assert (Hon : noiseOn {| noiseGenRef :=
                      setVolume smooth (App.getTargetVolume app)
                        (play (noiseType track) (App.getTargetVolume app)
                           (noiseGenRef p));
                      audioRef := match audioRef p with
                                  | Some a => Some (mkAudioElement (volume a) false)
                                  | None => None
                                  end;
                      isMusicPlaying := isMusicPlaying p;
                      currentTrackIndex := currentTrackIndex p;
                      audioError := None |} = true).
      { unfold noiseOn. cbn [noiseGenRef]. now rewrite Hs2, Hs1. }
      assert (Hoff : forall o, audioOn {| noiseGenRef := o;
                      audioRef := match audioRef p with
                                  | Some a => Some (mkAudioElement (volume a) false)
                                  | None => None
                                  end;
                      isMusicPlaying := isMusicPlaying p;
                      currentTrackIndex := currentTrackIndex p;
                      audioError := None |} = false).
      { intros o. unfold audioOn. cbn [audioRef]. now destruct (audioRef p). }
      rewrite Hon, Hoff. cbn [noiseGenRef audioError].
      split; [exact W2|].
      repeat split; try reflexivity.
      * rewrite Ht2.
        destruct (isPlaying (noiseGenRef p)
                  && sameType (currentType (noiseGenRef p)) (noiseType track)) eqn:E.
        -- rewrite (Hkeep eq_refl).
           apply andb_true_iff in E. destruct E as [_ E].
           destruct (currentType (noiseGenRef p)) as [[]|],
                    (noiseType track) as [[]|]; cbn in E; congruence.
        -- now destruct (Hnew eq_refl).
      * apply Hg2. destruct W1 as (_ & Hiff & _ & _). now apply Hiff.
    + destruct (stop_spec (noiseGenRef p) W) as (W1 & Hs1 & _).
      unfold noiseOn, audioOn. cbn [noiseGenRef audioRef audioError].
      rewrite Hs1.
      split; [exact W1|].
      repeat split; try reflexivity; try discriminate;
        now destruct (audioRef p).
  - destruct (stop_spec (noiseGenRef p) W) as (W1 & Hs1 & _).
    destruct (audioRef p) as [a|] eqn:Ha.
    + unfold noiseOn, audioOn. cbn [noiseGenRef audioRef audioError volume playing].
      rewrite Hs1. cbn [andb orb].
      split; [exact W1|]. split; [reflexivity|]. split.
      { destruct shouldPlay; [reflexivity | discriminate]. }
      split; [reflexivity|]. split; [reflexivity|]. split.
      { intros a' H. injection H as <-. reflexivity. }
      destruct shouldPlay, playRejects; cbn; split;
        try (intros H; exfalso; now apply H);
        try (intros (_ & H1 & H2); discriminate);
        try (intros _; repeat split; discriminate).
    + unfold noiseOn, audioOn. cbn [noiseGenRef audioRef audioError].
      rewrite Hs1. cbn [andb orb].
      split; [exact W1|]. split; [reflexivity|]. split; [discriminate|].
      split; [reflexivity|]. split; [reflexivity|]. split; [discriminate|].
      split; [intros H; exfalso; now apply H
             | intros (H & _); exfalso; now apply H].
Qed.

Lemma wellFormed_brownNoisePlaying : wellFormed (noiseGenRef brownNoisePlaying).
Proof.
  destruct (play_spec (Some brown) (App.getTargetVolume Samples.started)
              newNoiseGenerator wellFormed_new) as (W1 & _).
  destruct (setVolume_spec true (App.getTargetVolume Samples.started) _ W1)
    as (W2 & _).
  exact W2.
Qed.

Lemma playback_effect_outcome_witness :
  (wellFormed (noiseGenRef musicOn) /\
   noiseOn musicOn = false /\
   App.isMonitoring Samples.started && isMusicPlaying musicOn = true) /\
  let track := brownTrack in
  let shouldPlay := App.isMonitoring Samples.started && isMusicPlaying musicOn in
  let p' := playbackOn track false true Samples.started musicOn in
  wellFormed (noiseGenRef p') /\
  noiseOn p' && audioOn p' = false /\
  (noiseOn p' || audioOn p' = true -> shouldPlay = true) /\
  match type track with
  | generator =>
      noiseOn p' = shouldPlay /\ audioOn p' = false /\
      audioError p' = None /\
      (shouldPlay = true ->
       currentType (noiseGenRef p') = noiseType track /\
       exists node, gainNode (noiseGenRef p') = Some node /\
                    gainTarget node = App.getTargetVolume Samples.started)
  | audio =>
      noiseOn p' = false /\
      audioOn p' = (match audioRef musicOn with
                    | Some _ => shouldPlay && negb false
                    | None => false
                    end) /\
      (forall a, audioRef p' = Some a ->
                 volume a = App.getTargetVolume Samples.started) /\
      (audioError p' <> None <->
       audioRef musicOn <> None /\ shouldPlay = true /\ false = true)
  end.
Proof.
  split; [split; [exact wellFormed_new | split; reflexivity]|].
  exact (playback_effect_outcome brownTrack false true
           Samples.started musicOn wellFormed_new).
Defined.

End Playback.

Section PlaylistAndVolume.
Import Types Audio.
Local Open Scope Z_scope.

(** X18. Moving along a playlist of [n] tracks keeps the index inside the
    playlist and wraps around at both ends; going to the next track and
    then to the previous one, or the other way round, comes back to the
    same track. *)
Theorem track_navigation (n i : Z) :
  0 < n -> 0 <= i < n ->
  0 <= nextIndex n i < n /\
  0 <= prevIndex n i < n /\
  nextIndex n i = (if i =? n - 1 then 0 else i + 1) /\
  prevIndex n i = (if i =? 0 then n - 1 else i - 1) /\
  prevIndex n (nextIndex n i) = i /\
  nextIndex n (prevIndex n i) = i.
Proof.
  intros Hn Hi.
  assert (Hnext : forall j, 0 <= j < n ->
            nextIndex n j = (if j =? n - 1 then 0 else j + 1)).
  { intros j Hj. unfold nextIndex. rewrite Z.rem_mod_nonneg by lia.
    destruct (Z.eqb_spec j (n - 1)) as [->|Hne].
    - replace (n - 1 + 1) with n by lia. apply Z.mod_same. lia.
    - apply Z.mod_small. lia. }
  assert (Hprev : forall j, 0 <= j < n ->
            prevIndex n j = (if j =? 0 then n - 1 else j - 1)).
  { intros j Hj. unfold prevIndex. rewrite Z.rem_mod_nonneg by lia.
    destruct (Z.eqb_spec j 0) as [->|Hne].
    - replace (0 - 1 + n) with (n - 1) by lia. apply Z.mod_small. lia.
    - replace (j - 1 + n) with (j - 1 + 1 * n) by lia.
      rewrite Z.mod_add by lia. apply Z.mod_small. lia. }
  rewrite (Hnext i Hi), (Hprev i Hi).
  destruct (Z.eqb_spec i (n - 1)) as [E1|N1];
    destruct (Z.eqb_spec i 0) as [E0|N0];
    repeat split; try lia.
  all: try (rewrite Hprev by lia); try (rewrite Hnext by lia).
  all: repeat match goal with
              | |- context [?a =? ?b] => destruct (Z.eqb_spec a b)
              end; lia.
Qed.

Lemma track_navigation_witness :
  (0 < 3 /\ 0 <= 2 < 3) /\
  0 <= nextIndex 3 2 < 3 /\
  0 <= prevIndex 3 2 < 3 /\
  nextIndex 3 2 = (if 2 =? 3 - 1 then 0 else 2 + 1) /\
  prevIndex 3 2 = (if 2 =? 0 then 3 - 1 else 2 - 1) /\
  prevIndex 3 (nextIndex 3 2) = 2 /\
  nextIndex 3 (prevIndex 3 2) = 2.
Proof.
  split; [lia|]. apply (track_navigation 3 2); lia.
Defined.

Lemma moves_in_range ms : forall p,
  0 <= currentTrackIndex p < 3 -> 0 <= currentTrackIndex (moves ms p) < 3.
Proof.
  induction ms as [|m ms IH]; intros p Hp; [exact Hp|].
  cbn [moves fold_left]. apply IH.
  assert (Hcases : currentTrackIndex p = 0 \/ currentTrackIndex p = 1
                   \/ currentTrackIndex p = 2) by lia.
  destruct m; cbn [move nextTrack prevTrack setTrackIndex currentTrackIndex];
    destruct Hcases as [-> | [-> | ->]]; cbn; lia.
Qed.

(** X19. However the user moves through the playlist from the initial
    track, the current index designates one of the three tracks of the
    playlist, a noise generator track; so neither audio effect ever reads
    an undefined track, and the file branch of the effects is not
    reached with this playlist. *)
Theorem effects_always_find_track
    (ms : list Move) (playRejects smooth : bool) (app : App.State)
    (p : Player) :
  currentTrackIndex p = currentTrackIndex initialPlayer ->
  let p' := moves ms p in
  exists track,
    trackAt (currentTrackIndex p') = Some track /\
    type track = generator /\ noiseType track <> None /\
    playbackEffect playRejects smooth app p'
      = Some (playbackOn track playRejects smooth app p') /\
    volumeEffect smooth app p' = Some (volumeOn track smooth app p').
Proof.
  intros Hp p'.
  assert (Hr : 0 <= currentTrackIndex p' < 3).
  { apply moves_in_range. rewrite Hp. cbn. lia. }
  unfold playbackEffect, volumeEffect, trackAt.
  destruct (Z.ltb_spec (currentTrackIndex p') 0) as [|_]; [lia|].
  assert (Hcases : currentTrackIndex p' = 0 \/ currentTrackIndex p' = 1
                   \/ currentTrackIndex p' = 2) by lia.
  destruct Hcases as [-> | [-> | ->]]; cbn;
    eexists; repeat split; discriminate.
Qed.

Lemma effects_always_find_track_witness :
  currentTrackIndex initialPlayer = currentTrackIndex initialPlayer /\
  let p' := moves [Prev; Prev; Next] initialPlayer in
  exists track,
    trackAt (currentTrackIndex p') = Some track /\
    type track = generator /\ noiseType track <> None /\
    playbackEffect false true Samples.started p'
      = Some (playbackOn track false true Samples.started p') /\
    volumeEffect true Samples.started p'
      = Some (volumeOn track true Samples.started p').
Proof.
  split; [reflexivity|].
  exact (effects_always_find_track [Prev; Prev; Next] false true
           Samples.started initialPlayer eq_refl).
Defined.

(** X20. The volume-only effect changes volumes and nothing else: no
    source is started or stopped and neither sound source is switched on
    or off. On a generator track with the noise on, the gain then heads
    for the target volume; on a file track the element, when there is
    one, gets the target volume. *)
Theorem volume_effect_only_sets_volume
    (track : Track) (smooth : bool) (app : App.State) (p : Player) :
  wellFormed (noiseGenRef p) ->
  let p' := volumeOn track smooth app p in
  wellFormed (noiseGenRef p') /\
  sounding (noiseGenRef p') = sounding (noiseGenRef p) /\
  created (noiseGenRef p') = created (noiseGenRef p) /\
  noiseOn p' = noiseOn p /\ audioOn p' = audioOn p /\
  isMusicPlaying p' = isMusicPlaying p /\
  currentTrackIndex p' = currentTrackIndex p /\
  match type track with
  | generator =>
      noiseOn p = true ->
      exists node, gainNode (noiseGenRef p') = Some node /\
                   gainTarget node = App.getTargetVolume app
  | audio =>
      forall a, audioRef p = Some a ->
                audioRef p' = Some (mkAudioElement (App.getTargetVolume app) (playing a))
  end.
Proof.
  intros W p'. subst p'. unfold volumeOn.
  destruct (type track).
  - destruct (setVolume_spec smooth (App.getTargetVolume app) (noiseGenRef p) W)
      as (W' & Hs & Hsrc & Hp & Ht & Hc & Hg).
    unfold noiseOn, audioOn. cbn [noiseGenRef audioRef isMusicPlaying currentTrackIndex].
    rewrite Hs. split; [exact W'|].
    repeat split; try assumption.
    intros Hon. apply Hg.
    apply (proj1 (noiseOn_iff p W)). exact Hon.
  - destruct (audioRef p) as [a|] eqn:Ha.
    + unfold noiseOn, audioOn.
      cbn [noiseGenRef audioRef isMusicPlaying currentTrackIndex playing].
      rewrite Ha. split; [exact W|]. repeat split.
      intros a' H. injection H as <-. reflexivity.
    + split; [exact W|]. repeat split. intros a' H. congruence.
Qed.

Lemma volume_effect_only_sets_volume_witness :
  (wellFormed (noiseGenRef brownNoisePlaying) /\
   noiseOn brownNoisePlaying = true /\
   gainNode (noiseGenRef brownNoisePlaying) = Some (mkGainNode 0.5 0.5) /\
   App.getTargetVolume Samples.warned = 0.1%float) /\
  let track := brownTrack in
  let p' := volumeOn track true Samples.warned brownNoisePlaying in
  wellFormed (noiseGenRef p') /\
  sounding (noiseGenRef p') = sounding (noiseGenRef brownNoisePlaying) /\
  created (noiseGenRef p') = created (noiseGenRef brownNoisePlaying) /\
  noiseOn p' = noiseOn brownNoisePlaying /\ audioOn p' = audioOn brownNoisePlaying /\
  isMusicPlaying p' = isMusicPlaying brownNoisePlaying /\
  currentTrackIndex p' = currentTrackIndex brownNoisePlaying /\
  match type track with
  | generator =>
      noiseOn brownNoisePlaying = true ->
      exists node, gainNode (noiseGenRef p') = Some node /\
                   gainTarget node = App.getTargetVolume Samples.warned
  | audio =>
      forall a, audioRef brownNoisePlaying = Some a ->
                audioRef p' = Some (mkAudioElement
                                      (App.getTargetVolume Samples.warned)
                                      (playing a))
  end.
Proof.
  split; [split; [exact wellFormed_brownNoisePlaying | repeat split]|].
  exact (volume_effect_only_sets_volume brownTrack true
           Samples.warned brownNoisePlaying wellFormed_brownNoisePlaying).
Defined.

(** X21. Stopping the session silences the noise at once, before any
    effect runs: after [toggleMonitoring] in a monitoring state no noise
    source sounds; and once the playback control effect has run in the
    stopped state, on whatever track, nothing sounds at all, whether or
    not the music switch is on. Starting a session does not touch the
    generator. *)
Theorem stopping_silences
    (now nowId nowStart : Z) (app : App.State) (p : Player)
    (track : Track) (playRejects smooth : bool) :
  wellFormed (noiseGenRef p) ->
  let app' := fst (Audio.toggleMonitoring now nowId nowStart app p) in
  let p' := snd (Audio.toggleMonitoring now nowId nowStart app p) in
  (App.isMonitoring app = true ->
     noiseOn p' = false /\
     let p'' := playbackOn track playRejects smooth app' p' in
     noiseOn p'' = false /\ audioOn p'' = false) /\
  (App.isMonitoring app = false -> p' = p).
Proof.
  intros W app' p'. subst app' p'. unfold Audio.toggleMonitoring. cbn [fst snd].
  split; intros Hm; rewrite Hm; [|reflexivity].
  destruct (stop_spec (noiseGenRef p) W) as (W1 & Hs1 & _).
  split; [unfold noiseOn; cbn [noiseGenRef]; now rewrite Hs1|].
  cbv zeta.
  assert (Hoff : App.isMonitoring (App.toggleMonitoring now nowId nowStart app) = false).
  { unfold App.toggleMonitoring. now rewrite Hm. }
  unfold playbackOn. rewrite Hoff. cbn [andb noiseGenRef audioRef].
  destruct (stop_spec _ W1) as (_ & Hs2 & _).
  destruct (type track).
  - unfold noiseOn, audioOn. cbn [noiseGenRef audioRef]. rewrite Hs2.
    split; [reflexivity|]. now destruct (audioRef p).
  - destruct (audioRef p);
      unfold noiseOn, audioOn; cbn [noiseGenRef audioRef playing];
      rewrite Hs2; split; reflexivity.
Qed.

Lemma stopping_silences_witness :
  (wellFormed (noiseGenRef brownNoisePlaying) /\
   noiseOn brownNoisePlaying = true /\
   App.isMonitoring Samples.started = true) /\
  let track := brownTrack in
  let app' := fst (Audio.toggleMonitoring 9000 9000 9000 Samples.started
                     brownNoisePlaying) in
  let p' := snd (Audio.toggleMonitoring 9000 9000 9000 Samples.started
                   brownNoisePlaying) in
  (App.isMonitoring Samples.started = true ->
     noiseOn p' = false /\
     let p'' := playbackOn track false true app' p' in
     noiseOn p'' = false /\ audioOn p'' = false) /\
  (App.isMonitoring Samples.started = false -> p' = brownNoisePlaying).
Proof.
  split; [split; [exact wellFormed_brownNoisePlaying | split; reflexivity]|].
  exact (stopping_silences 9000 9000 9000 Samples.started brownNoisePlaying
           brownTrack false true wellFormed_brownNoisePlaying).
Defined.

End PlaylistAndVolume.

(** ** The display of durations *)

Section Durations.
Import Format.
Local Open Scope string_scope.
Local Open Scope Z_scope.

Lemma length_append (a b : string) :
  String.length (a ++ b) = (String.length a + String.length b)%nat.
Proof. induction a as [|x a IH]; [reflexivity|]. cbn. now rewrite IH. Qed.

Lemma append_split (a : string) : forall b c d,
  a ++ b = c ++ d -> String.length a = String.length c -> a = c /\ b = d.
Proof.
  induction a as [|x a IH]; intros b c d H Hl; destruct c as [|y c];
    try discriminate.
  - now split.
  - cbn in H. injection H as -> H. cbn in Hl. injection Hl as Hl.
    destruct (IH b c d H Hl) as [-> ->]. now split.
Qed.

Lemma toString_inj (a b : Z) : toString a = toString b -> a = b.
Proof.
  unfold toString. intros H.
  assert (Hn : forall z, Z.to_int z <> Decimal.Pos Decimal.Nil /\
                         Z.to_int z <> Decimal.Neg Decimal.Nil).
  { intros [|p|p]; cbn; split; try discriminate;
      intros E; injection E as E;
      now apply (DecimalPos.Unsigned.to_uint_nonnil p). }
  apply DecimalZ.to_int_inj.
  assert (E : Some (Z.to_int a) = Some (Z.to_int b)).
  { rewrite <- (DecimalString.NilZero.isi (Z.to_int a)) by apply Hn.
    rewrite <- (DecimalString.NilZero.isi (Z.to_int b)) by apply Hn.
    now rewrite H. }
  now injection E.
Qed.

(** The two-digit fields, checked over the sixty values they take. *)
Lemma pad2_table :
  forallb (fun i =>
    Nat.eqb (String.length (padStart 2 "0" (toString (Z.of_nat i)))) 2
    && forallb (fun j =>
         negb (String.eqb (padStart 2 "0" (toString (Z.of_nat i)))
                          (padStart 2 "0" (toString (Z.of_nat j))))
         || Nat.eqb i j) (seq 0 60)) (seq 0 60) = true.
Proof. vm_compute. reflexivity. Qed.

Lemma pad2_spec (m : Z) :
  0 <= m < 60 ->
  String.length (padStart 2 "0" (toString m)) = 2%nat /\
  forall m', 0 <= m' < 60 ->
    padStart 2 "0" (toString m) = padStart 2 "0" (toString m') -> m = m'.
Proof.
  intros Hm.
  pose proof pad2_table as T. rewrite forallb_forall in T.
  assert (Hin : forall k, 0 <= k < 60 -> In (Z.to_nat k) (seq 0 60)).
  { intros k Hk. apply in_seq. lia. }
  specialize (T (Z.to_nat m) (Hin m Hm)).
  rewrite Z2Nat.id in T by lia.
  apply andb_true_iff in T. destruct T as [Hlen Hinj].
  split; [now apply Nat.eqb_eq|].
  intros m' Hm' E.
  rewrite forallb_forall in Hinj. specialize (Hinj (Z.to_nat m') (Hin m' Hm')).
  rewrite Z2Nat.id in Hinj by lia.
  rewrite E, String.eqb_refl in Hinj. cbn in Hinj.
  apply Nat.eqb_eq in Hinj. lia.
Qed.

(** X22. Durations are displayed without ambiguity: two different whole
    numbers of seconds (not negative) never get the same text. Under one
    hour the text has exactly five characters, two digits of minutes, a
    colon and two digits of seconds; from one hour on, the hours and a
    colon come first. *)
Theorem formatTime_unambiguous (a b : Z) :
  0 <= a -> 0 <= b ->
  (formatTime a = formatTime b -> a = b) /\
  (a < 3600 ->
   formatTime a = padStart 2 "0" (toString (a / 60)) ++ ":"
                  ++ padStart 2 "0" (toString (a mod 60)) /\
   String.length (formatTime a) = 5%nat) /\
  (3600 <= a ->
   formatTime a = toString (a / 3600) ++ ":"
                  ++ padStart 2 "0" (toString (a mod 3600 / 60)) ++ ":"
                  ++ padStart 2 "0" (toString (a mod 60))).
Proof.
  intros Ha Hb.
  assert (Hparts : forall x, 0 <= x ->
            0 <= x / 3600 /\ 0 <= Z.rem x 3600 / 60 < 60 /\
            0 <= Z.rem x 60 < 60 /\
            Z.rem x 3600 = x mod 3600 /\ Z.rem x 60 = x mod 60 /\
            x = 3600 * (x / 3600) + 60 * (Z.rem x 3600 / 60) + Z.rem x 60).
  { intros x Hx. rewrite !Z.rem_mod_nonneg by lia.
    pose proof (Z.mod_pos_bound x 3600 ltac:(lia)).
    pose proof (Z.mod_pos_bound x 60 ltac:(lia)).
    pose proof (Z.div_mod x 3600 ltac:(lia)).
    pose proof (Z.div_mod (x mod 3600) 60 ltac:(lia)).
    pose proof (Z.mod_pos_bound (x mod 3600) 60 ltac:(lia)).
    assert (Hmm : (x mod 3600) mod 60 = x mod 60).
    { clear. Z.div_mod_to_equations. lia. }
    repeat split; lia. }
  assert (Hlen : forall x, 0 <= x ->
            String.length (formatTime x) =
            (String.length (if (0 <? x / 3600)%Z
                            then toString (x / 3600)%Z ++ ":" else "")
             + 5)%nat).
  { intros x Hx. destruct (Hparts x Hx) as (_ & Hm & Hs & _).
    unfold formatTime. cbv zeta. rewrite !length_append.
    rewrite (proj1 (pad2_spec _ Hm)), (proj1 (pad2_spec _ Hs)). cbn. lia. }
  split; [|split].
  - intros E.
    destruct (Hparts a Ha) as (Hha & Hma & Hsa & _ & _ & Hdeca).
    destruct (Hparts b Hb) as (Hhb & Hmb & Hsb & _ & _ & Hdecb).
    pose proof (f_equal String.length E) as El.
    rewrite (Hlen a Ha), (Hlen b Hb) in El.
    unfold formatTime in E. cbv zeta in E.
    apply append_split in E; [|lia]. destruct E as [Eh E].
    apply append_split in E;
      [|now rewrite (proj1 (pad2_spec _ Hma)), (proj1 (pad2_spec _ Hmb))].
    destruct E as [Em E]. injection E as Es.
    apply (proj2 (pad2_spec _ Hma) _ Hmb) in Em.
    apply (proj2 (pad2_spec _ Hsa) _ Hsb) in Es.
    assert (Eh' : a / 3600 = b / 3600).
    { destruct (Z.ltb_spec 0 (a / 3600)), (Z.ltb_spec 0 (b / 3600)).
      - apply toString_inj.
        pose proof (f_equal String.length Eh) as L.
        rewrite !length_append in L. cbn in L.
        apply append_split in Eh; [now destruct Eh | lia].
      - pose proof (f_equal String.length Eh) as L.
        rewrite length_append in L. cbn in L. lia.
      - pose proof (f_equal String.length Eh) as L.
        rewrite length_append in L. cbn in L. lia.
      - lia. }
    lia.
  - intros Hlt.
    destruct (Hparts a Ha) as (_ & _ & _ & Hr1 & Hr2 & _).
    assert (H0 : a / 3600 = 0) by (apply Z.div_small; lia).
    split.
    + unfold formatTime. cbv zeta. rewrite H0, Hr1, Hr2.
      rewrite (Z.mod_small a 3600) by lia. reflexivity.
    + rewrite (Hlen a Ha), H0. reflexivity.
  - intros Hge.
    destruct (Hparts a Ha) as (_ & _ & _ & Hr1 & Hr2 & _).
    assert (H0 : 0 < a / 3600) by (apply Z.div_str_pos; lia).
    unfold formatTime. cbv zeta. rewrite Hr1, Hr2.
    destruct (Z.ltb_spec 0 (a / 3600)); [|lia].
    rewrite append_assoc. reflexivity.
Qed.

Lemma formatTime_unambiguous_witness :
  (0 <= 3725 /\ 0 <= 65) /\
  (formatTime 3725 = formatTime 65 -> 3725 = 65) /\
  (3725 < 3600 ->
   formatTime 3725 = padStart 2 "0" (toString (3725 / 60)) ++ ":"
                     ++ padStart 2 "0" (toString (3725 mod 60)) /\
   String.length (formatTime 3725) = 5%nat) /\
  (3600 <= 3725 ->
   formatTime 3725 = toString (3725 / 3600) ++ ":"
                     ++ padStart 2 "0" (toString (3725 mod 3600 / 60)) ++ ":"
                     ++ padStart 2 "0" (toString (3725 mod 60))).
Proof.
  split; [lia|]. apply (formatTime_unambiguous 3725 65); lia.
Defined.

Example formatTime_samples :
  formatTime 0 = "00:00" /\ formatTime 65 = "01:05" /\
  formatTime 3599 = "59:59" /\ formatTime 3725 = "1:02:05".
Proof. repeat split; reflexivity. Qed.

End Durations.

(** ** From a failing provider to the screen *)

Section Outage.
Import Types JsString GeminiService Reference App Samples.
Import StatusOverlay.
Local Open Scope string_scope.
Local Open Scope Z_scope.

(** X23. While the provider fails (every attempt of a frame ends in an
    error, of whatever kind the overload test can read: with a message
    that is a string or is missing, or with a status or code of 503), the
    frame's result is an IDLE one, and ingesting it in an active session
    shows it at once whatever the threshold: a displayed warning
    disappears (no overlay is rendered), the volume goes back to the base
    volume, the counter of consecutive bad checks restarts from 0, and the
    check is counted in [total] but in none of the three buckets. *)
Theorem failed_classification_clears_warning
    (classifier : nat -> string -> Outcome)
    (JSON_parse : string -> JsValue + string)
    (base64Image : string) (log : list Event) (s : Z) (st : State) :
  readableErrors classifier JSON_parse (cleanBase64 base64Image) ->
  (forall k, exists error,
     attemptResult classifier JSON_parse k (cleanBase64 base64Image) = inr error) ->
  isMonitoringRef st = true ->
  exists result log',
    analyzeFrame classifier JSON_parse base64Image log
      = (Returns (Some (WellTyped result)), log') /\
    status result = IDLE /\
    let st' := handleStatusChange s result st in
    currentResult st' = result /\
    consecutiveBadChecksRef st' = 0 /\
    total (statsRef st') = total (statsRef st) + 1 /\
    studying (statsRef st') = studying (statsRef st) /\
    distracted (statsRef st') = distracted (statsRef st) /\
    absent (statsRef st') = absent (statsRef st) /\
    StatusOverlay (currentResult st') = Nothing /\
    getTargetVolume st' = musicVolume st.
Proof.
  intros Hread Hfail Hm.
  unfold analyzeFrame, analyzeFrameFuel.
  destruct (whileLoop_returns classifier JSON_parse (cleanBase64 base64Image)
              (Z.to_nat MAX_RETRIES) 0 log Hread)
    as (value & log' & Hrun & Hshape);
    [unfold MAX_RETRIES; lia | unfold MAX_RETRIES; lia |].
  destruct Hshape as [(k & Hk) | (k & error & o & _ & _ & ->)].
  { destruct (Hfail k) as (e & He). congruence. }
  exists (syntheticResult o), log'. split; [exact Hrun|].
  set (result := syntheticResult o).
  assert (Hidle : status result = IDLE) by reflexivity.
  clearbody result.
  split; [exact Hidle|].
  destruct (handleStatusChange_active s result st Hm) as (_ & Hst & Hc & Hr).
  destruct (handleStatusChange_frame s result st) as (_ & _ & _ & _ & _ & _ & Hv).
  rewrite Hidle in Hst, Hc, Hr. cbn [isBad] in Hc, Hr.
  cbv zeta. rewrite Hst, Hc, Hr.
  cbn [recordStats total studying distracted absent].
  repeat split.
  - unfold StatusOverlay. now rewrite Hidle.
  - unfold getTargetVolume. now rewrite Hr, Hidle, Hv.
Qed.

Lemma failed_classification_clears_warning_witness :
  (readableErrors alwaysBadRequest parseSample
     (cleanBase64 "data:image/jpeg;base64,AAAA") /\
   (forall k, exists error,
      attemptResult alwaysBadRequest parseSample k
        (cleanBase64 "data:image/jpeg;base64,AAAA") = inr error) /\
   isMonitoringRef warned = true /\
   StatusOverlay (currentResult warned) = Warning "Put the phone down." /\
   getTargetVolume warned = 0.1%float /\
   consecutiveBadChecksRef warned = 2) /\
  exists result log',
    analyzeFrame alwaysBadRequest parseSample "data:image/jpeg;base64,AAAA" []
      = (Returns (Some (WellTyped result)), log') /\
    status result = IDLE /\
    let st' := handleStatusChange 2 result warned in
    currentResult st' = result /\
    consecutiveBadChecksRef st' = 0 /\
    total (statsRef st') = total (statsRef warned) + 1 /\
    studying (statsRef st') = studying (statsRef warned) /\
    distracted (statsRef st') = distracted (statsRef warned) /\
    absent (statsRef st') = absent (statsRef warned) /\
    StatusOverlay (currentResult st') = Nothing /\
    getTargetVolume st' = musicVolume warned.
Proof.
  assert (Hread : readableErrors alwaysBadRequest parseSample
                    (cleanBase64 "data:image/jpeg;base64,AAAA")).
  { intros k error Hk. cbv in Hk. injection Hk as <-. discriminate. }
  assert (H : forall k, exists error,
            attemptResult alwaysBadRequest parseSample k
              (cleanBase64 "data:image/jpeg;base64,AAAA") = inr error).
  { intros k. exists badRequest. reflexivity. }
  split; [split; [exact Hread | split; [exact H | repeat split]]|].
  exact (failed_classification_clears_warning alwaysBadRequest parseSample
           "data:image/jpeg;base64,AAAA" [] 2 warned Hread H eq_refl).
Defined.

End Outage.

Section SamplerWitnesses.
Import Types WebcamMonitor Samples.
Local Open Scope string_scope.
Local Open Scope Z_scope.


End SamplerWitnesses.
